(** * neobanka2 order book: settlement orchestration and escrow validation

    A shallow embedding of
      - [src/orderbook/src/trade_settlement_client.py]
          ([SettlementClientSame], [SettlementClientCross]),
      - [src/orderbook/helper/api_helper.py] ([APIHelper]),
      - [src/orderbook/helper/api_service.py]
          ([APIService.register_order], [APIService.register_order_cross],
          [APIService.settle_trades], [APIService.get_trades],
          [APIService.check_available_funds]),
      - [src/orderbook/cross_chain_market_maker.py]
          ([CrossChainMarketMaker]) and the [faucet] route of
          [src/orderbook/app.py],
    followed by the properties of the specification stated over it.

    Conventions of the embedding.
      - A Python call that may raise is a computation in the monad [M]: it
        reads the history of adapter calls issued so far, returns either a
        value or an exception, and lists the calls it issued itself.
      - Everything the program learns from outside (JSON-RPC answers, the
        Web3 address helpers, SHA-256, the random source, the clock-driven
        timeout, the order book of [src/__init__.py]) is a field of the
        record [World]; an answer may depend on the whole history, so a
        retried call can be answered differently.
      - A number is the rational [Q] it denotes.  A Python [float] is a
        binary64 number: every conversion to [float] and every [float]
        operation of the code rounds to the nearest binary64 number
        ([to_float]); a [Decimal] operation rounds to 28 significant
        digits ([dround]).  The infinities and NaN, and numbers beyond the
        binary64 range, are not represented.
      - A [str] is the [string] of its UTF-8 bytes; [lower] and [upper] are
        Python's case mappings on ASCII text ([ascii_text]).
      - [asyncio.sleep], logging and [print] have no counterpart.
      - A dict with a fixed set of keys is a record; a key that can be
        absent, or a value that can be [None], is an [option] field. *)

From Stdlib Require Import ZArith QArith Qpower Qabs String Ascii List Bool Lia.
From Stdlib Require Import DecimalString Decimal DecimalZ DecimalPos.
From Stdlib Require Import Sorting.Sorted Sorting.Permutation.
From stdpp Require Import base option strings gmap.
Import ListNotations.

Local Open Scope string_scope.
Local Open Scope list_scope.

(* ================================================================== *)
(** ** Python preliminaries                                            *)
(* ================================================================== *)

Module Py.

(** [str.lower] and [str.upper], on the ASCII range. *)
Definition lower_ascii (c : ascii) : ascii :=
  let n := nat_of_ascii c in
  if (65 <=? n)%nat && (n <=? 90)%nat then ascii_of_nat (n + 32) else c.

Definition upper_ascii (c : ascii) : ascii :=
  let n := nat_of_ascii c in
  if (97 <=? n)%nat && (n <=? 122)%nat then ascii_of_nat (n - 32) else c.

Fixpoint lower (s : string) : string :=
  match s with
  | EmptyString => EmptyString
  | String c r => String (lower_ascii c) (lower r)
  end.

Fixpoint upper (s : string) : string :=
  match s with
  | EmptyString => EmptyString
  | String c r => String (upper_ascii c) (upper r)
  end.

(** Truthiness of a [str]: non-empty. *)
Definition truthy (s : string) : bool :=
  match s with EmptyString => false | _ => true end.

(** Truthiness of a value that may be [None]. *)
Definition otruthy (s : option string) : bool :=
  match s with Some s => truthy s | None => false end.

(** [a or b] on optional strings. *)
Definition or_ (a b : option string) : option string :=
  if otruthy a then a else b.

(** [s.startswith(p)] *)
Definition startswith (p s : string) : bool := String.prefix p s.

Definition streq (a b : string) : bool := String.eqb a b.

(** [str(n)] for an [int]. *)
Definition str_int (z : Z) : string := NilZero.string_of_int (Z.to_int z).

(** Text on which [lower] and [upper] are [str.lower] and [str.upper]:
    every byte is below 128. *)
Definition ascii_text (s : string) : bool :=
  forallb (fun c => (nat_of_ascii c <? 128)%nat) (list_ascii_of_string s).

Definition oascii_text (s : option string) : bool :=
  match s with Some s => ascii_text s | None => true end.

(** [x < y] on numbers. *)
Definition ltb (x y : Q) : bool := negb (Qle_bool y x).

(** The integer nearest to [n / d], ties to the even one; [0 < d]. *)
Definition round_half_even (n d : Z) : Z :=
  let q := (n / d)%Z in
  let r := (n mod d)%Z in
  match (2 * r ?= d)%Z with
  | Lt => q
  | Gt => (q + 1)%Z
  | Eq => if Z.even q then q else (q + 1)%Z
  end.

(** [base ^ k <= a / d], for positive [a] and [d]. *)
Definition reaches (base a d k : Z) : bool :=
  if (0 <=? k)%Z then (d * base ^ k <=? a)%Z
  else (d <=? a * base ^ (- k))%Z.

(** [a / (d * base ^ e)] rounded to an integer. *)
Definition scaled (base a d e : Z) : Z :=
  if (0 <=? e)%Z then round_half_even a (d * base ^ e)
  else round_half_even (a * base ^ (- e)) d.

(** The floor of the logarithm of [a / d] in base [base], from an
    estimate [k] that is right or one too large. *)
Definition floor_log (base a d k : Z) : Z :=
  if reaches base a d k then k else (k - 1)%Z.

(** [m * base ^ e], in lowest terms. *)
Definition unscaled (base m e : Z) : Q :=
  Qred (if (0 <=? e)%Z then inject_Z (m * base ^ e)
        else m # Z.to_pos (base ^ (- e))).

(** [float(x)]: the binary64 number nearest to [x], ties to even.  With
    [2 ^ l <= |x| < 2 ^ (l + 1)] the result is a multiple of
    [2 ^ (l - 52)] (53 significant bits), and of [2 ^ -1074] in the
    subnormal range. *)
Definition to_float (x : Q) : Q :=
  let n := Qnum x in
  let d := Z.pos (Qden x) in
  if (n =? 0)%Z then 0%Q
  else
    let a := Z.abs n in
    let l := floor_log 2 a d (Z.log2 a - Z.log2 d) in
    let e := Z.max (l - 52) (-1074) in
    unscaled 2 (Z.sgn n * scaled 2 a d e) e.

(** [2 ^ l <= a / d], and [l] the floor of the binary logarithm of
    [a / d], for positive [a] and [d]; the rational [z * 2 ^ e]. *)
Definition pow_le (l a d : Z) : Prop :=
  if (0 <=? l)%Z then (d * 2 ^ l <= a)%Z else (d <= a * 2 ^ (- l))%Z.

Definition is_floor_log (l a d : Z) : Prop :=
  pow_le l a d /\ ~ pow_le (l + 1) a d.

Definition dyadic (z e : Z) : Q :=
  if (0 <=? e)%Z then inject_Z (z * 2 ^ e) else z # Z.to_pos (2 ^ (- e)).

(** [x * y] on [float]s. *)
Definition fmul (x y : Q) : Q := to_float (x * y).

(** The largest [float], [(2 ^ 53 - 1) * 2 ^ 971], and the numbers on
    which [float(x)] is a finite [float]: those that do not round beyond
    it.  A quantity and a price are in range when they and the product
    of their [float]s are. *)
Definition float_max : Q := inject_Z (2 ^ 1024 - 2 ^ 971).

Definition in_float_range (x : Q) : bool :=
  Qle_bool (Qabs (to_float x)) float_max.

Definition amounts_in_range (quantity price : Q) : bool :=
  in_float_range quantity && in_float_range price
  && in_float_range (to_float quantity * to_float price).

(** [raw / 10**d] on [int]s: true division, which answers the [float]
    nearest to the quotient.  [d] is a [uint8] read from the token
    contract, or the default 18. *)
Definition div_pow10 (raw : Z) (d : Z) : Q :=
  to_float (inject_Z raw / Qpower (10 # 1) d).

(** Number of decimal digits of a positive [int]. *)
Definition digits10 (a : Z) : Z :=
  Z.of_nat (Decimal.nb_digits (Pos.to_uint (Z.to_pos a))).

(** The result of a [Decimal] operation whose exact value is [x]: [x]
    rounded to 28 significant digits, ties to even (the default
    context). *)
Definition dround (x : Q) : Q :=
  let n := Qnum x in
  let d := Z.pos (Qden x) in
  if (n =? 0)%Z then 0%Q
  else
    let a := Z.abs n in
    let l := floor_log 10 a d (digits10 a - digits10 d) in
    let e := (l - 27)%Z in
    unscaled 10 (Z.sgn n * scaled 10 a d e) e.

(** [x * y] and [x - y] on [Decimal]s. *)
Definition dec_mul (x y : Q) : Q := dround (x * y).
Definition dec_sub (x y : Q) : Q := dround (x - y).

(** [int(x)]: truncation towards zero. *)
Definition trunc (x : Q) : Z := Z.quot (Qnum x) (Z.pos (Qden x)).

(** Exceptions the modelled code can meet. *)
Inductive exn : Type :=
| ConnectionError (msg : string)
| ValueError (msg : string)
| KeyError (key : string)
| TypeError (msg : string)
| IndexError (msg : string)
| AttributeError (msg : string)
| RpcError (msg : string)          (* raised inside a Web3 call *)
| TimeoutError
| Exception (msg : string).

(** [str(e)] *)
Definition str_exn (e : exn) : string :=
  match e with
  | ConnectionError m | ValueError m | TypeError m | IndexError m
  | AttributeError m | RpcError m | Exception m => m
  | KeyError k => String.append "'" (String.append k "'")
  | TimeoutError => ""
  end.

Inductive res (A : Type) : Type :=
| Val (a : A)
| Exc (e : exn).
Arguments Val {A} a.
Arguments Exc {A} e.

End Py.
Export Py.

(* ================================================================== *)
(** ** Data model                                                      *)
(* ================================================================== *)

(** One entry of [SUPPORTED_NETWORKS] (app.py). *)
Record net_cfg : Type := {
  cfg_rpc : option string;
  cfg_chain_id : option Z;
  cfg_contract_address : option string;
  cfg_tokens : option (gmap string string);
}.

(** Truthiness of a network entry: a dict is falsy exactly when empty. *)
Definition cfg_truthy (n : net_cfg) : bool :=
  match cfg_rpc n, cfg_chain_id n, cfg_contract_address n, cfg_tokens n with
  | None, None, None, None => false
  | _, _, _, _ => true
  end.

(** The configuration a request is served under. *)
Record Config : Type := {
  SUPPORTED_NETWORKS : gmap string net_cfg;
  TOKEN_ADDRESSES : option (gmap string string);
  TRADE_SETTLEMENT_CONTRACT_ADDRESS : option string;
  PRIVATE_KEY : option string;
}.

(** An instance of [SettlementClientSame]: what [__init__] stores. *)
Record client : Type := {
  web3_provider : option string;
  contract_address : string;
  account : option string;
}.

(** A party of a trade as [register_order] and [settle_trades_if_any] read
    it: a positional list of [p_len] entries; an entry at an index from
    [p_len] on is not there, and the field that stands for it is not
    read. *)
Record party : Type := {
  p_len : nat;                       (* len(trade["partyN"]) *)
  p_addr : string;                   (* [0] *)
  p_side : string;                   (* [1] *)
  p_order_id : option Z;             (* [2] *)
  p_quantity : option Q;             (* [3] *)
  p_from_network : option string;    (* [5] *)
  p_to_network : option string;      (* [6] *)
  p_receive_wallet : option string;  (* [7] *)
}.

(** A converted trade (api_service.py, lines 239-249). *)
Record trade : Type := {
  t_timestamp : Z;
  t_price : Q;
  t_quantity : Q;
  t_time : Z;
  t_party1 : party;
  t_party2 : party;
}.

(** The serialisable order, [order_dict] (api_service.py, lines 266-278). *)
Record order_dict : Type := {
  od_orderId : Z;
  od_account : string;
  od_price : Q;
  od_quantity : Q;
  od_side : string;
  od_baseAsset : string;
  od_quoteAsset : string;
  od_trade_id : string;
  od_trades : list trade;
  od_timestamp : Z;
}.

(** The positional arguments of [settle_same_chain_trade] and of the
    [settle_cross_chain_trade] that [settle_trades_if_any] calls. *)
Record settle_args : Type := {
  sa_order_id : string;
  sa_party1 : string;
  sa_party2 : string;
  sa_party1_receive_wallet : option string;
  sa_party2_receive_wallet : option string;
  sa_base_asset : string;
  sa_quote_asset : string;
  sa_price : Q;
  sa_quantity : Q;
  sa_party1_side : string;
  sa_party2_side : string;
  sa_source_chain_id : option Z;
  sa_destination_chain_id : option Z;
  sa_timestamp : Z;
  sa_nonce1 : Z;
  sa_nonce2 : Z;
}.

(** The dict a settlement method returns, and the literal dicts the
    orchestrator puts in its place; [gas_used], [block_number] and
    [diagnostics] are read nowhere and are left out. *)
Record chain_result : Type := {
  cr_success : bool;
  cr_skipped : option bool;
  cr_reason : option string;
  cr_error : option string;
  cr_transaction_hash : option string;
}.

Inductive details : Type :=
| DetailsAmounts (required available : Q)
| DetailsOwner (owner_addr signer_addr : string).

(** The value under ["settlement_result"] of one entry. *)
Record settlement_result : Type := {
  sr_success : bool;
  sr_error : option string;
  sr_details : option details;
  sr_source_chain : option chain_result;
  sr_destination_chain : option chain_result;
  sr_order_id : option string;
}.

Definition settlement_entry : Type := trade * settlement_result.

(** What [settle_trades_if_any] returns. *)
Record settlement_info : Type := {
  si_settled : bool;
  si_reason : option string;
  si_error : option string;
  si_settlement_results : option (list settlement_entry);
  si_total_trades : option nat;
  si_successful_settlements : option nat;
}.

(** The dict [check_escrow_balance] returns; [{}] is [balance_empty]. *)
Record balance_info : Type := {
  bi_total : option Q;
  bi_total_wei : option Z;
  bi_available : option Q;
  bi_available_wei : option Z;
  bi_locked : option Q;
  bi_locked_wei : option Z;
  bi_error : option string;
}.

Definition balance_empty : balance_info :=
  {| bi_total := None; bi_total_wei := None; bi_available := None;
     bi_available_wei := None; bi_locked := None; bi_locked_wei := None;
     bi_error := None |}.

Definition balance_error (msg : string) : balance_info :=
  {| bi_total := None; bi_total_wei := None; bi_available := None;
     bi_available_wei := None; bi_locked := None; bi_locked_wei := None;
     bi_error := Some msg |}.

(** [balance_info.get(key, 0)] *)
Definition get0 (v : option Q) : Q := default 0%Q v.

(** A receipt as [wait_for_transaction_receipt] delivers it. *)
Record receipt : Type := {
  rc_status : Z;
  rc_transactionHash : string;
}.

(** *** The view of [register_order_cross] *)

(** An instance of [SettlementClientCross]. *)
Record cross_client : Type := {
  xc_rpc : string;
  xc_account : string;
  xc_private_key : string;
}.

(** A party as [register_order_cross] reads it: indices 0, 1, 4, 5, 6 and
    the two asset names of the order dict at index 7. *)
Record cross_party : Type := {
  xp_account : string;               (* [0] *)
  xp_side : string;                  (* [1] *)
  xp_source_chain : string;          (* [4] *)
  xp_dest_chain : string;            (* [5] *)
  xp_receive_wallet : string;        (* [6] *)
  xp_order_baseAsset : string;       (* [7]["baseAsset"] *)
  xp_order_quoteAsset : string;      (* [7]["quoteAsset"] *)
}.

Record cross_trade : Type := {
  xt_price : Q;
  xt_quantity : Q;
  xt_party1 : cross_party;
  xt_party2 : cross_party;
}.

(** [trade_data] (api_service.py, lines 707-736). *)
Record trade_data : Type := {
  td_orderId : string;
  td_party1 : string;
  td_party2 : string;
  td_party1ReceiveWallet : string;
  td_party2ReceiveWallet : string;
  td_baseAsset : string;
  td_quoteAsset : string;
  td_price : Z;
  td_quantity : Z;
  td_party1Side : string;
  td_party2Side : string;
  td_sourceChainId : Z;
  td_destinationChainId : Z;
  td_timestamp : Z;
  td_nonce1 : Z;
  td_nonce2 : Z;
}.

(** What [SettlementClientCross.wait_for_tx] returns. *)
Record cross_receipt : Type := {
  xr_transactionHash : string;
  xr_status : Z;
}.

(** An order as the order book hands it back (a dict). *)
Record order : Type := {
  o_order_id : Z;
  o_account : string;
  o_price : Q;
  o_quantity : Q;
  o_side : string;
  o_baseAsset : string;
  o_quoteAsset : string;
  o_trade_id : string;
  o_timestamp : option Z;            (* absent from the literal [_order] *)
}.

(** An activity record: ["order_placed"] or ["trade_executed"]. *)
Inductive activity : Type :=
| order_placed (symbol : string) (orderId : Z) (acct side : string)
    (price quantity : Q) (timestamp : Z)
| trade_executed (symbol : string) (price quantity : Q) (timestamp : Z)
    (txHash txHashSource txHashDestination : option string).

Definition is_trade_executed (a : activity) : bool :=
  match a with trade_executed _ _ _ _ _ _ _ => true | _ => false end.

(** The dict [_order] handed to [OrderBook.process_order]. *)
Record quote : Type := {
  q_type : string;
  q_trade_id : string;
  q_from_network : option string;
  q_to_network : option string;
  q_receive_wallet : option string;
  q_account : string;
  q_price : Q;
  q_quantity : Q;
  q_side : string;
  q_baseAsset : string;
  q_quoteAsset : string;
}.

(* ================================================================== *)
(** ** Calls, the world, and the monad                                 *)
(* ================================================================== *)

(** The calls the program issues on its collaborators, in the order in
    which it issues them. *)
Inductive event : Type :=
(* SettlementClientSame *)
| EvConnect (rpc : option string)
| EvCheckEscrowBalance (c : client) (user token : string) (token_decimals : Z)
| EvGetTokenDecimals (c : client) (token : string)
| EvGetUserNonce (c : client) (user token : string)
| EvGetContractOwner (c : client)
| EvSettleSameChainTrade (c : client) (a : settle_args)
| EvSettleCrossChainTrade (c : client) (a : settle_args) (is_source_chain : bool)
(* SettlementClientCross *)
| EvCrossConnect (rpc : string)
| EvCrossCheckEscrowBalance (c : cross_client) (settlement user token : string)
| EvCrossSettle (c : cross_client) (settlement : string) (td : trade_data)
    (is_source_chain : bool)
(* OrderBook, activity log, randomness, timeout *)
| EvProcessOrder (symbol : string) (q : quote)
| EvCancelOrder (symbol : string) (side : string) (order_id : Z)
| EvActivityLog (a : activity)
| EvAppendFile (a : activity)
| EvTokenHex
| EvSettlementAbandoned.

Definition history : Type := list event.

(** What [OrderBook.process_order] returns, together with the dict it was
    given as the call leaves it and the ["timestamp"] key it may have put
    there. *)
Record process_result : Type := {
  pr_success : bool;
  pr_message : string;
  pr_trades : list trade;
  pr_order : option order;
  pr_task_id : option Z;
  pr_next_best : option order;
  pr_quote : quote;
  pr_quote_timestamp : option Z;
}.

(** The collaborators.  A field that takes a [history] may answer the same
    question differently at different moments. *)
Record World : Type := {
  (* Web3 and eth_account helpers *)
  is_connected : history -> option string -> bool;
  to_checksum_address : string -> option string;
  account_from_key : string -> option string;
  eth_chain_id : history -> option string -> res Z;
  (* contract reads: [....call()] *)
  checkEscrowBalance : history -> option string -> string -> string -> string
                       -> res (Z * Z * Z);
  decimals : history -> option string -> string -> res Z;
  getUserNonce : history -> option string -> string -> string -> string -> res Z;
  owner : history -> option string -> string -> res string;
  (* the body of [settle_same_chain_trade] after the account test: an error
     message (every [return {"success": False, "error": ...}]) or the
     receipt of the mined transaction *)
  settleSameChainTrade : history -> client -> settle_args -> string + receipt;
  (* SettlementClientCross *)
  cross_checkEscrowBalance : history -> string -> string -> string -> string
                             -> res (Z * Z * Z);
  cross_settleCrossChainTrade : history -> cross_client -> string -> trade_data
                                -> bool -> res cross_receipt;
  (* hashlib, secrets, time, os.getenv *)
  sha256_hexdigest : string -> string;
  token_hex_32 : history -> string;
  time_now : history -> Z;
  getenv_SETTLEMENT_SYNC_TIMEOUT : res Z;
  (* asyncio.wait_for: the number of adapter calls the settlement thread
     gets through before the budget runs out, [None] when it never does *)
  wait_for_budget : history -> option nat;
  (* is the key in [order_books] when the request arrives? *)
  order_books_has : history -> string -> bool;
  (* OrderBook (src/__init__.py) and the activity file *)
  process_order : history -> string -> quote -> res process_result;
  process_order_cross : history -> string -> quote
                        -> res (list cross_trade * option order * option Z * option order);
  cancel_order : history -> string -> string -> Z -> res unit;
  append_file : history -> activity -> res unit;
}.

(** A computation: from the history so far to a result and the calls it
    issued. *)
Definition M (A : Type) : Type := history -> res A * list event.

Definition ret {A} (a : A) : M A := fun _ => (Val a, []).

Definition raise {A} (e : exn) : M A := fun _ => (Exc e, []).

Definition bind {A B} (m : M A) (f : A -> M B) : M B :=
  fun h =>
    match m h with
    | (Val a, es) => let '(r, es') := f a (h ++ es) in (r, es ++ es')
    | (Exc e, es) => (Exc e, es)
    end.

(** [try: m  except Exception as e: handler e] *)
Definition try_except {A} (m : M A) (handler : exn -> M A) : M A :=
  fun h =>
    match m h with
    | (Val a, es) => (Val a, es)
    | (Exc e, es) => let '(r, es') := handler e (h ++ es) in (r, es ++ es')
    end.

Definition emit (ev : event) : M unit := fun _ => (Val tt, [ev]).

(** Consulting the world. *)
Definition ask {A} (q : history -> A) : M A := fun h => (Val (q h), []).
Definition call {A} (q : history -> res A) : M A := fun h => (q h, []).

(** [x] when present, else raise. *)
Definition some_or_raise {A} (x : option A) (e : exn) : M A :=
  match x with Some a => ret a | None => raise e end.

Declare Scope py_scope.
Delimit Scope py_scope with py.
Notation "'let*' x ':=' m 'in' k" := (bind m (fun x => k))
  (at level 10, x pattern, m at level 100, k at level 200) : py_scope.
Notation "'do*' m 'in' k" := (bind m (fun _ => k))
  (at level 10, m at level 100, k at level 200) : py_scope.
Local Open Scope py_scope.

(** The calls a computation issues from a given history. *)
Definition calls {A} (m : M A) (h : history) : list event := snd (m h).
Definition result {A} (m : M A) (h : history) : res A := fst (m h).

(* ================================================================== *)
(** ** trade_settlement_client.py: [SettlementClientSame]              *)
(* ================================================================== *)

(** Python looks a method up on the class of the instance when the call
    runs.  [client_class] lists the one method of the client that
    [settle_trades_if_any] calls and that the class may or may not define;
    when defined, it answers a call with a dict or raises. *)
Record client_class : Type := {
  cls_settle_cross_chain_trade :
    option (history -> client -> settle_args -> bool -> res chain_result);
}.

(** The class under src/: lines 66-491 define no
    [settle_cross_chain_trade]. *)
Definition SettlementClientSame : client_class :=
  {| cls_settle_cross_chain_trade := None |}.

Section Program.

Variable W : World.
Variable cfg : Config.
Variable cls : client_class.

(** [Web3.to_checksum_address(a)], which raises on anything that is not
    an address. *)
Definition checksum (a : string) : M string :=
  some_or_raise (to_checksum_address W a) (ValueError "invalid address").

Definition checksum_opt (a : option string) : M string :=
  match a with
  | Some a => checksum a
  | None => raise (TypeError "address must be a string")
  end.

(** [SettlementClientSame.__init__] *)
Definition SettlementClientSame_init
    (web3_provider : option string) (contract_address : option string)
    (private_key : option string) : M client :=
  do* emit (EvConnect web3_provider) in
  let* connected := ask (fun h => is_connected W h web3_provider) in
  if negb connected
  then raise (ConnectionError "Failed to connect")
  else
    let* addr := checksum_opt contract_address in
    let* acct :=
      (if otruthy private_key
       then match private_key ≫= account_from_key W with
            | Some a => ret (Some a)
            | None => raise (ValueError "invalid private key")
            end
       else ret None) in
    (* line 101 reads the chain id for the banner *)
    let* _ := call (fun h => eth_chain_id W h web3_provider) in
    ret {| web3_provider := web3_provider;
           contract_address := addr;
           account := acct |}.

(** [check_escrow_balance], lines 107-144: the [try] block, then the
    method. *)
Definition check_escrow_balance_try
    (c : client) (user_address token_address : string) (token_decimals : Z)
  : M balance_info :=
  let* user_address := checksum user_address in
  let* token_address := checksum token_address in
  let* (total, available, locked) :=
    call (fun h => checkEscrowBalance W h (web3_provider c)
                     (contract_address c) user_address token_address) in
  ret {| bi_total := Some (div_pow10 total token_decimals);
         bi_total_wei := Some total;
         bi_available := Some (div_pow10 available token_decimals);
         bi_available_wei := Some available;
         bi_locked := Some (div_pow10 locked token_decimals);
         bi_locked_wei := Some locked;
         bi_error := None |}.

Definition check_escrow_balance
    (c : client) (user_address token_address : string) (token_decimals : Z)
  : M balance_info :=
  do* emit (EvCheckEscrowBalance c user_address token_address token_decimals) in
  try_except
    (check_escrow_balance_try c user_address token_address token_decimals)
    (fun e => ret (balance_error (str_exn e))).

(** [get_token_decimals], lines 148-158. *)
Definition get_token_decimals_try (c : client) (token_address : string) : M Z :=
  let* t := checksum token_address in
  call (fun h => decimals W h (web3_provider c) t).

Definition get_token_decimals (c : client) (token_address : string) : M Z :=
  do* emit (EvGetTokenDecimals c token_address) in
  try_except (get_token_decimals_try c token_address) (fun _ => ret 18%Z).

(** [get_user_nonce], lines 162-183. *)
Definition get_user_nonce_try (c : client) (user_address token_address : string)
  : M Z :=
  let* u := checksum user_address in
  let* t := checksum token_address in
  call (fun h => getUserNonce W h (web3_provider c) (contract_address c) u t).

Definition get_user_nonce (c : client) (user_address token_address : string)
  : M Z :=
  do* emit (EvGetUserNonce c user_address token_address) in
  try_except (get_user_nonce_try c user_address token_address) (fun _ => ret 0%Z).

(** [get_contract_owner], lines 457-463. *)
Definition get_contract_owner (c : client) : M string :=
  do* emit (EvGetContractOwner c) in
  try_except
    (call (fun h => owner W h (web3_provider c) (contract_address c)))
    (fun _ => ret "").

(** [get_signer_address], lines 465-470. *)
Definition get_signer_address (c : client) : M string :=
  ret (default "" (account c)).

(** The dict [settle_same_chain_trade] builds from what happened. *)
Definition result_of_submission (o : string + receipt) : chain_result :=
  match o with
  | inl msg =>
      {| cr_success := false; cr_skipped := None; cr_reason := None;
         cr_error := Some msg; cr_transaction_hash := None |}
  | inr r =>
      {| cr_success := (rc_status r =? 1)%Z; cr_skipped := None;
         cr_reason := None; cr_error := None;
         cr_transaction_hash := Some (rc_transactionHash r) |}
  end.

(** [settle_same_chain_trade], lines 187-345: the account test raises
    outside the [try]; everything after it ends in a dict. *)
Definition settle_same_chain_trade (c : client) (a : settle_args)
  : M chain_result :=
  do* emit (EvSettleSameChainTrade c a) in
  match account c with
  | None => raise (ValueError "No private key provided for transaction signing")
  | Some _ =>
      let* o := ask (fun h => settleSameChainTrade W h c a) in
      ret (result_of_submission o)
  end.

(** [client.settle_cross_chain_trade(...)] as [settle_trades_if_any]
    writes it. *)
Definition settle_cross_chain_trade
    (c : client) (a : settle_args) (is_source_chain : bool) : M chain_result :=
  match cls_settle_cross_chain_trade cls with
  | None =>
      raise (AttributeError
        "'SettlementClientSame' object has no attribute 'settle_cross_chain_trade'")
  | Some method =>
      do* emit (EvSettleCrossChainTrade c a is_source_chain) in
      call (fun h => method h c a is_source_chain)
  end.

(* ------------------------------------------------------------------ *)
(** ** api_helper.py: [APIHelper]                                      *)
(* ------------------------------------------------------------------ *)

(** [get_token_address], lines 28-54.  [network_key] is [None] when a
    party carries no network. *)
Definition get_token_address (symbol : string) (network_key : option string)
  : string :=
  let symbol_up := upper symbol in
  let net := network_key ≫= (fun k => SUPPORTED_NETWORKS cfg !! k) in
  let tokens := default ∅ (net ≫= cfg_tokens) in
  let legacy :=
    match TOKEN_ADDRESSES cfg with
    | Some legacy_map =>
        if bool_decide (legacy_map = ∅) then ""
        else
          let network_suffix := upper (default "" network_key) in
          let key_with_net := symbol_up +:+ "_" +:+ network_suffix in
          match (if truthy network_suffix then legacy_map !! key_with_net
                 else None) with
          | Some token_address => token_address
          | None =>
              if streq (lower (default "" network_key)) "hedera"
              then default "" (legacy_map !! symbol_up)
              else ""
          end
    | None => ""
    end in
  match tokens !! symbol_up with
  | Some addr => if truthy addr then addr else legacy
  | None => legacy
  end.

(** The request body of [register_order]. *)
Record payload : Type := {
  pl_attach_signature : bool;
  pl_account : string;
  pl_side : string;
  pl_quantity : Q;
  pl_price : Q;
  pl_from_network : option string;
  pl_fromNetwork : option string;
  pl_to_network : option string;
  pl_toNetwork : option string;
  pl_baseAsset : string;
  pl_quoteAsset : string;
  pl_type : option string;
  pl_receive_wallet : option string;
  pl_receiveWallet : option string;
}.

(** [(a or b or "")] *)
Definition or_str (a b : option string) : string :=
  default "" (or_ a b).

(** The entries of [results["errors"]]; the f-strings are kept as their
    arguments. *)
Inductive validation_error : Type :=
| TokenNotConfigured (asset network_key : string)
| InsufficientEscrow (required available : Q)
| ValidationError (msg : string).

(** [results["checks"]] *)
Record checks : Type := {
  ck_account : string;
  ck_side : string;
  ck_token : string;
  ck_required_amount : Q;
  ck_available_escrow : Q;
  ck_total_escrow : Q;
  ck_locked_escrow : Q;
  ck_network_key : string;
  ck_rpc : option string;
  ck_contract_address : option string;
  ck_token_decimals : Z;
}.

Record validation : Type := {
  v_valid : bool;
  v_errors : list validation_error;
  v_checks : option checks;
}.

(** [default_decimals_map.get(symbol.upper(), 18)], lines 120-121. *)
Definition default_decimals (symbol : string) : Z :=
  let s := upper symbol in
  if streq s "USDT" then 6 else if streq s "HBAR" then 18 else 18.

(** The loop of lines 122-129: [attempts] iterations remain. *)
Fixpoint decimals_attempts (attempts : nat) (c : client) (token : string)
    (token_decimals : Z) : M Z :=
  match attempts with
  | O => ret token_decimals
  | S n =>
      try_except
        (get_token_decimals c token)
        (fun _ => decimals_attempts n c token token_decimals)
  end.

(** The loop of lines 133-140. *)
Fixpoint balance_attempts (attempts : nat) (c : client) (acct token : string)
    (token_decimals : Z) (current : balance_info) : M balance_info :=
  match attempts with
  | O => ret current
  | S n =>
      let* b :=
        try_except
          (check_escrow_balance c acct token token_decimals)
          (fun e => ret (balance_error (str_exn e))) in
      match bi_error b with
      | None => ret b
      | Some _ => balance_attempts n c acct token token_decimals b
      end
  end.

(** [len(str(token)) != 42 or not startswith("0x") or not token] *)
Definition token_configured (token : string) : bool :=
  truthy token && startswith "0x" token && (String.length token =? 42)%nat.

(** [validate_order_prerequisites], lines 64-170. *)
Definition validate_order_prerequisites (order_data : payload) : M validation :=
  try_except
    (let acct := pl_account order_data in
     let side := pl_side order_data in
     let quantity := to_float (pl_quantity order_data) in
     let price := to_float (pl_price order_data) in
     let from_network :=
       lower (or_str (pl_from_network order_data) (pl_fromNetwork order_data)) in
     let base_asset_from :=
       get_token_address (pl_baseAsset order_data) (Some from_network) in
     let quote_asset_from :=
       get_token_address (pl_quoteAsset order_data) (Some from_network) in
     let is_ask := streq (lower side) "ask" in
     let required_amount := if is_ask then quantity else fmul quantity price in
     let token_to_check := if is_ask then base_asset_from else quote_asset_from in
     let network_key := from_network in
     if negb (token_configured token_to_check)
     then ret {| v_valid := false;
                 v_errors :=
                   [TokenNotConfigured
                      (if is_ask then pl_baseAsset order_data
                       else pl_quoteAsset order_data) network_key];
                 v_checks := None |}
     else
       let net_cfg := SUPPORTED_NETWORKS cfg !! network_key in
       let* c := SettlementClientSame_init
                   (net_cfg ≫= cfg_rpc) (net_cfg ≫= cfg_contract_address)
                   (PRIVATE_KEY cfg) in
       let symbol_for_decimals :=
         if is_ask then pl_baseAsset order_data else pl_quoteAsset order_data in
       let* token_decimals :=
         decimals_attempts 3 c token_to_check
           (default_decimals symbol_for_decimals) in
       let* balance_info :=
         balance_attempts 4 c acct token_to_check token_decimals balance_empty in
       let available := get0 (bi_available balance_info) in
       let cks :=
         {| ck_account := acct; ck_side := side; ck_token := token_to_check;
            ck_required_amount := required_amount;
            ck_available_escrow := available;
            ck_total_escrow := get0 (bi_total balance_info);
            ck_locked_escrow := get0 (bi_locked balance_info);
            ck_network_key := network_key;
            ck_rpc := net_cfg ≫= cfg_rpc;
            ck_contract_address := net_cfg ≫= cfg_contract_address;
            ck_token_decimals := token_decimals |} in
       if ltb available required_amount
       then ret {| v_valid := false;
                   v_errors := [InsufficientEscrow required_amount available];
                   v_checks := Some cks |}
       else ret {| v_valid := true; v_errors := []; v_checks := Some cks |})
    (fun e => ret {| v_valid := false;
                     v_errors := [ValidationError (str_exn e)];
                     v_checks := None |}).

(** *** The settlement orchestrator *)

Definition failure (err : string) (d : option details) : settlement_result :=
  {| sr_success := false; sr_error := Some err; sr_details := d;
     sr_source_chain := None; sr_destination_chain := None;
     sr_order_id := None |}.

(** The two literal dicts that stand for a destination leg not run. *)
Definition same_chain_atomic : chain_result :=
  {| cr_success := true; cr_skipped := Some true;
     cr_reason := Some "same_chain_atomic"; cr_error := None;
     cr_transaction_hash := None |}.

Definition source_failed : chain_result :=
  {| cr_success := false; cr_skipped := Some true;
     cr_reason := Some "source_failed"; cr_error := None;
     cr_transaction_hash := None |}.

(** The roles of lines 245-262, after normalisation. *)
Record roles : Type := {
  ask_addr : string;
  ask_from_network : option string;
  ask_to_network : option string;
  ask_recv : option string;
  bid_addr : string;
  bid_from_network : option string;
  bid_to_network : option string;
  bid_recv : option string;
}.

(** [trade["partyN"][i] if len(trade["partyN"]) > i else d] *)
Definition index_or {A} (p : party) (i : nat) (field d : A) : A :=
  if (i <? p_len p)%nat then field else d.

(** Lines 233-262: [None] stands for [invalid_sides]. *)
Definition normalize_roles (t : trade) : option roles :=
  let p1 := t_party1 t in
  let p2 := t_party2 t in
  let party1_from_network := index_or p1 5 (p_from_network p1) None in
  let party1_to_network := index_or p1 6 (p_to_network p1) None in
  let party1_receive_wallet := index_or p1 7 (p_receive_wallet p1) (Some (p_addr p1)) in
  let party2_from_network := index_or p2 5 (p_from_network p2) None in
  let party2_to_network := index_or p2 6 (p_to_network p2) None in
  let party2_receive_wallet := index_or p2 7 (p_receive_wallet p2) (Some (p_addr p2)) in
  let ask_is_p1 :=
    streq (lower (p_side p1)) "ask" && streq (lower (p_side p2)) "bid" in
  let bid_is_p1 :=
    streq (lower (p_side p1)) "bid" && streq (lower (p_side p2)) "ask" in
  if negb (ask_is_p1 || bid_is_p1) then None
  else if ask_is_p1 then
    Some {| ask_addr := p_addr p1; ask_from_network := party1_from_network;
            ask_to_network := party1_to_network; ask_recv := party1_receive_wallet;
            bid_addr := p_addr p2; bid_from_network := party2_from_network;
            bid_to_network := party2_to_network; bid_recv := party2_receive_wallet |}
  else
    Some {| ask_addr := p_addr p2; ask_from_network := party2_from_network;
            ask_to_network := party2_to_network; ask_recv := party2_receive_wallet;
            bid_addr := p_addr p1; bid_from_network := party1_from_network;
            bid_to_network := party1_to_network; bid_recv := party1_receive_wallet |}.

(** [SUPPORTED_NETWORKS.get(key)] followed by the truthiness test of line
    270. *)
Definition network_cfg (key : option string) : option net_cfg :=
  match key ≫= (fun k => SUPPORTED_NETWORKS cfg !! k) with
  | Some n => if cfg_truthy n then Some n else None
  | None => None
  end.

(** [d.get(key, fallback)]: the fallback only for an absent key. *)
Definition get_or {A} (v fallback : option A) : option A :=
  match v with Some a => Some a | None => fallback end.

(** [_retry_get_nonce], lines 398-407. *)
Fixpoint _retry_get_nonce (attempts : nat) (c : client) (user token : string)
  : M Z :=
  match attempts with
  | O => ret 0%Z
  | S n =>
      try_except (get_user_nonce c user token)
                 (fun _ => _retry_get_nonce n c user token)
  end.

(** Lines 415-419: the id submitted with a trade. *)
Definition settlement_id_preimage (orderId timestamp : Z) (idx : nat) : string :=
  str_int orderId +:+ ":" +:+ str_int timestamp +:+ ":" +:+ str_int (Z.of_nat idx).

Definition settlement_order_id (orderId timestamp : Z) (idx : nat) : string :=
  substring 0 32
    (sha256_hexdigest W (settlement_id_preimage orderId timestamp idx)).

(** What lines 232-339 establish for a trade that is not turned away. *)
Record prepared : Type := {
  the_roles : roles;
  client_source : client;
  client_dest : client;
  source_chain_id : option Z;
  dest_chain_id : option Z;
  base_token_src : string;
  quote_token_src : string;
  quote_token_dest : string;
}.

(** Lines 232-339: roles, network configuration, clients, the owner test
    and the token addresses.  [inl] is the result appended before a
    [continue]; the entries 0 and 1 of a party are read without a test of
    its length. *)
Definition prepare_trade (od : order_dict) (t : trade)
  : M (settlement_result + prepared) :=
  if (p_len (t_party1 t) <? 2)%nat || (p_len (t_party2 t) <? 2)%nat
  then raise (IndexError "list index out of range")
  else
  match normalize_roles t with
  | None => ret (inl (failure "invalid_sides" None))
  | Some r =>
    match network_cfg (ask_from_network r), network_cfg (bid_from_network r) with
    | Some source_network_cfg, Some dest_network_cfg =>
      let source_contract :=
        get_or (cfg_contract_address source_network_cfg)
               (TRADE_SETTLEMENT_CONTRACT_ADDRESS cfg) in
      let dest_contract :=
        get_or (cfg_contract_address dest_network_cfg)
               (TRADE_SETTLEMENT_CONTRACT_ADDRESS cfg) in
      let* client_source :=
        SettlementClientSame_init (cfg_rpc source_network_cfg) source_contract
          (PRIVATE_KEY cfg) in
      let* client_dest :=
        SettlementClientSame_init (cfg_rpc dest_network_cfg) dest_contract
          (PRIVATE_KEY cfg) in
      let* owner_addr := get_contract_owner client_source in
      let* signer_addr := get_signer_address client_source in
      if truthy owner_addr && truthy signer_addr
         && negb (streq (lower owner_addr) (lower signer_addr))
      then ret (inl (failure "signer_not_owner"
                       (Some (DetailsOwner owner_addr signer_addr))))
      else
        ret (inr {| the_roles := r;
                    client_source := client_source;
                    client_dest := client_dest;
                    source_chain_id := cfg_chain_id source_network_cfg;
                    dest_chain_id := cfg_chain_id dest_network_cfg;
                    base_token_src :=
                      get_token_address (od_baseAsset od) (ask_from_network r);
                    quote_token_src :=
                      get_token_address (od_quoteAsset od) (ask_from_network r);
                    quote_token_dest :=
                      get_token_address (od_quoteAsset od) (bid_from_network r) |})
    | _, _ => ret (inl (failure "Network configuration not found" None))
    end
  end.

(** The arguments handed to the settlement methods, lines 472-479, 552-560
    and 584-592. *)
Definition settle_args_of (p : prepared) (t : trade) (order_id : string)
    (quote_token : string) (nonce1 nonce2 : Z) : settle_args :=
  {| sa_order_id := order_id;
     sa_party1 := ask_addr (the_roles p); sa_party2 := bid_addr (the_roles p);
     sa_party1_receive_wallet := ask_recv (the_roles p);
     sa_party2_receive_wallet := bid_recv (the_roles p);
     sa_base_asset := base_token_src p; sa_quote_asset := quote_token;
     sa_price := to_float (t_price t);
     sa_quantity := to_float (t_quantity t);
     sa_party1_side := "ask"; sa_party2_side := "bid";
     sa_source_chain_id := source_chain_id p;
     sa_destination_chain_id := dest_chain_id p;
     sa_timestamp := t_timestamp t;
     sa_nonce1 := nonce1; sa_nonce2 := nonce2 |}.

(** Lines 620-628. *)
Definition settled_result (order_id : string)
    (result_source result_dest : chain_result) : settlement_result :=
  {| sr_success := cr_success result_source && cr_success result_dest;
     sr_error := None; sr_details := None;
     sr_source_chain := Some result_source;
     sr_destination_chain := Some result_dest;
     sr_order_id := Some order_id |}.

(** The same-chain branch, lines 426-485. *)
Definition settle_same_chain (p : prepared) (t : trade) (order_id : string)
    (nonce1 nonce2 : Z) : M settlement_result :=
  let r := the_roles p in
  let base_needed := to_float (t_quantity t) in
  let quote_needed := fmul (to_float (t_quantity t)) (to_float (t_price t)) in
  let* base_check :=
    check_escrow_balance (client_source p) (ask_addr r) (base_token_src p) 18 in
  let* quote_check :=
    check_escrow_balance (client_source p) (bid_addr r) (quote_token_src p) 18 in
  let base_avail := get0 (bi_available base_check) in
  let quote_avail := get0 (bi_available quote_check) in
  if ltb base_avail base_needed
  then ret (failure "insufficient_escrow_base_same_chain"
              (Some (DetailsAmounts base_needed base_avail)))
  else if ltb quote_avail quote_needed
  then ret (failure "insufficient_escrow_quote_same_chain"
              (Some (DetailsAmounts quote_needed quote_avail)))
  else
    let* result_same :=
      settle_same_chain_trade (client_source p)
        (settle_args_of p t order_id (quote_token_src p) nonce1 nonce2) in
    ret (settled_result order_id result_same same_chain_atomic).

(** The cross-chain branch, lines 487-618. *)
Definition settle_cross_chain (p : prepared) (t : trade) (order_id : string)
    (nonce1 nonce2 : Z) : M settlement_result :=
  let a := settle_args_of p t order_id (quote_token_dest p) nonce1 nonce2 in
  let* result_source := settle_cross_chain_trade (client_source p) a true in
  if negb (cr_success result_source)
  then ret {| sr_success := false; sr_error := None; sr_details := None;
              sr_source_chain := Some result_source;
              sr_destination_chain := Some source_failed;
              sr_order_id := None |}
  else
    let* result_dest := settle_cross_chain_trade (client_dest p) a false in
    ret (settled_result order_id result_source result_dest).

(** Lines 397-635: nonces, the settlement id, and the branch on the chain
    ids. *)
Definition submit_trade (od : order_dict) (idx : nat) (t : trade) (p : prepared)
  : M settlement_result :=
  let r := the_roles p in
  let* nonce1 :=
    _retry_get_nonce 3 (client_source p) (ask_addr r) (base_token_src p) in
  let* nonce2 :=
    _retry_get_nonce 3 (client_dest p) (bid_addr r) (quote_token_dest p) in
  let order_id := settlement_order_id (od_orderId od) (t_timestamp t) idx in
  if bool_decide (source_chain_id p = dest_chain_id p)
  then settle_same_chain p t order_id nonce1 nonce2
  else settle_cross_chain p t order_id nonce1 nonce2.

(** Lines 341-635: the two escrow comparisons, then the submission. *)
Definition settle_prepared (od : order_dict) (idx : nat) (t : trade)
    (p : prepared) : M settlement_result :=
  let r := the_roles p in
  (* lines 341-367 *)
  let* ask_base_check :=
    check_escrow_balance (client_source p) (ask_addr r) (base_token_src p) 18 in
  let ask_base_avail := get0 (bi_available ask_base_check) in
  let ask_base_needed := to_float (t_quantity t) in
  if ltb ask_base_avail ask_base_needed
  then ret (failure "insufficient_ask_base_escrow"
              (Some (DetailsAmounts ask_base_needed ask_base_avail)))
  else
    (* lines 369-395 *)
    let* bid_quote_check :=
      check_escrow_balance (client_dest p) (bid_addr r) (quote_token_dest p) 18 in
    let bid_quote_avail := get0 (bi_available bid_quote_check) in
    let bid_quote_needed :=
      fmul (to_float (t_quantity t)) (to_float (t_price t)) in
    if ltb bid_quote_avail bid_quote_needed
    then ret (failure "insufficient_bid_quote_escrow"
                (Some (DetailsAmounts bid_quote_needed bid_quote_avail)))
    else submit_trade od idx t p.

(** One iteration of the loop of lines 228-635: the ["settlement_result"]
    appended for [trade], whether before a [continue] or at line 620. *)
Definition settle_trade (od : order_dict) (idx : nat) (t : trade)
  : M settlement_result :=
  let* p := prepare_trade od t in
  match p with
  | inl turned_away => ret turned_away
  | inr p => settle_prepared od idx t p
  end.

(** The loop itself: [enumerate(order_dict["trades"])] from [idx] on. *)
Fixpoint settle_loop (od : order_dict) (idx : nat) (trades : list trade)
  : M (list settlement_entry) :=
  match trades with
  | [] => ret []
  | t :: rest =>
      let* r := settle_trade od idx t in
      let* rs := settle_loop od (S idx) rest in
      ret ((t, r) :: rs)
  end.

Definition unsettled (reason error : option string) : settlement_info :=
  {| si_settled := false; si_reason := reason; si_error := error;
     si_settlement_results := None; si_total_trades := None;
     si_successful_settlements := None |}.

(** [sum(1 for r in settlement_results if r['settlement_result'].get('success'))] *)
Definition successful_count (rs : list settlement_entry) : nat :=
  length (filter (fun e => sr_success (snd e) = true) rs).

(** [settle_trades_if_any], lines 203-656. *)
Definition settle_trades_if_any (od : order_dict) : M settlement_info :=
  match od_trades od with
  | [] => ret (unsettled (Some "No trades to settle") None)
  | _ =>
      try_except
        (let* settlement_results := settle_loop od 0 (od_trades od) in
         ret {| si_settled := true; si_reason := None; si_error := None;
                si_settlement_results := Some settlement_results;
                si_total_trades := Some (length (od_trades od));
                si_successful_settlements :=
                  Some (successful_count settlement_results) |})
        (fun e => ret (unsettled None (Some (str_exn e))))
  end.

(** [SUPPORTED_NETWORKS.get(net, {}).get("chain_id")] *)
Definition chain_id_of (net : string) : option Z :=
  (SUPPORTED_NETWORKS cfg !! net) ≫= cfg_chain_id.

(** [(t0.get("partyN") or [None]*8)[5]]: an empty party is falsy, and
    the list of eight [None] is read in its place. *)
Definition party_from (p : party) : M (option string) :=
  if (p_len p =? 0)%nat then ret None
  else if (5 <? p_len p)%nat then ret (p_from_network p)
  else raise (IndexError "list index out of range").

(** The wrappers of lines 659-736; [same] selects the test of line 682 or
    that of line 722. *)
Definition settle_trades_if_any_routed (same : bool) (od : order_dict)
  : M settlement_info :=
  try_except
    (match od_trades od with
     | [] => ret (unsettled (Some "No trades to settle") None)
     | t0 :: _ =>
         let* p1_from := party_from (t_party1 t0) in
         let* p2_from := party_from (t_party2 t0) in
         match p1_from, p2_from with
         | Some p1, Some p2 =>
             if negb (truthy p1 && truthy p2)
             then ret (unsettled None (Some "missing_networks"))
             else
               let equal := bool_decide (chain_id_of p1 = chain_id_of p2) in
               if same && negb equal
               then ret (unsettled None (Some "not_same_chain"))
               else if negb same && equal
               then ret (unsettled None (Some "not_cross_chain"))
               else settle_trades_if_any od
         | _, _ => ret (unsettled None (Some "missing_networks"))
         end
     end)
    (fun e => ret (unsettled None (Some (str_exn e)))).

Definition settle_trades_if_any_same : order_dict -> M settlement_info :=
  settle_trades_if_any_routed true.

Definition settle_trades_if_any_cross : order_dict -> M settlement_info :=
  settle_trades_if_any_routed false.


(* ------------------------------------------------------------------ *)
(** ** api_service.py: [APIService.register_order]                     *)
(* ------------------------------------------------------------------ *)

(** The responses of [register_order].  A request that attaches a
    signature (lines 80-104) places no order and is answered apart; each
    other [return] or [raise] has its constructor. *)
Inductive response : Type :=
| SignatureRequest                                             (* lines 80-104 *)
| UseCrossEndpoint                                             (* 400, line 116 *)
| ValidationFailed (errors : list validation_error)
    (validation_details : option checks)                       (* 400, line 136 *)
| ProcessFailed (message : string)                             (* 400, line 181 *)
| SettlementFailed (info : settlement_info)                    (* 400, line 389 *)
| Registered (od : order_dict) (nextBest : option order) (taskId : option Z)
    (validation_details : option checks) (info : settlement_info) (* 200, line 457 *)
| HTTPException500 (detail : string).                          (* line 472 *)

(** Lines 204-237: the party rebuilt with eight entries. *)
Definition convert_party (p : party) : party :=
  {| p_len := 8; p_addr := p_addr p; p_side := p_side p;
     p_order_id := p_order_id p; p_quantity := to_float <$> p_quantity p;
     p_from_network := index_or p 5 (p_from_network p) None;
     p_to_network := index_or p 6 (p_to_network p) None;
     p_receive_wallet := index_or p 7 (p_receive_wallet p) None |}.

Definition convert_trade (t : trade) : trade :=
  {| t_timestamp := t_timestamp t; t_price := to_float (t_price t);
     t_quantity := to_float (t_quantity t); t_time := t_time t;
     t_party1 := convert_party (t_party1 t);
     t_party2 := convert_party (t_party2 t) |}.

(** The loop of lines 203-263: the entries 0 to 4 of each party are read
    without a test of its length. *)
Definition convert_trades (trades : list trade) : M (list trade) :=
  if forallb (fun t => (4 <? p_len (t_party1 t))%nat
                       && (4 <? p_len (t_party2 t))%nat) trades
  then ret (map convert_trade trades)
  else raise (IndexError "list index out of range").

(** [activity_log.append(rec)] and [append_file(rec)], each when given. *)
Definition log_activity (have_activity_log have_append_file : bool)
    (a : activity) : M unit :=
  do* (if have_activity_log then emit (EvActivityLog a) else ret tt) in
  if have_append_file
  then do* emit (EvAppendFile a) in call (fun h => append_file W h a)
  else ret tt.

(** [asyncio.wait_for(m, timeout)] over the executor thread: when the
    budget runs out before the thread is through, the calls issued so far
    have happened and [TimeoutError] is raised; the thread itself is not
    stopped, and what it does later is not part of the request. *)
Definition wait_for {A} (m : M A) : M A :=
  fun h =>
    let '(r, es) := m h in
    match wait_for_budget W h with
    | Some k =>
        if (k <? length es)%nat
        then (Exc TimeoutError, firstn k es ++ [EvSettlementAbandoned])
        else (r, es)
    | None => (r, es)
    end.

(** Lines 315-362: step 3, the synchronous settlement. *)
Definition run_settlement (od : order_dict) : M settlement_info :=
  try_except
    (let* timeout_s := call (fun _ => getenv_SETTLEMENT_SYNC_TIMEOUT W) in
     try_except
       (wait_for (settle_trades_if_any_same od))
       (fun e =>
          match e with
          | TimeoutError => ret (unsettled (Some "timeout") None)
          | _ => raise e
          end))
    (fun e => ret (unsettled None (Some (str_exn e)))).

(** Lines 371-374. *)
Definition settlement_ok (info : settlement_info) (converted_trades : list trade)
  : bool :=
  si_settled info
  && (length converted_trades <=? default 0%nat (si_successful_settlements info))%nat.

(** Lines 405-447: the records of the executed trades, from [idx] on. *)
Fixpoint record_trades (have_activity_log have_append_file : bool)
    (symbol : string) (results : list settlement_entry) (idx : nat)
    (converted_trades : list trade) : M unit :=
  match converted_trades with
  | [] => ret tt
  | tr :: rest =>
      let res_entry := snd <$> (results !! idx) in
      let tr_ok := default true (sr_success <$> res_entry) in
      do* (if negb tr_ok then ret tt
           else
             let src_hash :=
               (res_entry ≫= sr_source_chain) ≫= cr_transaction_hash in
             let dst_hash :=
               (res_entry ≫= sr_destination_chain) ≫= cr_transaction_hash in
             let rec :=
               trade_executed symbol (to_float (t_price tr))
                 (to_float (t_quantity tr)) (t_timestamp tr)
                 (if otruthy src_hash && negb (otruthy dst_hash)
                  then src_hash else None)
                 (if otruthy src_hash then src_hash else None)
                 (if otruthy dst_hash then dst_hash else None) in
             log_activity have_activity_log have_append_file rec) in
      record_trades have_activity_log have_append_file symbol results (S idx) rest
  end.

(** Lines 367-468: roll the match back, or record the trades.
    [converted_trades] is the list held by [order_dict["trades"]].  The
    outer [try] of line 369 has nothing left to catch: the test of [ok]
    reads a dict, and the two arms catch their own exceptions. *)
Definition finalize (have_activity_log have_append_file : bool)
    (symbol : string) (ord : order) (od : order_dict)
    (nextBest : option order) (task_id : option Z)
    (validation_details : option checks) (info : settlement_info) : M response :=
  let converted_trades := od_trades od in
  let registered := Registered od nextBest task_id validation_details info in
  match converted_trades with
  | [] => ret registered
  | _ =>
      if negb (settlement_ok info converted_trades)
      then
        do* (if negb (o_order_id ord =? 0)%Z
             then try_except
                    (do* emit (EvCancelOrder symbol (o_side ord) (o_order_id ord)) in
                     call (fun h => cancel_order W h symbol (o_side ord)
                                      (o_order_id ord)))
                    (fun _ => ret tt)
             else ret tt) in
        ret (SettlementFailed info)
      else
        do* try_except
              (record_trades have_activity_log have_append_file symbol
                 (default [] (si_settlement_results info)) 0 converted_trades)
              (fun _ => ret tt) in
        ret registered
  end.

(** Lines 315-468. *)
Definition settle_and_finalize (have_activity_log have_append_file : bool)
    (symbol : string) (ord : order) (od : order_dict)
    (nextBest : option order) (task_id : option Z)
    (validation_details : option checks) : M response :=
  let* info :=
    match od_trades od with
    | [] => ret (unsettled None None)
    | _ => run_settlement od
    end in
  finalize have_activity_log have_append_file symbol ord od nextBest task_id
    validation_details info.

(** [order = _order.copy(); order["order_id"] = 1], lines 188-190. *)
Definition order_of_quote (q : quote) (timestamp : option Z) : order :=
  {| o_order_id := 1; o_account := q_account q; o_price := q_price q;
     o_quantity := q_quantity q; o_side := q_side q;
     o_baseAsset := q_baseAsset q; o_quoteAsset := q_quoteAsset q;
     o_trade_id := q_trade_id q; o_timestamp := timestamp |}.

(** [register_order], lines 60-472. *)
Definition register_order (have_activity_log have_append_file : bool)
    (payload_json : payload) : M response :=
  try_except
    (if pl_attach_signature payload_json then ret SignatureRequest
     else
       let from_net :=
         lower (or_str (pl_from_network payload_json) (pl_fromNetwork payload_json)) in
       let to_net :=
         lower (or_str (pl_to_network payload_json) (pl_toNetwork payload_json)) in
       if truthy from_net && truthy to_net && negb (streq from_net to_net)
       then ret UseCrossEndpoint
       else
         let symbol :=
           pl_baseAsset payload_json +:+ "_" +:+ pl_quoteAsset payload_json in
         (* step 1 *)
         let* validation_result := validate_order_prerequisites payload_json in
         if negb (v_valid validation_result)
         then ret (ValidationFailed (v_errors validation_result)
                     (v_checks validation_result))
         else
           (* step 2 *)
           let _order :=
             {| q_type := default "limit" (pl_type payload_json);
                q_trade_id := pl_account payload_json;
                q_from_network :=
                  or_ (Some from_net)
                      (or_ (pl_from_network payload_json) (pl_fromNetwork payload_json));
                q_to_network :=
                  or_ (Some to_net)
                      (or_ (pl_to_network payload_json) (pl_toNetwork payload_json));
                q_receive_wallet :=
                  or_ (pl_receive_wallet payload_json) (pl_receiveWallet payload_json);
                q_account := pl_account payload_json;
                q_price := pl_price payload_json;
                q_quantity := pl_quantity payload_json;
                q_side := pl_side payload_json;
                q_baseAsset := pl_baseAsset payload_json;
                q_quoteAsset := pl_quoteAsset payload_json |} in
           do* emit (EvProcessOrder symbol _order) in
           let* process_result := call (fun h => process_order W h symbol _order) in
           if negb (pr_success process_result)
           then ret (ProcessFailed (pr_message process_result))
           else
             let ord :=
               match pr_order process_result with
               | Some o => o
               | None => order_of_quote (pr_quote process_result)
                           (pr_quote_timestamp process_result)
               end in
             let* converted_trades := convert_trades (pr_trades process_result) in
             let* timestamp :=
               some_or_raise (o_timestamp ord) (KeyError "timestamp") in
             let od :=
               {| od_orderId := o_order_id ord; od_account := o_account ord;
                  od_price := to_float (o_price ord);
                  od_quantity := to_float (o_quantity ord);
                  od_side := o_side ord; od_baseAsset := o_baseAsset ord;
                  od_quoteAsset := o_quoteAsset ord; od_trade_id := o_trade_id ord;
                  od_trades := converted_trades; od_timestamp := timestamp |} in
             do* try_except
                   (log_activity have_activity_log have_append_file
                      (order_placed symbol (od_orderId od) (od_account od)
                         (od_side od) (od_price od) (od_quantity od)
                         (od_timestamp od)))
                   (fun _ => ret tt) in
             (* step 3 and after *)
             settle_and_finalize have_activity_log have_append_file symbol ord od
               (pr_next_best process_result) (pr_task_id process_result)
               (v_checks validation_result))
    (fun e => ret (HTTPException500 (str_exn e))).


(* ------------------------------------------------------------------ *)
(** ** api_service.py: [APIService.register_order_cross]               *)
(* ------------------------------------------------------------------ *)

(** The request body of [register_order_cross]. *)
Record cross_body : Type := {
  cb_from_network : string;
  cb_to_network : string;
  cb_side : string;
  cb_account : string;
  cb_baseAsset : string;
  cb_quoteAsset : string;
  cb_quantity : Q;
  cb_price : Q;
  cb_type : option string;
  cb_receiveWallet : option string;
}.

(** [supported_networks[net]] and the keys under it: a missing key raises. *)
Definition net_of (net : string) : M net_cfg :=
  some_or_raise (SUPPORTED_NETWORKS cfg !! net) (KeyError net).

Definition net_contract_address (net : string) : M string :=
  let* n := net_of net in
  some_or_raise (cfg_contract_address n) (KeyError "contract_address").

Definition net_rpc (net : string) : M string :=
  let* n := net_of net in
  some_or_raise (cfg_rpc n) (KeyError "rpc").

Definition net_chain_id (net : string) : M Z :=
  let* n := net_of net in
  some_or_raise (cfg_chain_id n) (KeyError "chain_id").

Definition net_token (net asset : string) : M string :=
  let* n := net_of net in
  let* tokens := some_or_raise (cfg_tokens n) (KeyError "tokens") in
  some_or_raise (tokens !! asset) (KeyError asset).

(** [supported_networks[net]["tokens"]["tokens"][asset]], lines 598-603:
    the map under ["tokens"] holds addresses, and an address cannot be
    indexed by an asset name. *)
Definition net_token_tokens (net asset : string) : M string :=
  let* _ := net_token net "tokens" in
  raise (TypeError "string indices must be integers").

(** [SettlementClientCross.__init__], lines 496-505. *)
Definition SettlementClientCross_init (blockchain_rpc : string)
    (private_key : option string) : M cross_client :=
  if negb (truthy blockchain_rpc)
  then raise (TypeError "__init__() should return None, not 'str'")
  else
    do* emit (EvCrossConnect blockchain_rpc) in
    let* connected := ask (fun h => is_connected W h (Some blockchain_rpc)) in
    if negb connected then raise (ConnectionError "Failed to connect")
    else
      match private_key with
      | Some k =>
          let* a := some_or_raise (account_from_key W k)
                      (ValueError "invalid private key") in
          ret {| xc_rpc := blockchain_rpc; xc_account := a; xc_private_key := k |}
      | None => raise (TypeError "private key must be given")
      end.

(** [SettlementClientCross.check_escrow_balance], lines 507-532: [None]
    when anything raised. *)
Definition cross_check_escrow_balance (c : cross_client)
    (settlement_address user_address token_address : string)
  : M (option (Z * Z * Z)) :=
  do* emit (EvCrossCheckEscrowBalance c settlement_address user_address
              token_address) in
  try_except
    (let* s := checksum settlement_address in
     let* u := checksum user_address in
     let* t := checksum token_address in
     let* b := call (fun h => cross_checkEscrowBalance W h (xc_rpc c) s u t) in
     ret (Some b))
    (fun _ => ret None).

(** [SettlementClientCross.settle_cross_chain_trade], lines 534-604. *)
Definition cross_settle_cross_chain_trade (c : cross_client)
    (settlement_address : string) (td : trade_data) (is_source_chain : bool)
  : M cross_receipt :=
  do* emit (EvCrossSettle c settlement_address td is_source_chain) in
  let* _ := checksum settlement_address in
  call (fun h => cross_settleCrossChainTrade W h c settlement_address td
                   is_source_chain).

(** [int(x * Decimal("1e18"))] *)
Definition to_wei (x : Q) : Z := trunc (dec_mul x (inject_Z (10 ^ 18))).

(** The assets of a party, lines 588-631. *)
Definition party1_assets (p : cross_party) : M (string * string) :=
  if streq (xp_side p) "bid"
  then
    let* b := net_token (xp_dest_chain p) (xp_order_baseAsset p) in
    let* q := net_token (xp_source_chain p) (xp_order_quoteAsset p) in
    ret (b, q)
  else
    let* b := net_token_tokens (xp_source_chain p) (xp_order_baseAsset p) in
    let* q := net_token_tokens (xp_dest_chain p) (xp_order_quoteAsset p) in
    ret (b, q).

Definition party2_assets (p : cross_party) : M (string * string) :=
  if streq (xp_side p) "bid"
  then
    let* b := net_token (xp_dest_chain p) (xp_order_baseAsset p) in
    let* q := net_token (xp_source_chain p) (xp_order_quoteAsset p) in
    ret (b, q)
  else
    let* b := net_token (xp_source_chain p) (xp_order_baseAsset p) in
    let* q := net_token (xp_dest_chain p) (xp_order_quoteAsset p) in
    ret (b, q).

(** Lines 576-736 of the loop: the parties in contract order and the
    [trade_data] built for them, with the two chains to settle on. *)
Definition build_trade_data (body : cross_body) (t : cross_trade)
  : M (trade_data * string * string) :=
  let price := cb_price body in
  let base_qty := xt_quantity t in
  let party1 := xt_party1 t in
  let party2 := xt_party2 t in
  let* (party1_base_asset, party1_quote_asset) := party1_assets party1 in
  let* (party2_base_asset, party2_quote_asset) := party2_assets party2 in
  let* (source_party, dest_party, cross_base_asset, cross_quote_asset) :=
    (if streq (xp_side party1) "ask" && streq (xp_side party2) "bid"
     then ret (party1, party2, party1_base_asset, party2_quote_asset)
     else if streq (xp_side party1) "bid" && streq (xp_side party2) "ask"
     then ret (party2, party1, party2_base_asset, party1_quote_asset)
     else raise (Exception "Invalid trade sides - both parties on same side")) in
  let source_chain := xp_source_chain source_party in
  let dest_chain := xp_source_chain dest_party in
  (* lines 703-736 *)
  do* emit EvTokenHex in
  let* trade_id_hash := ask (token_hex_32 W) in
  let order_id_bytes := "0x" +:+ trade_id_hash in
  let* td_p1 := checksum (xp_account source_party) in
  let* td_p2 := checksum (xp_account dest_party) in
  let* td_r1 := checksum (xp_receive_wallet source_party) in
  let* td_r2 := checksum (xp_receive_wallet dest_party) in
  let* td_base := checksum cross_base_asset in
  let* td_quote := checksum cross_quote_asset in
  let* source_id := net_chain_id source_chain in
  let* dest_id := net_chain_id dest_chain in
  let* now := ask (time_now W) in
  ret ({| td_orderId := order_id_bytes;
          td_party1 := td_p1; td_party2 := td_p2;
          td_party1ReceiveWallet := td_r1; td_party2ReceiveWallet := td_r2;
          td_baseAsset := td_base; td_quoteAsset := td_quote;
          td_price := to_wei price;
          td_quantity := to_wei base_qty;
          td_party1Side := "ask"; td_party2Side := "bid";
          td_sourceChainId := source_id; td_destinationChainId := dest_id;
          td_timestamp := now; td_nonce1 := 0; td_nonce2 := 0 |},
       source_chain, dest_chain).

(** Lines 738-772 of the loop: the two settlement calls. *)
Definition submit_cross_trade (td : trade_data) (source_chain dest_chain : string)
  : M (cross_receipt * cross_receipt) :=
  let* source_rpc := net_rpc source_chain in
  let* source_chain_client := SettlementClientCross_init source_rpc (PRIVATE_KEY cfg) in
  let* dest_rpc := net_rpc dest_chain in
  let* dest_chain_client := SettlementClientCross_init dest_rpc (PRIVATE_KEY cfg) in
  let* source_settlement := net_contract_address source_chain in
  let* result_source :=
    cross_settle_cross_chain_trade source_chain_client source_settlement td true in
  let* dest_settlement := net_contract_address dest_chain in
  let* result_dest :=
    cross_settle_cross_chain_trade dest_chain_client dest_settlement td false in
  ret (result_source, result_dest).

(** One iteration of the loop of lines 575-772. *)
Definition settle_cross_trade (body : cross_body) (t : cross_trade)
  : M (cross_receipt * cross_receipt) :=
  let* (td, source_chain, dest_chain) := build_trade_data body t in
  submit_cross_trade td source_chain dest_chain.

Fixpoint settle_cross_trades (body : cross_body) (trades : list cross_trade)
  : M (list (cross_receipt * cross_receipt)) :=
  match trades with
  | [] => ret []
  | t :: rest =>
      let* r := settle_cross_trade body t in
      let* rs := settle_cross_trades body rest in
      ret (r :: rs)
  end.

Inductive cross_response : Type :=
| CrossRegistered (total available locked : Z) (ord : option order)
    (task_id : option Z) (next_best_order : option order)
    (result : list (cross_receipt * cross_receipt))            (* line 775 *)
| CrossRejected (detail : string).                             (* 400, line 788 *)

(** [register_order_cross], lines 474-788. *)
Definition register_order_cross (body : cross_body) : M cross_response :=
  try_except
    (let from_network := cb_from_network body in
     let* chain_settlement_contract_address := net_contract_address from_network in
     let* token_address :=
       net_token from_network
         (if streq (cb_side body) "ask" then cb_baseAsset body
          else cb_quoteAsset body) in
     let* rpc := net_rpc from_network in
     let* c := SettlementClientCross_init rpc (PRIVATE_KEY cfg) in
     let* balance :=
       cross_check_escrow_balance c chain_settlement_contract_address
         (cb_account body) token_address in
     let* (total, available, locked) :=
       some_or_raise balance (TypeError "cannot unpack non-iterable NoneType object") in
     let is_ask := streq (cb_side body) "ask" in
     let amount :=
       if is_ask then to_float (cb_quantity body)
       else fmul (to_float (cb_quantity body)) (to_float (cb_price body)) in
     let side_type := if is_ask then "base" else "quote" in
     let symbol := cb_baseAsset body +:+ "_" +:+ cb_quoteAsset body in
     if ltb (to_float (inject_Z available)) amount
     then raise (Exception ("insufficient " +:+ side_type +:+ " for trade"))
     else
       let* had_hbar_usdt := ask (fun h => order_books_has W h "HBAR_USDT") in
       let _order :=
         {| q_type := default "limit" (cb_type body);
            q_trade_id := cb_account body;
            q_from_network := Some from_network;
            q_to_network := Some (cb_to_network body);
            q_receive_wallet := cb_receiveWallet body;
            q_account := cb_account body;
            q_price := cb_price body; q_quantity := cb_quantity body;
            q_side := cb_side body;
            q_baseAsset := cb_baseAsset body;
            q_quoteAsset := cb_quoteAsset body |} in
       do* emit (EvProcessOrder symbol _order) in
       let* (trades, ord, task_id, next_best_order) :=
         call (fun h => process_order_cross W h symbol _order) in
       (* line 568: [order_books["HBAR_USDT"]] *)
       if negb (had_hbar_usdt || streq symbol "HBAR_USDT")
       then raise (KeyError "HBAR_USDT")
       else
         let* result := settle_cross_trades body trades in
         ret (CrossRegistered total available locked ord task_id
                next_best_order result))
    (fun e => ret (CrossRejected (str_exn e))).

End Program.

Arguments Val {A} a.
Arguments Exc {A} e.

(* ================================================================== *)
(** ** Vocabulary of the statements                                    *)
(* ================================================================== *)

(** What the total read operations deliver at a given history. *)
Definition balance_at (W : World) (c : client) (user token : string) (d : Z)
    (h : history) : balance_info :=
  match result (check_escrow_balance_try W c user token d)
          (h ++ [EvCheckEscrowBalance c user token d]) with
  | Val b => b
  | Exc e => balance_error (str_exn e)
  end.

Definition nonce_at (W : World) (c : client) (user token : string)
    (h : history) : Z :=
  match result (get_user_nonce_try W c user token)
          (h ++ [EvGetUserNonce c user token]) with
  | Val n => n
  | Exc _ => 0%Z
  end.

Definition decimals_at (W : World) (c : client) (token : string)
    (h : history) : Z :=
  match result (get_token_decimals_try W c token)
          (h ++ [EvGetTokenDecimals c token]) with
  | Val n => n
  | Exc _ => 18%Z
  end.

Definition owner_at (W : World) (c : client) (h : history) : string :=
  match owner W (h ++ [EvGetContractOwner c]) (web3_provider c)
          (contract_address c) with
  | Val o => o
  | Exc _ => ""
  end.

(** The available amount a comparison works with. *)
Definition available_at (W : World) (c : client) (user token : string) (d : Z)
    (h : history) : Q :=
  get0 (bi_available (balance_at W c user token d h)).

(** The two comparisons of lines 341-395 for a prepared trade: the calls
    they issue and the available amounts they work with. *)
Definition ask_check (p : prepared) : event :=
  EvCheckEscrowBalance (client_source p) (ask_addr (the_roles p))
    (base_token_src p) 18.

Definition bid_check (p : prepared) : event :=
  EvCheckEscrowBalance (client_dest p) (bid_addr (the_roles p))
    (quote_token_dest p) 18.

Definition ask_available (W : World) (p : prepared) (h : history) : Q :=
  available_at W (client_source p) (ask_addr (the_roles p)) (base_token_src p)
    18 h.

Definition bid_available (W : World) (p : prepared) (h : history) : Q :=
  available_at W (client_dest p) (bid_addr (the_roles p)) (quote_token_dest p)
    18 (h ++ [ask_check p]).

(** Requests and trades whose side, network and asset names are ASCII
    text, and whose amounts are in the range of [float]. *)
Definition plain_payload (pl : payload) : bool :=
  ascii_text (pl_side pl)
  && oascii_text (pl_from_network pl) && oascii_text (pl_fromNetwork pl)
  && oascii_text (pl_to_network pl) && oascii_text (pl_toNetwork pl)
  && ascii_text (pl_baseAsset pl) && ascii_text (pl_quoteAsset pl)
  && amounts_in_range (pl_quantity pl) (pl_price pl).

Definition plain_party (p : party) : bool :=
  ascii_text (p_side p) && oascii_text (p_from_network p).

Definition plain_trade (od : order_dict) (t : trade) : bool :=
  ascii_text (od_baseAsset od) && ascii_text (od_quoteAsset od)
  && plain_party (t_party1 t) && plain_party (t_party2 t)
  && amounts_in_range (t_quantity t) (t_price t).

(** The amounts they require, lines 349 and 377. *)
Definition needed_base (t : trade) : Q := to_float (t_quantity t).

Definition needed_quote (t : trade) : Q :=
  fmul (to_float (t_quantity t)) (to_float (t_price t)).

(** A call that submits a settlement. *)
Definition is_submission (ev : event) : bool :=
  match ev with
  | EvSettleSameChainTrade _ _ | EvSettleCrossChainTrade _ _ _
  | EvCrossSettle _ _ _ _ => true
  | _ => false
  end.

(** A computation all of whose calls satisfy [P], whatever the history. *)
Definition emits {A} (P : event -> Prop) (m : M A) : Prop :=
  forall h, Forall P (calls m h).

(** The calls one iteration of the settlement loop can issue for the trade
    [t] at index [idx] of the order [od]. *)
Inductive trade_event (W : World) (od : order_dict) (idx : nat) (t : trade)
  : event -> Prop :=
| te_connect rpc : trade_event W od idx t (EvConnect rpc)
| te_owner c : trade_event W od idx t (EvGetContractOwner c)
| te_check c user token :
    trade_event W od idx t (EvCheckEscrowBalance c user token 18)
| te_nonce c user token : trade_event W od idx t (EvGetUserNonce c user token)
| te_same c a :
    sa_order_id a = settlement_order_id W (od_orderId od) (t_timestamp t) idx ->
    sa_price a = to_float (t_price t) ->
    sa_quantity a = to_float (t_quantity t) ->
    trade_event W od idx t (EvSettleSameChainTrade c a)
| te_cross c a is_source :
    sa_order_id a = settlement_order_id W (od_orderId od) (t_timestamp t) idx ->
    sa_price a = to_float (t_price t) ->
    sa_quantity a = to_float (t_quantity t) ->
    trade_event W od idx t (EvSettleCrossChainTrade c a is_source).

(** The calls of the loop of lines 228-635, iteration by iteration: [idx]
    and [trades] are what [enumerate] has left to give, and an iteration
    that raises ends the loop. *)
Fixpoint iterations (W : World) (cfg : Config) (cls : client_class)
    (od : order_dict) (idx : nat) (trades : list trade) (h : history)
  : list (list event) :=
  match trades with
  | [] => []
  | t :: rest =>
      let es := calls (settle_trade W cfg cls od idx t) h in
      match result (settle_trade W cfg cls od idx t) h with
      | Val _ => es :: iterations W cfg cls od (S idx) rest (h ++ es)
      | Exc _ => [es]
      end
  end.

(** The calls of a whole settlement: each belongs to one of the trades. *)
Definition settlement_event (W : World) (od : order_dict) (ev : event) : Prop :=
  exists idx t, od_trades od !! idx = Some t /\ trade_event W od idx t ev.

(** Every trade of the order settled. *)
Definition all_settled (info : settlement_info) (od : order_dict) : Prop :=
  si_settled info = true
  /\ exists results,
       si_settlement_results info = Some results
       /\ length results = length (od_trades od)
       /\ Forall (fun e => sr_success (snd e) = true) results.

Definition is_trade_executed_event (ev : event) : bool :=
  match ev with
  | EvActivityLog a | EvAppendFile a => is_trade_executed a
  | _ => false
  end.

Definition is_cancel_event (ev : event) : bool :=
  match ev with EvCancelOrder _ _ _ => true | _ => false end.

(** The event shape of a validation for the account [acct], the token
    [token] and the endpoint [rpc]. *)
Definition validation_event (acct token : string) (rpc : option string)
    (ev : event) : Prop :=
  match ev with
  | EvConnect r => r = rpc
  | EvGetTokenDecimals c tok => tok = token /\ web3_provider c = rpc
  | EvCheckEscrowBalance c user tok _ =>
      user = acct /\ tok = token /\ web3_provider c = rpc
  | _ => False
  end.

Definition is_process_order (ev : event) : bool :=
  match ev with EvProcessOrder _ _ => true | _ => false end.

(** The information [settle_trades_if_any] gives when it reports
    [settled]: one result per trade and the number of successes. *)
Definition well_shaped (od : order_dict) (info : settlement_info) : Prop :=
  si_settled info = true ->
  exists results,
    si_settlement_results info = Some results
    /\ length results = length (od_trades od)
    /\ si_successful_settlements info = Some (successful_count results).

Definition quiet (ev : event) : Prop :=
  is_trade_executed_event ev = false /\ is_cancel_event ev = false.

(** The calls of the rollback: [cancel_order] for an order whose id is
    truthy, nothing otherwise. *)
Definition rollback_calls (symbol : string) (ord : order) : list event :=
  if (o_order_id ord =? 0)%Z then []
  else [EvCancelOrder symbol (o_side ord) (o_order_id ord)].

Definition is_decimals_lookup (ev : event) : bool :=
  match ev with EvGetTokenDecimals _ _ => true | _ => false end.

(** The calls that submit a settlement through [SettlementClientSame]. *)
Definition submitted_args (ev : event) : option settle_args :=
  match ev with
  | EvSettleSameChainTrade _ a | EvSettleCrossChainTrade _ a _ => Some a
  | _ => None
  end.

(* ================================================================== *)
(** ** The matching step, from the specification                       *)
(* ================================================================== *)

(** An order resting in, or arriving at, the book of §3. *)
Record book_order : Type := {
  bo_order_id : Z;
  bo_account : string;
  bo_side : string;
  bo_price : Q;
  bo_remaining : Q;
  bo_from_network : string;
  bo_to_network : string;
  bo_receive_wallet : string;
  bo_baseAsset : string;
  bo_quoteAsset : string;
}.

(** A trade of §3: the execution price, the matched quantity, and the two
    orders as the match leaves them. *)
Record book_trade : Type := {
  bt_price : Q;
  bt_quantity : Q;
  bt_maker : book_order;
  bt_taker : book_order;
}.

Definition with_remaining (o : book_order) (q : Q) : book_order :=
  {| bo_order_id := bo_order_id o; bo_account := bo_account o;
     bo_side := bo_side o; bo_price := bo_price o; bo_remaining := q;
     bo_from_network := bo_from_network o; bo_to_network := bo_to_network o;
     bo_receive_wallet := bo_receive_wallet o;
     bo_baseAsset := bo_baseAsset o; bo_quoteAsset := bo_quoteAsset o |}.

Definition qmin (a b : Q) : Q := if Qle_bool a b then a else b.

(** "bid price >= best ask price, or ask price <= best bid price" *)
Definition crosses (incoming resting : book_order) : bool :=
  if streq (bo_side incoming) "bid"
  then Qle_bool (bo_price resting) (bo_price incoming)
  else Qle_bool (bo_price incoming) (bo_price resting).

(** Modelled from the spec: the matching loop of [OrderBook.process_order]
    (the class [OrderBook] of [src/__init__.py] is not among the sources),
    §4.1: "while the incoming order's remaining quantity is > 0 and the
    opposite side's best level crosses the incoming limit price,
    repeatedly take the head order of that best level: matched quantity =
    min(incoming.remaining, resting.remaining); execution price = the
    resting order's price; decrement both remaining quantities; emit a
    Trade; if the resting order's remaining reaches 0, remove it".
    [opposite] is the opposite side, best first. *)
Fixpoint match_order (incoming : book_order) (opposite : list book_order)
  : list book_trade * book_order * list book_order :=
  match opposite with
  | [] => ([], incoming, [])
  | resting :: rest =>
      if negb (ltb 0 (bo_remaining incoming)) then ([], incoming, opposite)
      else if negb (crosses incoming resting) then ([], incoming, opposite)
      else
        let matched := qmin (bo_remaining incoming) (bo_remaining resting) in
        let incoming' :=
          with_remaining incoming (bo_remaining incoming - matched) in
        let resting' :=
          with_remaining resting (bo_remaining resting - matched) in
        let tr := {| bt_price := bo_price resting; bt_quantity := matched;
                     bt_maker := resting'; bt_taker := incoming' |} in
        if Qeq_bool (bo_remaining resting') 0
        then let '(trades, incoming'', rest') := match_order incoming' rest in
             (tr :: trades, incoming'', rest')
        else ([tr], incoming', resting' :: rest)
  end.

(** Modelled from the spec: the party record of a trade (§3: "account,
    side, order id, remaining quantity after this match, source network,
    destination network, receive wallet"), read at the indices
    [register_order_cross] uses; the maker is listed first. *)
Definition cross_party_of (o : book_order) : cross_party :=
  {| xp_account := bo_account o; xp_side := bo_side o;
     xp_source_chain := bo_from_network o; xp_dest_chain := bo_to_network o;
     xp_receive_wallet := bo_receive_wallet o;
     xp_order_baseAsset := bo_baseAsset o;
     xp_order_quoteAsset := bo_quoteAsset o |}.

Definition cross_trade_of (t : book_trade) : cross_trade :=
  {| xt_price := bt_price t; xt_quantity := bt_quantity t;
     xt_party1 := cross_party_of (bt_maker t);
     xt_party2 := cross_party_of (bt_taker t) |}.

(* ================================================================== *)
(** ** Sample inputs                                                   *)
(* ================================================================== *)

Definition engine_address : string := "0x237458E2cF7593084Ae397a50166A275A3928bA7".
Definition alice : string := "0xA11CE00000000000000000000000000000000001".
Definition bob : string := "0xB0B0000000000000000000000000000000000002".

(** Two entries of [SUPPORTED_NETWORKS] with the defaults of app.py. *)
Definition sample_networks : gmap string net_cfg :=
  <["hedera" :=
      {| cfg_rpc := Some "https://testnet.hashio.io/api";
         cfg_chain_id := Some 296%Z;
         cfg_contract_address := Some engine_address;
         cfg_tokens :=
           Some (<["HBAR" := "0x66B8244b08be8F4Cec1A23C5c57A1d7b8A27189D"]>
                 (<["USDT" := "0x62bcF51859E23cc47ddc6C3144B045619476Be92"]> ∅)) |}]>
  (<["ethereum" :=
      {| cfg_rpc := Some "https://ethereum-sepolia-rpc.publicnode.com";
         cfg_chain_id := Some 11155111%Z;
         cfg_contract_address := Some "0x10F0F2cb456BEd15655afB22ddd7d0EEE11FdBc9";
         cfg_tokens :=
           Some (<["USDT" := "0x7169D38820dfd117C3FA1f22a697dBA58d90BA06"]>
                 (<["HBAR" := "0xb458260166d1456A5ffB46eBbC4270738A515286"]> ∅)) |}]> ∅).

Definition sample_cfg : Config :=
  {| SUPPORTED_NETWORKS := sample_networks;
     TOKEN_ADDRESSES := None;
     TRADE_SETTLEMENT_CONTRACT_ADDRESS := Some engine_address;
     PRIVATE_KEY := Some "engine-key" |}.

(** A world in which every endpoint is reachable, every well-formed
    address is accepted, every escrow holds [raw_balance], the decimals
    lookup answers [decimals_answer], [wait_for] has the budget [budget],
    the source leg of [SettlementClientCross] is mined with status
    [source_status], the random source yields [token], and the order book
    answers a cross-chain order with [cross_trades].  The stand-in for
    SHA-256 is the identity. *)
Definition sample_world (raw_balance : Z) (decimals_answer : res Z)
    (budget : option nat) (source_status : Z) (token : string)
    (cross_trades : list cross_trade) : World :=
  {| is_connected := fun _ _ => true;
     to_checksum_address := fun a => if token_configured a then Some a else None;
     account_from_key := fun _ => Some engine_address;
     eth_chain_id := fun _ _ => Val 296%Z;
     checkEscrowBalance := fun _ _ _ _ _ => Val (raw_balance, raw_balance, 0%Z);
     decimals := fun _ _ _ => decimals_answer;
     getUserNonce := fun _ _ _ _ _ => Val 0%Z;
     owner := fun _ _ _ => Val engine_address;
     settleSameChainTrade :=
       fun _ _ _ => inr {| rc_status := 1; rc_transactionHash := "0xfeed" |};
     cross_checkEscrowBalance :=
       fun _ _ _ _ _ => Val (raw_balance, raw_balance, 0%Z);
     cross_settleCrossChainTrade :=
       fun _ _ _ _ is_source =>
         Val {| xr_transactionHash := if is_source then "0x5041" else "0xde57";
                xr_status := if is_source then source_status else 1%Z |};
     sha256_hexdigest := fun s => s;
     token_hex_32 := fun _ => token;
     time_now := fun _ => 1700000000%Z;
     getenv_SETTLEMENT_SYNC_TIMEOUT := Val 20%Z;
     wait_for_budget := fun _ => budget;
     order_books_has := fun _ _ => true;
     process_order :=
       fun _ _ q =>
         Val {| pr_success := true; pr_message := ""; pr_trades := [];
                pr_order := None; pr_task_id := None; pr_next_best := None;
                pr_quote := q; pr_quote_timestamp := Some 1700000000%Z |};
     process_order_cross := fun _ _ _ => Val (cross_trades, None, None, None);
     cancel_order := fun _ _ _ _ => Val tt;
     append_file := fun _ _ => Val tt |}.

(** A same-chain trade on Hedera: Alice sells 3 HBAR to Bob at 10. *)
Definition sample_party (addr side : string) : party :=
  {| p_len := 8; p_addr := addr; p_side := side; p_order_id := Some 1%Z;
     p_quantity := Some 0%Q; p_from_network := Some "hedera";
     p_to_network := Some "hedera"; p_receive_wallet := Some addr |}.

Definition sample_trade : trade :=
  {| t_timestamp := 1700000000; t_price := 10; t_quantity := 3;
     t_time := 1700000000;
     t_party1 := sample_party alice "ask"; t_party2 := sample_party bob "bid" |}.

Definition sample_order (order_id : Z) : order :=
  {| o_order_id := order_id; o_account := bob; o_price := 10; o_quantity := 3;
     o_side := "bid"; o_baseAsset := "HBAR"; o_quoteAsset := "USDT";
     o_trade_id := bob; o_timestamp := Some 1700000000%Z |}.

Definition sample_order_dict (order_id : Z) : order_dict :=
  {| od_orderId := order_id; od_account := bob; od_price := 10; od_quantity := 3;
     od_side := "bid"; od_baseAsset := "HBAR"; od_quoteAsset := "USDT";
     od_trade_id := bob; od_trades := [sample_trade];
     od_timestamp := 1700000000 |}.

(** A bid for 3 HBAR at 10 USDT, escrowed on Hedera. *)
Definition sample_payload : payload :=
  {| pl_attach_signature := false; pl_account := bob; pl_side := "bid";
     pl_quantity := 3; pl_price := 10;
     pl_from_network := Some "hedera"; pl_fromNetwork := None;
     pl_to_network := Some "hedera"; pl_toNetwork := None;
     pl_baseAsset := "HBAR"; pl_quoteAsset := "USDT";
     pl_type := None; pl_receive_wallet := None; pl_receiveWallet := None |}.

(** A cross-chain book: Bob's bid for 5 HBAR at 12 rests (USDT escrowed on
    Ethereum, HBAR wanted on Hedera); Alice's ask of 5 HBAR at 10 arrives
    (HBAR escrowed on Hedera, USDT wanted on Ethereum). *)
Definition resting_bid : book_order :=
  {| bo_order_id := 1; bo_account := bob; bo_side := "bid"; bo_price := 12;
     bo_remaining := 5; bo_from_network := "ethereum";
     bo_to_network := "hedera"; bo_receive_wallet := bob;
     bo_baseAsset := "HBAR"; bo_quoteAsset := "USDT" |}.

Definition incoming_ask : book_order :=
  {| bo_order_id := 2; bo_account := alice; bo_side := "ask"; bo_price := 10;
     bo_remaining := 5; bo_from_network := "hedera";
     bo_to_network := "ethereum"; bo_receive_wallet := alice;
     bo_baseAsset := "HBAR"; bo_quoteAsset := "USDT" |}.

Definition sample_cross_trades : list cross_trade :=
  map cross_trade_of (fst (fst (match_order incoming_ask [resting_bid]))).

Definition sample_cross_body : cross_body :=
  {| cb_from_network := "hedera"; cb_to_network := "ethereum";
     cb_side := "ask"; cb_account := alice;
     cb_baseAsset := "HBAR"; cb_quoteAsset := "USDT";
     cb_quantity := 5; cb_price := 10;
     cb_type := None; cb_receiveWallet := Some alice |}.

(** The trade data of the submissions among a list of calls. *)
Definition cross_submissions (es : list event) : list (trade_data * bool) :=
  omap (fun ev => match ev with
                  | EvCrossSettle _ _ td is_source => Some (td, is_source)
                  | _ => None
                  end) es.

(** The payload of the sample bid when USDT is the asset checked, and a
    cross-chain trade as [settle_trades_if_any] reads it: Alice's HBAR
    on Hedera against Bob's USDT on Ethereum. *)
Definition cross_chain_trade : trade :=
  {| t_timestamp := 1700000000; t_price := 10; t_quantity := 3;
     t_time := 1700000000;
     t_party1 := sample_party alice "ask";
     t_party2 :=
       {| p_len := 8; p_addr := bob; p_side := "bid"; p_order_id := Some 1%Z;
          p_quantity := Some 0%Q; p_from_network := Some "ethereum";
          p_to_network := Some "hedera"; p_receive_wallet := Some bob |} |}.

Definition cross_chain_order_dict : order_dict :=
  {| od_orderId := 7; od_account := bob; od_price := 10; od_quantity := 3;
     od_side := "bid"; od_baseAsset := "HBAR"; od_quoteAsset := "USDT";
     od_trade_id := bob; od_trades := [cross_chain_trade];
     od_timestamp := 1700000000 |}.

Definition no_such_method : string :=
  "'SettlementClientSame' object has no attribute 'settle_cross_chain_trade'".

(** A world in which no escrow holds anything, with the given budget for
    [wait_for]. *)
Definition empty_escrow_world (budget : option nat) : World :=
  sample_world 0 (Val 18%Z) budget 1 "aa" [].

(* ================================================================== *)
(** ** Further vocabulary                                              *)
(* ================================================================== *)

(** The trade with its two parties exchanged. *)
Definition swap_parties (t : trade) : trade :=
  {| t_timestamp := t_timestamp t; t_price := t_price t;
     t_quantity := t_quantity t; t_time := t_time t;
     t_party1 := t_party2 t; t_party2 := t_party1 t |}.

(** The configuration without the entry [key] of the token map of the
    network [net]. *)
Definition drop_token (cfg : Config) (net key : string) : Config :=
  {| SUPPORTED_NETWORKS :=
       alter (fun n => {| cfg_rpc := cfg_rpc n; cfg_chain_id := cfg_chain_id n;
                          cfg_contract_address := cfg_contract_address n;
                          cfg_tokens := delete key <$> cfg_tokens n |})
             net (SUPPORTED_NETWORKS cfg);
     TOKEN_ADDRESSES := TOKEN_ADDRESSES cfg;
     TRADE_SETTLEMENT_CONTRACT_ADDRESS := TRADE_SETTLEMENT_CONTRACT_ADDRESS cfg;
     PRIVATE_KEY := PRIVATE_KEY cfg |}.

(* ------------------------------------------------------------------ *)
(** ** api_service.py: [APIService.settle_trades]                      *)
(* ------------------------------------------------------------------ *)

Section SettleTrades.

Variable W : World.
Variable cfg : Config.
Variable cls : client_class.

(** Lines 1021-1031: the route taken, [True] for the cross-chain wrapper. *)
Definition use_cross (od : order_dict) : M bool :=
  try_except
    (match od_trades od with
     | [] => raise (IndexError "list index out of range")
     | t0 :: _ =>
         let* p1_from := party_from (t_party1 t0) in
         let* p2_from := party_from (t_party2 t0) in
         match p1_from, p2_from with
         | Some p1, Some p2 =>
             if truthy p1 && truthy p2
             then ret (negb (bool_decide (chain_id_of cfg p1 = chain_id_of cfg p2)))
             else ret true
         | _, _ => ret true
         end
     end)
    (fun _ => ret true).

(** Lines 1019-1048 of [settle_trades]: the settlement information it
    answers with, for the order dict of line 1017. *)
Definition settle_trades_info (order_dict : order_dict) : M settlement_info :=
  let* cross := use_cross order_dict in
  if cross
  then settle_trades_if_any_cross W cfg cls order_dict
  else settle_trades_if_any_same W cfg cls order_dict.

End SettleTrades.

(** The record a call appends to [activity_log]. *)
Definition logged (ev : event) : option activity :=
  match ev with EvActivityLog a => Some a | _ => None end.

(** Price, quantity and timestamp of a [trade_executed] record appended to
    [activity_log]. *)
Definition executed_trade (ev : event) : option (Q * Q * Z) :=
  match ev with
  | EvActivityLog (trade_executed _ price quantity timestamp _ _ _) =>
      Some (price, quantity, timestamp)
  | _ => None
  end.

(** The calls of [activity_log.append(a)] and [append_file(a)], each when
    given. *)
Definition placement_events (have_activity_log have_append_file : bool)
    (a : activity) : list event :=
  (if have_activity_log then [EvActivityLog a] else [])
  ++ (if have_append_file then [EvAppendFile a] else []).

(** The symbol, the dict [_order] and the order of [register_order], lines
    123, 154-175 and 186-190, and [order_dict], lines 266-278. *)
Definition symbol_of (payload_json : payload) : string :=
  pl_baseAsset payload_json +:+ "_" +:+ pl_quoteAsset payload_json.

Definition quote_of_payload (payload_json : payload) : quote :=
  let from_net :=
    lower (or_str (pl_from_network payload_json) (pl_fromNetwork payload_json)) in
  let to_net :=
    lower (or_str (pl_to_network payload_json) (pl_toNetwork payload_json)) in
  {| q_type := default "limit" (pl_type payload_json);
     q_trade_id := pl_account payload_json;
     q_from_network :=
       or_ (Some from_net)
           (or_ (pl_from_network payload_json) (pl_fromNetwork payload_json));
     q_to_network :=
       or_ (Some to_net)
           (or_ (pl_to_network payload_json) (pl_toNetwork payload_json));
     q_receive_wallet :=
       or_ (pl_receive_wallet payload_json) (pl_receiveWallet payload_json);
     q_account := pl_account payload_json;
     q_price := pl_price payload_json;
     q_quantity := pl_quantity payload_json;
     q_side := pl_side payload_json;
     q_baseAsset := pl_baseAsset payload_json;
     q_quoteAsset := pl_quoteAsset payload_json |}.

Definition order_of_result (process_result : process_result) : order :=
  match pr_order process_result with
  | Some o => o
  | None => order_of_quote (pr_quote process_result)
              (pr_quote_timestamp process_result)
  end.

Definition order_dict_of (ord : order) (converted_trades : list trade)
    (timestamp : Z) : order_dict :=
  {| od_orderId := o_order_id ord; od_account := o_account ord;
     od_price := to_float (o_price ord);
     od_quantity := to_float (o_quantity ord);
     od_side := o_side ord; od_baseAsset := o_baseAsset ord;
     od_quoteAsset := o_quoteAsset ord; od_trade_id := o_trade_id ord;
     od_trades := converted_trades; od_timestamp := timestamp |}.

Definition placement_of (symbol : string) (od : order_dict) : activity :=
  order_placed symbol (od_orderId od) (od_account od) (od_side od)
    (od_price od) (od_quantity od) (od_timestamp od).

(** A response given after the settlement step. *)
Definition after_settlement (r : response) : bool :=
  match r with
  | SettlementFailed _ | Registered _ _ _ _ _ => true
  | _ => false
  end.

(** The calls [register_order_cross] can issue. *)
Definition cross_registration_event (ev : event) : Prop :=
  match ev with
  | EvCrossConnect _ | EvCrossCheckEscrowBalance _ _ _ _ | EvProcessOrder _ _
  | EvTokenHex | EvCrossSettle _ _ _ _ => True
  | _ => False
  end.

(** Submissions that come as a source leg followed by the destination leg
    of the same trade data; the last source leg may stand alone. *)
Fixpoint paired (l : list (trade_data * bool)) : Prop :=
  match l with
  | [] => True
  | (td, true) :: l' =>
      match l' with
      | [] => True
      | (td', false) :: l'' => td' = td /\ paired l''
      | _ => False
      end
  | _ => False
  end.

(** The amount [register_order_cross] requires, lines 527-536. *)
Definition cross_amount (body : cross_body) : Q :=
  if streq (cb_side body) "ask" then to_float (cb_quantity body)
  else fmul (to_float (cb_quantity body)) (to_float (cb_price body)).

(** The escrow reads of [SettlementClientSame]. *)
Definition is_balance_read (ev : event) : bool :=
  match ev with EvCheckEscrowBalance _ _ _ _ => true | _ => false end.

(* ================================================================== *)
(** ** cross_chain_market_maker.py: [CrossChainMarketMaker]            *)
(* ================================================================== *)

Inductive NetworkType : Type := HEDERA | ETHEREUM.

(** [CrossChainOrder], lines 41-55. *)
Record CrossChainOrder : Type := {
  cco_order_id : string;
  cco_account : string;
  cco_side : string;
  cco_base_asset : string;
  cco_quote_asset : string;
  cco_price : Q;
  cco_quantity : Q;
  cco_from_network : string;
  cco_to_network : string;
  cco_receive_wallet : string;
  cco_timestamp : Z;
  cco_network : NetworkType;
}.

(** [CrossChainMatch], lines 57-64. *)
Record CrossChainMatch : Type := {
  ccm_source_order : CrossChainOrder;
  ccm_dest_order : CrossChainOrder;
  ccm_trade_id : string;
  ccm_matched_quantity : Q;
  ccm_matched_price : Q;
}.

(** An order as the order-book API lists it: each key may be absent. *)
Record raw_order : Type := {
  ro_from_network : option string;
  ro_to_network : option string;
  ro_orderId : option string;
  ro_order_id : option string;
  ro_account : option string;
  ro_side : option string;
  ro_baseAsset : option string;
  ro_quoteAsset : option string;
  ro_price : option Q;
  ro_quantity : option Q;
  ro_receiveWallet : option string;
  ro_receive_wallet : option string;
  ro_timestamp : option Z;
}.

(** [matching_tolerance] and [min_trade_amount], lines 96-97. *)
Definition matching_tolerance : Q := 5 # 1000.
Definition min_trade_amount : Q := 1.

(** [is_cross_chain_order], lines 138-142, as the truth value of what it
    returns. *)
Definition is_cross_chain_order (order : raw_order) : bool :=
  let from_network := lower (default "" (ro_from_network order)) in
  let to_network := lower (default "" (ro_to_network order)) in
  negb (streq from_network to_network) && truthy from_network
  && truthy to_network.

(** [network_map.get(...)], lines 154-160. *)
Definition network_map (name : string) : option NetworkType :=
  if streq name "hedera" then Some HEDERA
  else if streq name "ethereum" then Some ETHEREUM
  else None.

(** [parse_cross_chain_order], lines 144-181; [now] is [time.time()]. *)
Definition parse_cross_chain_order (now : Z) (order : raw_order)
  : option CrossChainOrder :=
  if negb (is_cross_chain_order order) then None
  else
    let from_network := lower (default "" (ro_from_network order)) in
    let to_network := lower (default "" (ro_to_network order)) in
    match network_map from_network, network_map to_network with
    | Some from_net, Some _ =>
        Some {| cco_order_id :=
                  default (default "" (ro_order_id order)) (ro_orderId order);
                cco_account := default "" (ro_account order);
                cco_side := default "" (ro_side order);
                cco_base_asset := default "" (ro_baseAsset order);
                cco_quote_asset := default "" (ro_quoteAsset order);
                cco_price := default 0%Q (ro_price order);
                cco_quantity := default 0%Q (ro_quantity order);
                cco_from_network := from_network;
                cco_to_network := to_network;
                cco_receive_wallet :=
                  default (default "" (ro_receive_wallet order))
                          (ro_receiveWallet order);
                cco_timestamp := default now (ro_timestamp order);
                cco_network := from_net |}
    | _, _ => None
    end.

(** [_check_order_compatibility], lines 195-237; [now] is
    [int(time.time())]. *)
Definition _check_order_compatibility (now : Z)
    (order1 order2 : CrossChainOrder) : option CrossChainMatch :=
  if streq (cco_side order1) (cco_side order2) then None
  else if negb (streq (cco_base_asset order1) (cco_base_asset order2)
                && streq (cco_quote_asset order1) (cco_quote_asset order2))
  then None
  else if negb (streq (cco_to_network order1) (cco_from_network order2)
                && streq (cco_from_network order1) (cco_to_network order2))
  then None
  else
    let priced :=
      if streq (cco_side order1) "bid" && streq (cco_side order2) "ask"
      then
        if ltb (cco_price order1)
               (dec_mul (cco_price order2) (dec_sub 1 matching_tolerance))
        then None else Some (cco_price order2)
      else if streq (cco_side order1) "ask" && streq (cco_side order2) "bid"
      then
        if ltb (cco_price order2)
               (dec_mul (cco_price order1) (dec_sub 1 matching_tolerance))
        then None else Some (cco_price order1)
      else None in
    match priced with
    | None => None
    | Some matched_price =>
        let matched_quantity :=
          qmin (cco_quantity order1) (cco_quantity order2) in
        if ltb matched_quantity min_trade_amount then None
        else
          Some {| ccm_source_order :=
                    if streq (cco_side order1) "ask" then order1 else order2;
                  ccm_dest_order :=
                    if streq (cco_side order1) "ask" then order2 else order1;
                  ccm_trade_id :=
                    "cross_" +:+ cco_order_id order1 +:+ "_"
                    +:+ cco_order_id order2 +:+ "_" +:+ str_int now;
                  ccm_matched_quantity := matched_quantity;
                  ccm_matched_price := matched_price |}
    end.

(** [find_matching_orders], lines 183-193: every pair [i < j], in the
    order of the two loops; [clock o1 o2] is the time read when the pair
    is checked. *)
Fixpoint find_matching_orders (clock : CrossChainOrder -> CrossChainOrder -> Z)
    (orders : list CrossChainOrder) : list CrossChainMatch :=
  match orders with
  | [] => []
  | order1 :: rest =>
      omap (fun order2 =>
              _check_order_compatibility (clock order1 order2) order1 order2)
           rest
      ++ find_matching_orders clock rest
  end.

(** One entry of [self.supported_networks], lines 69-80. *)
Record maker_network : Type := {
  mn_rpc : string;
  mn_chain_id : Z;
  mn_settlement : string;
}.

(** [_prepare_trade_data], lines 279-298; [now] is [int(time.time())]. *)
Definition _prepare_trade_data (supported_networks : NetworkType -> maker_network)
    (now : Z) (m : CrossChainMatch) : trade_data :=
  {| td_orderId := "0x" +:+ ccm_trade_id m;
     td_party1 := cco_account (ccm_source_order m);
     td_party2 := cco_account (ccm_dest_order m);
     td_party1ReceiveWallet := cco_receive_wallet (ccm_source_order m);
     td_party2ReceiveWallet := cco_receive_wallet (ccm_dest_order m);
     td_baseAsset := cco_base_asset (ccm_source_order m);
     td_quoteAsset := cco_quote_asset (ccm_dest_order m);
     td_price := to_wei (ccm_matched_price m);
     td_quantity := to_wei (ccm_matched_quantity m);
     td_party1Side := cco_side (ccm_source_order m);
     td_party2Side := cco_side (ccm_dest_order m);
     td_sourceChainId :=
       mn_chain_id (supported_networks (cco_network (ccm_source_order m)));
     td_destinationChainId :=
       mn_chain_id (supported_networks (cco_network (ccm_dest_order m)));
     td_timestamp := now; td_nonce1 := 0; td_nonce2 := 0 |}.

(** The method [_settle_on_chain] calls on its client,
    [client.settle_cross_chain_trade(trade_data, is_source)], awaited: what
    the class of the client defines under that name, if anything; the
    answer is the ["success"] entry of the dict, when it has one. *)
Record maker_client_class : Type := {
  mcls_settle_cross_chain_trade :
    option (history -> client -> trade_data -> bool -> res (option bool));
}.

(** The clients of the maker are instances of [SettlementClientSame]
    (line 104), and lines 66-491 of trade_settlement_client.py define no
    [settle_cross_chain_trade]. *)
Definition SettlementClientSame_of_maker : maker_client_class :=
  {| mcls_settle_cross_chain_trade := None |}.

(** [_settle_on_chain], lines 300-309. *)
Definition _settle_on_chain (mcls : maker_client_class) (c : client)
    (td : trade_data) (is_source : bool) : M bool :=
  try_except
    (match mcls_settle_cross_chain_trade mcls with
     | None => raise (AttributeError no_such_method)
     | Some method =>
         let* result := call (fun h => method h c td is_source) in
         ret (default false result)
     end)
    (fun _ => ret false).

(** [execute_cross_chain_trade], lines 239-277. *)
Definition execute_cross_chain_trade (mcls : maker_client_class)
    (settlement_clients : NetworkType -> option client)
    (supported_networks : NetworkType -> maker_network)
    (now : Z) (m : CrossChainMatch) : M bool :=
  try_except
    (let trade_data := _prepare_trade_data supported_networks now m in
     match settlement_clients (cco_network (ccm_source_order m)) with
     | None => ret false
     | Some source_client =>
         match settlement_clients (cco_network (ccm_dest_order m)) with
         | None => ret false
         | Some dest_client =>
             let* source_success :=
               _settle_on_chain mcls source_client trade_data true in
             let* dest_success :=
               _settle_on_chain mcls dest_client trade_data false in
             if source_success && dest_success then ret true else ret false
         end
     end)
    (fun _ => ret false).

(* ------------------------------------------------------------------ *)
(** ** api_service.py: [APIService.get_trades]                         *)
(* ------------------------------------------------------------------ *)

(** An entry of [order_book.tape], read with [.get]: each key may be
    absent. *)
Record tape_entry : Type := {
  te_timestamp : option Z;
  te_time : option Z;
  te_price : option Q;
  te_quantity : option Q;
}.

(** An entry of the answer, lines 967-972. *)
Record trade_view : Type := {
  tv_timestamp : Z;
  tv_time : Z;
  tv_price : Q;
  tv_quantity : Q;
}.

Definition view_of (trade : tape_entry) : trade_view :=
  {| tv_timestamp := default 0%Z (te_timestamp trade);
     tv_time := default 0%Z (te_time trade);
     tv_price := default 0%Q (te_price trade);
     tv_quantity := default 0%Q (te_quantity trade) |}.

(** [list.sort(key=lambda t: t.get("time", ...))], line 977: a stable sort
    by ["time"], a key every entry of the answer has; here by insertion,
    each entry going in front of the later entries of the same time. *)
Fixpoint insert_by_time (x : trade_view) (l : list trade_view)
  : list trade_view :=
  match l with
  | [] => [x]
  | y :: l' =>
      if (tv_time x <=? tv_time y)%Z then x :: l
      else y :: insert_by_time x l'
  end.

Definition sort_by_time (l : list trade_view) : list trade_view :=
  foldr insert_by_time [] l.

(** [l[-n:]] for [n > 0]. *)
Definition last_n {A} (n : nat) (l : list A) : list A :=
  skipn (length l - n) l.

(** Lines 966-979 of [get_trades]: the list answered for a tape and a
    limit. *)
Definition trades_list (tape : list tape_entry) (limit : Z) : list trade_view :=
  let sorted := sort_by_time (map view_of tape) in
  if (0 <? limit)%Z then last_n (Z.to_nat limit) sorted else sorted.

(** The order of the answer. *)
Definition by_time (a b : trade_view) : Prop := (tv_time a <= tv_time b)%Z.

(* ------------------------------------------------------------------ *)
(** ** api_service.py: [APIService.check_available_funds]              *)
(* ------------------------------------------------------------------ *)

(** An order resting in a book, as lines 1092-1103 read it. *)
Record resting_order : Type := {
  rs_account : string;
  rs_price : Q;
  rs_quantity : Q;
}.

(** The values of [bids.order_map] and of [asks.order_map], in the order
    of iteration. *)
Record book_maps : Type := {
  bm_bids : list resting_order;
  bm_asks : list resting_order;
}.

(** [s.split(sep)] for a separator of one character. *)
Fixpoint split_on (sep : ascii) (s : string) : list string :=
  match s with
  | EmptyString => [EmptyString]
  | String a r =>
      match split_on sep r with
      | [] => [EmptyString]
      | p :: ps =>
          if Ascii.eqb a sep then EmptyString :: p :: ps
          else String a p :: ps
      end
  end.

(** [base_asset, quote_asset = symbol.split("_")], line 1088. *)
Definition split_symbol (symbol : string) : M (string * string) :=
  match split_on "_"%char symbol with
  | [base_asset; quote_asset] => ret (base_asset, quote_asset)
  | [_] => raise (ValueError "not enough values to unpack (expected 2, got 1)")
  | _ => raise (ValueError "too many values to unpack (expected 2)")
  end.

(** Lines 1091-1096 and 1099-1103. *)
Definition locked_in_bids (account : string) (bids : list resting_order)
    (total_locked_amount : Q) : Q :=
  fold_left
    (fun total order =>
       if streq (lower (rs_account order)) (lower account)
       then (total + rs_price order * rs_quantity order)%Q else total)
    bids total_locked_amount.

Definition locked_in_asks (account : string) (asks : list resting_order)
    (total_locked_amount : Q) : Q :=
  fold_left
    (fun total order =>
       if streq (lower (rs_account order)) (lower account)
       then (total + rs_quantity order)%Q else total)
    asks total_locked_amount.

(** The loop of lines 1086-1103 over [order_books.items()]. *)
Fixpoint total_locked (order_books : list (string * book_maps))
    (account asset : string) (total_locked_amount : Q) : M Q :=
  match order_books with
  | [] => ret total_locked_amount
  | (symbol, order_book) :: rest =>
      let* (base_asset, quote_asset) := split_symbol symbol in
      let total_locked_amount :=
        if streq quote_asset asset
        then locked_in_bids account (bm_bids order_book) total_locked_amount
        else total_locked_amount in
      let total_locked_amount :=
        if streq base_asset asset
        then locked_in_asks account (bm_asks order_book) total_locked_amount
        else total_locked_amount in
      total_locked rest account asset total_locked_amount
  end.

Inductive funds_response : Type :=
| FundsChecked (account asset : string) (lockedAmount : Q)     (* line 1105 *)
| FundsFailed (detail : string).                               (* 500, line 1115 *)

(** [check_available_funds], lines 1076-1115, for a payload that holds
    ["account"] and ["asset"]. *)
Definition check_available_funds (order_books : list (string * book_maps))
    (account asset : string) : M funds_response :=
  try_except
    (let* total_locked_amount := total_locked order_books account asset 0 in
     ret (FundsChecked account asset total_locked_amount))
    (fun e => ret (FundsFailed (str_exn e))).

(* ------------------------------------------------------------------ *)
(** ** app.py: [faucet]                                                *)
(* ------------------------------------------------------------------ *)

(** The payload of [faucet]: each key may be absent. *)
Record faucet_payload : Type := {
  fp_to : option string;
  fp_asset : option string;
  fp_network : option string;
  fp_amount : option Q;
}.

(** What the class of the client defines under the name [mint_token]; a
    call answers with the ["success"] entry of a dict, or raises. *)
Record faucet_client_class : Type := {
  fcls_mint_token :
    option (history -> client -> string -> string -> Q -> Z -> res (option bool));
}.

(** Lines 66-491 of trade_settlement_client.py define no [mint_token]. *)
Definition SettlementClientSame_of_faucet : faucet_client_class :=
  {| fcls_mint_token := None |}.

Inductive faucet_response : Type :=
| FaucetRefused (message : string)             (* status_code 0 *)
| FaucetResult (status_code : Z).              (* line 468 *)

Section Faucet.

Variable W : World.
Variable cfg : Config.
Variable fcls : faucet_client_class.

(** [client.mint_token(token_addr, to, amount, token_decimals=decimals)] *)
Definition mint_token (c : client) (token_addr to : string) (amount : Q)
    (token_decimals : Z) : M (option bool) :=
  match fcls_mint_token fcls with
  | None =>
      raise (AttributeError
        "'SettlementClientSame' object has no attribute 'mint_token'")
  | Some method =>
      call (fun h => method h c token_addr to amount token_decimals)
  end.

(** [faucet], lines 447-470. *)
Definition faucet (payload : faucet_payload) : M faucet_response :=
  try_except
    (let to := fp_to payload in
     let asset := upper (default "HBAR" (or_ (fp_asset payload) None)) in
     let network := lower (default "hedera" (or_ (fp_network payload) None)) in
     let amount :=
       match fp_amount payload with
       | Some a => if Qeq_bool a 0 then 100%Q else a
       | None => 100%Q
       end in
     match to with
     | None => ret (FaucetRefused "missing 'to'")
     | Some to =>
       if negb (truthy to) then ret (FaucetRefused "missing 'to'")
       else
         match network_cfg cfg (Some network) with
         | None => ret (FaucetRefused ("unknown network " +:+ network))
         | Some net =>
             let token_addr := default ∅ (cfg_tokens net) !! asset in
             if negb (otruthy token_addr)
             then ret (FaucetRefused
                         ("token not configured for " +:+ asset +:+ " on "
                          +:+ network))
             else
               let* c := SettlementClientSame_init W (cfg_rpc net)
                           (cfg_contract_address net) (PRIVATE_KEY cfg) in
               let decimals := if streq asset "HBAR" then 18%Z else 6%Z in
               let* res := mint_token c (default "" token_addr) to amount
                             decimals in
               ret (FaucetResult (if default false res then 1 else 0))
         end
     end)
    (fun e => ret (FaucetRefused (str_exn e))).

End Faucet.

(** The status code of an answer of [faucet]. *)
Definition faucet_status (r : faucet_response) : Z :=
  match r with FaucetRefused _ => 0 | FaucetResult s => s end.

(* ================================================================== *)
(** ** Further sample inputs                                           *)
(* ================================================================== *)

(** The configuration of the samples with the entries ["xZAR"] and
    ["cNGN"] that app.py has in the token map of Ethereum (lines 115-116). *)
Definition xzar_address : string := "0x48f07301e9e29c3c38a80ae8d9ae771f224f1054".

Definition xzar_cfg : Config :=
  {| SUPPORTED_NETWORKS :=
       alter (fun n =>
                {| cfg_rpc := cfg_rpc n; cfg_chain_id := cfg_chain_id n;
                   cfg_contract_address := cfg_contract_address n;
                   cfg_tokens :=
                     (fun toks =>
                        <["xZAR" := xzar_address]>
                        (<["cNGN" := "0x17CDB2a01e7a34CbB3DD4b83260B05d0274C8dab"]>
                           toks)) <$> cfg_tokens n |})
             "ethereum" sample_networks;
     TOKEN_ADDRESSES := None;
     TRADE_SETTLEMENT_CONTRACT_ADDRESS := Some engine_address;
     PRIVATE_KEY := Some "engine-key" |}.

(** The configuration of the samples with no key for the engine. *)
Definition keyless_cfg : Config :=
  {| SUPPORTED_NETWORKS := sample_networks;
     TOKEN_ADDRESSES := None;
     TRADE_SETTLEMENT_CONTRACT_ADDRESS := Some engine_address;
     PRIVATE_KEY := None |}.

(** [sample_world] with an order book that matches every order against
    Alice's resting ask: the trade is [sample_trade], and the order it
    returns is [ord]. *)
Definition matching_world (raw_balance : Z) (decimals_answer : res Z)
    (ord : option order) : World :=
  let W := sample_world raw_balance decimals_answer None 1 "aa" [] in
  {| is_connected := is_connected W;
     to_checksum_address := to_checksum_address W;
     account_from_key := account_from_key W;
     eth_chain_id := eth_chain_id W;
     checkEscrowBalance := checkEscrowBalance W;
     decimals := decimals W;
     getUserNonce := getUserNonce W;
     owner := owner W;
     settleSameChainTrade := settleSameChainTrade W;
     cross_checkEscrowBalance := cross_checkEscrowBalance W;
     cross_settleCrossChainTrade := cross_settleCrossChainTrade W;
     sha256_hexdigest := sha256_hexdigest W;
     token_hex_32 := token_hex_32 W;
     time_now := time_now W;
     getenv_SETTLEMENT_SYNC_TIMEOUT := getenv_SETTLEMENT_SYNC_TIMEOUT W;
     wait_for_budget := wait_for_budget W;
     order_books_has := order_books_has W;
     process_order :=
       fun _ _ q =>
         Val {| pr_success := true; pr_message := "";
                pr_trades := [sample_trade]; pr_order := ord;
                pr_task_id := None; pr_next_best := None;
                pr_quote := q; pr_quote_timestamp := Some 1700000000%Z |};
     process_order_cross := process_order_cross W;
     cancel_order := cancel_order W;
     append_file := append_file W |}.

(** [W] with escrows that hold [escrow user token] base units, none of
    them locked. *)
Definition with_escrow (W : World) (escrow : string -> string -> Z) : World :=
  {| is_connected := is_connected W;
     to_checksum_address := to_checksum_address W;
     account_from_key := account_from_key W;
     eth_chain_id := eth_chain_id W;
     checkEscrowBalance :=
       fun _ _ _ user token => Val (escrow user token, escrow user token, 0%Z);
     decimals := decimals W;
     getUserNonce := getUserNonce W;
     owner := owner W;
     settleSameChainTrade := settleSameChainTrade W;
     cross_checkEscrowBalance := cross_checkEscrowBalance W;
     cross_settleCrossChainTrade := cross_settleCrossChainTrade W;
     sha256_hexdigest := sha256_hexdigest W;
     token_hex_32 := token_hex_32 W;
     time_now := time_now W;
     getenv_SETTLEMENT_SYNC_TIMEOUT := getenv_SETTLEMENT_SYNC_TIMEOUT W;
     wait_for_budget := wait_for_budget W;
     order_books_has := order_books_has W;
     process_order := process_order W;
     process_order_cross := process_order_cross W;
     cancel_order := cancel_order W;
     append_file := append_file W |}.


(** [W] with the budget [budget] for [wait_for]. *)
Definition with_budget (W : World) (budget : option nat) : World :=
  {| is_connected := is_connected W;
     to_checksum_address := to_checksum_address W;
     account_from_key := account_from_key W;
     eth_chain_id := eth_chain_id W;
     checkEscrowBalance := checkEscrowBalance W;
     decimals := decimals W;
     getUserNonce := getUserNonce W;
     owner := owner W;
     settleSameChainTrade := settleSameChainTrade W;
     cross_checkEscrowBalance := cross_checkEscrowBalance W;
     cross_settleCrossChainTrade := cross_settleCrossChainTrade W;
     sha256_hexdigest := sha256_hexdigest W;
     token_hex_32 := token_hex_32 W;
     time_now := time_now W;
     getenv_SETTLEMENT_SYNC_TIMEOUT := getenv_SETTLEMENT_SYNC_TIMEOUT W;
     wait_for_budget := fun _ => budget;
     order_books_has := order_books_has W;
     process_order := process_order W;
     process_order_cross := process_order_cross W;
     cancel_order := cancel_order W;
     append_file := append_file W |}.

(** The token contracts of Hedera in [sample_networks]. *)
Definition hbar_hedera : string := "0x66B8244b08be8F4Cec1A23C5c57A1d7b8A27189D".
Definition usdt_hedera : string := "0x62bcF51859E23cc47ddc6C3144B045619476Be92".

(** The client [settle_trades_if_any] builds for Hedera from
    [sample_cfg] in the sample worlds. *)
Definition hedera_client : client :=
  {| web3_provider := Some "https://testnet.hashio.io/api";
     contract_address := engine_address;
     account := Some engine_address |}.

(** Alice sells 1 HBAR to Bob at 10, on Hedera. *)
Definition unit_trade : trade :=
  {| t_timestamp := 1700000000; t_price := 10; t_quantity := 1;
     t_time := 1700000000;
     t_party1 := sample_party alice "ask"; t_party2 := sample_party bob "bid" |}.

Definition unit_order_dict : order_dict :=
  {| od_orderId := 7; od_account := bob; od_price := 10; od_quantity := 1;
     od_side := "bid"; od_baseAsset := "HBAR"; od_quoteAsset := "USDT";
     od_trade_id := bob; od_trades := [unit_trade];
     od_timestamp := 1700000000 |}.

(** A world in which Alice's escrow holds one base unit less than 1 HBAR,
    [10 ^ 18 - 1] base units of a token of 18 decimals, and every other
    escrow holds [10 ^ 19] base units. *)
Definition short_ask_world : World :=
  with_escrow (sample_world 0 (Val 18%Z) None 1 "aa" [])
    (fun user _ => if streq user alice then (10 ^ 18 - 1)%Z else (10 ^ 19)%Z).


(** Alice's ask of 3 HBAR at 10 USDT, escrowed on Hedera. *)
Definition ask_payload : payload :=
  {| pl_attach_signature := false; pl_account := alice; pl_side := "ask";
     pl_quantity := 3; pl_price := 10;
     pl_from_network := Some "hedera"; pl_fromNetwork := None;
     pl_to_network := Some "hedera"; pl_toNetwork := None;
     pl_baseAsset := "HBAR"; pl_quoteAsset := "USDT";
     pl_type := None; pl_receive_wallet := None; pl_receiveWallet := None |}.

(** A world in which every escrow holds one base unit less than 3 HBAR. *)
Definition short_escrow_world : World :=
  sample_world (3 * 10 ^ 18 - 1) (Val 18%Z) None 1 "aa" [].

(** A world in which Bob's escrows hold 50 USDT and every other escrow is
    empty; the order book matches an order in full against Alice's
    resting ask, so that nothing of it is left to rest, and [wait_for]
    has the budget [budget]. *)
Definition filled_bid_world (budget : option nat) : World :=
  with_budget
    (with_escrow (matching_world 0 (Val 6%Z) None)
       (fun user _ => if streq user bob then 50000000%Z else 0%Z))
    budget.

(** [sample_world] with an endpoint that refuses every escrow read. *)
Definition unreadable_world : World :=
  let W := sample_world 0 (Val 18%Z) None 1 "aa" [] in
  {| is_connected := is_connected W;
     to_checksum_address := to_checksum_address W;
     account_from_key := account_from_key W;
     eth_chain_id := eth_chain_id W;
     checkEscrowBalance := fun _ _ _ _ _ => Exc (RpcError "429");
     decimals := decimals W;
     getUserNonce := getUserNonce W;
     owner := owner W;
     settleSameChainTrade := settleSameChainTrade W;
     cross_checkEscrowBalance := cross_checkEscrowBalance W;
     cross_settleCrossChainTrade := cross_settleCrossChainTrade W;
     sha256_hexdigest := sha256_hexdigest W;
     token_hex_32 := token_hex_32 W;
     time_now := time_now W;
     getenv_SETTLEMENT_SYNC_TIMEOUT := getenv_SETTLEMENT_SYNC_TIMEOUT W;
     wait_for_budget := wait_for_budget W;
     order_books_has := order_books_has W;
     process_order := process_order W;
     process_order_cross := process_order_cross W;
     cancel_order := cancel_order W;
     append_file := append_file W |}.

(** Two orders as the market maker parses them: Alice sells 5 HBAR from
    Hedera at 100, Bob bids 99.6 for 3 HBAR from Ethereum. *)
Definition maker_ask : CrossChainOrder :=
  {| cco_order_id := "2"; cco_account := alice; cco_side := "ask";
     cco_base_asset := "HBAR"; cco_quote_asset := "USDT";
     cco_price := 100; cco_quantity := 5;
     cco_from_network := "hedera"; cco_to_network := "ethereum";
     cco_receive_wallet := alice; cco_timestamp := 1700000000;
     cco_network := HEDERA |}.

Definition maker_bid : CrossChainOrder :=
  {| cco_order_id := "1"; cco_account := bob; cco_side := "bid";
     cco_base_asset := "HBAR"; cco_quote_asset := "USDT";
     cco_price := 996 # 10; cco_quantity := 3;
     cco_from_network := "ethereum"; cco_to_network := "hedera";
     cco_receive_wallet := bob; cco_timestamp := 1700000000;
     cco_network := ETHEREUM |}.

(** Alice's order as the order-book API lists it. *)
Definition sample_raw_order : raw_order :=
  {| ro_from_network := Some "Hedera"; ro_to_network := Some "Ethereum";
     ro_orderId := Some "2"; ro_order_id := None;
     ro_account := Some alice; ro_side := Some "ask";
     ro_baseAsset := Some "HBAR"; ro_quoteAsset := Some "USDT";
     ro_price := Some 100%Q; ro_quantity := Some 5%Q;
     ro_receiveWallet := Some alice; ro_receive_wallet := None;
     ro_timestamp := None |}.

(* ================================================================== *)
(** ** Arithmetic of amounts                                           *)
(* ================================================================== *)

Lemma ltb_lt (x y : Q) : Py.ltb x y = true <-> (x < y)%Q.
Proof.
  unfold Py.ltb. rewrite negb_true_iff.
  split; intro H.
  - apply Qnot_le_lt. intro Hle. apply Qle_bool_iff in Hle. congruence.
  - destruct (Qle_bool y x) eqn:E; [|reflexivity].
    apply Qle_bool_iff in E. exfalso. exact (Qlt_not_le _ _ H E).
Qed.

Section FloatFacts.

Local Open Scope Z_scope.

Lemma pow2_pos e : 0 <= e -> 0 < 2 ^ e.
Proof. intros. apply Z.pow_pos_nonneg; lia. Qed.

Lemma pow2_split x y : 0 <= x -> 0 <= y -> 2 ^ (x + y) = 2 ^ x * 2 ^ y.
Proof. intros. apply Z.pow_add_r; assumption. Qed.

Lemma reaches_pow_le a d k : reaches 2 a d k = true <-> pow_le k a d.
Proof.
  unfold reaches, pow_le. destruct (0 <=? k); apply Z.leb_le.
Qed.

Lemma pow_le_mono l l' a d :
  0 < a -> 0 < d -> l <= l' -> pow_le l' a d -> pow_le l a d.
Proof.
  intros Ha Hd Hl. unfold pow_le.
  destruct (0 <=? l') eqn:E'; destruct (0 <=? l) eqn:E;
    try apply Z.leb_le in E; try apply Z.leb_le in E';
    try apply Z.leb_gt in E; try apply Z.leb_gt in E'; try lia.
  - replace l' with (l + (l' - l)) by lia.
    rewrite pow2_split by lia.
    pose proof (pow2_pos l ltac:(lia)). pose proof (pow2_pos (l' - l) ltac:(lia)).
    nia.
  - pose proof (pow2_pos l' ltac:(lia)). pose proof (pow2_pos (- l) ltac:(lia)).
    nia.
  - replace (- l) with (- l' + (l' - l)) by lia.
    rewrite pow2_split by lia.
    pose proof (pow2_pos (- l') ltac:(lia)). pose proof (pow2_pos (l' - l) ltac:(lia)).
    nia.
Qed.

Lemma pow_le_scale c l a d :
  0 < c -> (pow_le l (c * a) (c * d) <-> pow_le l a d).
Proof.
  intros Hc. unfold pow_le. destruct (0 <=? l); split; intros H; nia.
Qed.

(** [pow_le l (a * 2 ^ s) d <-> pow_le (l - s) a d] *)
Lemma pow_le_shift_num s l a d :
  0 <= s -> 0 < a -> 0 < d ->
  (pow_le l (a * 2 ^ s) d <-> pow_le (l - s) a d).
Proof.
  intros Hs Ha Hd. unfold pow_le.
  pose proof (pow2_pos s Hs) as Ps.
  destruct (0 <=? l) eqn:E; destruct (0 <=? l - s) eqn:E';
    try apply Z.leb_le in E; try apply Z.leb_le in E';
    try apply Z.leb_gt in E; try apply Z.leb_gt in E'; try lia.
  - replace l with ((l - s) + s) at 1 by lia.
    rewrite pow2_split by lia.
    pose proof (pow2_pos (l - s) ltac:(lia)). split; intros; nia.
  - replace s with (l + - (l - s)) at 1 by lia.
    rewrite pow2_split by lia.
    pose proof (pow2_pos l ltac:(lia)).
    pose proof (pow2_pos (- (l - s)) ltac:(lia)). split; intros; nia.
  - replace (- (l - s)) with (s + - l) by lia.
    rewrite pow2_split by lia.
    pose proof (pow2_pos (- l) ltac:(lia)). split; intros; nia.
Qed.

Lemma pow_le_shift_den s l a d :
  0 <= s -> 0 < a -> 0 < d ->
  (pow_le l a (d * 2 ^ s) <-> pow_le (l + s) a d).
Proof.
  intros Hs Ha Hd. unfold pow_le.
  pose proof (pow2_pos s Hs) as Ps.
  destruct (0 <=? l) eqn:E; destruct (0 <=? l + s) eqn:E';
    try apply Z.leb_le in E; try apply Z.leb_le in E';
    try apply Z.leb_gt in E; try apply Z.leb_gt in E'; try lia.
  - rewrite pow2_split by lia.
    pose proof (pow2_pos l ltac:(lia)). split; intros; nia.
  - replace s with ((l + s) + - l) at 1 by lia.
    rewrite pow2_split by lia.
    pose proof (pow2_pos (l + s) ltac:(lia)).
    pose proof (pow2_pos (- l) ltac:(lia)). split; intros; nia.
  - replace (- l) with (- (l + s) + s) by lia.
    rewrite pow2_split by lia.
    pose proof (pow2_pos (- (l + s)) ltac:(lia)). split; intros; nia.
Qed.

Lemma is_floor_log_unique l l' a d :
  0 < a -> 0 < d -> is_floor_log l a d -> is_floor_log l' a d -> l = l'.
Proof.
  intros Ha Hd [H1 H2] [H1' H2'].
  destruct (Z.lt_trichotomy l l') as [Hlt|[Heq|Hgt]]; [|exact Heq|].
  - exfalso. apply H2. apply (pow_le_mono _ l'); auto. lia.
  - exfalso. apply H2'. apply (pow_le_mono _ l); auto. lia.
Qed.

Lemma floor_log_spec a d :
  0 < a -> 0 < d ->
  is_floor_log (floor_log 2 a d (Z.log2 a - Z.log2 d)) a d.
Proof.
  intros Ha Hd.
  pose proof (Z.log2_spec a Ha) as [Ha1 Ha2].
  pose proof (Z.log2_spec d Hd) as [Hd1 Hd2].
  pose proof (Z.log2_nonneg a) as Hp. pose proof (Z.log2_nonneg d) as Hq.
  set (p := Z.log2 a) in *. set (q := Z.log2 d) in *.
  replace (Z.succ p) with (p + 1) in Ha2 by lia.
  replace (Z.succ q) with (q + 1) in Hd2 by lia.
  pose proof (pow2_pos p Hp) as Pp. pose proof (pow2_pos q Hq) as Pq.
  assert (~ pow_le (p - q + 1) a d) as Hup.
  { unfold pow_le. destruct (0 <=? p - q + 1) eqn:E;
      [apply Z.leb_le in E|apply Z.leb_gt in E]; intros H.
    - assert (2 ^ (p + 1) = 2 ^ q * 2 ^ (p - q + 1)) as Eq.
      { rewrite <- pow2_split by lia. f_equal. lia. }
      pose proof (pow2_pos (p - q + 1) E). nia.
    - assert (2 ^ q = 2 ^ (p + 1) * 2 ^ (- (p - q + 1))) as Eq.
      { rewrite <- pow2_split by lia. f_equal. lia. }
      pose proof (pow2_pos (- (p - q + 1)) ltac:(lia)). nia. }
  assert (pow_le (p - q - 1) a d) as Hdown.
  { unfold pow_le. destruct (0 <=? p - q - 1) eqn:E;
      [apply Z.leb_le in E|apply Z.leb_gt in E].
    - assert (2 ^ p = 2 ^ (q + 1) * 2 ^ (p - q - 1)) as Eq.
      { rewrite <- pow2_split by lia. f_equal. lia. }
      pose proof (pow2_pos (p - q - 1) E). nia.
    - assert (2 ^ (q + 1) = 2 ^ p * 2 ^ (- (p - q - 1))) as Eq.
      { rewrite <- pow2_split by lia. f_equal. lia. }
      pose proof (pow2_pos (- (p - q - 1)) ltac:(lia)). nia. }
  unfold floor_log. destruct (reaches 2 a d (p - q)) eqn:R.
  - apply reaches_pow_le in R. split; assumption.
  - split; [exact Hdown|]. replace (p - q - 1 + 1) with (p - q) by lia.
    intros H. apply reaches_pow_le in H. congruence.
Qed.

Lemma floor_log_scale c a d :
  0 < c -> 0 < a -> 0 < d ->
  floor_log 2 (c * a) (c * d) (Z.log2 (c * a) - Z.log2 (c * d))
  = floor_log 2 a d (Z.log2 a - Z.log2 d).
Proof.
  intros Hc Ha Hd.
  apply (is_floor_log_unique _ _ a d Ha Hd); [|apply floor_log_spec; assumption].
  destruct (floor_log_spec (c * a) (c * d) ltac:(nia) ltac:(nia)) as [H1 H2].
  split; [apply (pow_le_scale c); assumption|].
  intros H. apply H2. apply (pow_le_scale c); assumption.
Qed.

Lemma round_half_even_exact k d : 0 < d -> round_half_even (k * d) d = k.
Proof.
  intros Hd. unfold round_half_even.
  rewrite Z.div_mul, Z.mod_mul by lia.
  replace (2 * 0) with 0 by lia.
  destruct (0 ?= d) eqn:C; [apply Z.compare_eq in C; lia|reflexivity|].
  apply Z.compare_gt_iff in C. lia.
Qed.

Lemma round_half_even_scale c n d :
  0 < c -> 0 < d -> round_half_even (c * n) (c * d) = round_half_even n d.
Proof.
  intros Hc Hd. unfold round_half_even.
  rewrite Z.div_mul_cancel_l by lia.
  rewrite Z.mul_mod_distr_l by lia.
  replace (2 * (c * (n mod d))) with (c * (2 * (n mod d))) by lia.
  rewrite <- (Zmult_compare_compat_l (2 * (n mod d)) d c) by lia.
  reflexivity.
Qed.

Lemma round_half_even_bound n d K :
  0 <= n -> 0 < d -> n < d * K ->
  0 <= round_half_even n d <= K.
Proof.
  intros Hn Hd HK. unfold round_half_even.
  pose proof (Z.div_mod n d ltac:(lia)) as E.
  pose proof (Z.mod_pos_bound n d Hd) as Hr.
  pose proof (Z.div_pos n d Hn Hd) as Hq.
  assert (n / d < K) as Hlt by (apply Z.div_lt_upper_bound; lia).
  destruct (2 * (n mod d) ?= d); [destruct (Z.even (n / d))| |]; lia.
Qed.

Lemma scaled_scale c a d e :
  0 < c -> 0 < d -> scaled 2 (c * a) (c * d) e = scaled 2 a d e.
Proof.
  intros Hc Hd. unfold scaled. destruct (0 <=? e) eqn:E.
  - apply Z.leb_le in E. pose proof (pow2_pos e E).
    rewrite <- Z.mul_assoc. apply round_half_even_scale; nia.
  - apply Z.leb_gt in E. rewrite <- Z.mul_assoc.
    apply round_half_even_scale; lia.
Qed.

Lemma to_float_scale (c : positive) n d :
  to_float (Z.pos c * n # c * d) = to_float (n # d).
Proof.
  unfold to_float. cbn [Qnum Qden].
  destruct (n =? 0) eqn:E0.
  - apply Z.eqb_eq in E0. subst n. rewrite Z.mul_0_r. reflexivity.
  - apply Z.eqb_neq in E0.
    assert ((Z.pos c * n =? 0) = false) as -> by (apply Z.eqb_neq; nia).
    rewrite Z.abs_mul, Z.sgn_mul. cbn [Z.abs Z.sgn].
    rewrite Z.mul_1_l. rewrite Pos2Z.inj_mul.
    rewrite floor_log_scale by lia.
    rewrite scaled_scale by lia. reflexivity.
Qed.

Lemma to_float_Qred x : to_float (Qred x) = to_float x.
Proof.
  destruct x as [n d]. unfold Qred.
  pose proof (Z.ggcd_correct_divisors n (Z.pos d)) as H.
  pose proof (Z.ggcd_gcd n (Z.pos d)) as Hg.
  pose proof (Z.gcd_nonneg n (Z.pos d)) as Hg0.
  destruct (Z.ggcd n (Z.pos d)) as [g [n' d']]. cbn [fst snd] in *.
  destruct H as [Hn Hd]. rewrite <- Hg in Hg0.
  pose proof (Pos2Z.is_pos d) as Hdpos.
  clear Hg.
  assert (g <> 0) as Hgne by (intros ->; lia).
  assert (0 < g) as Hgpos by lia.
  assert (0 < d') as Hd'
    by (apply (Z.mul_pos_cancel_l g d' Hgpos); rewrite <- Hd; exact Hdpos).
  destruct g as [|g|g]; try lia. destruct d' as [|d'|d']; try lia.
  cbn [Z.to_pos].
  assert (d = (g * d')%positive) as ->
    by (apply Pos2Z.inj; rewrite Pos2Z.inj_mul; exact Hd).
  rewrite Hn. symmetry. apply to_float_scale.
Qed.

Lemma unscaled_dyadic z e : unscaled 2 z e = Qred (dyadic z e).
Proof. reflexivity. Qed.

Lemma scaled_bound a d l e :
  0 < a -> 0 < d -> ~ pow_le (l + 1) a d -> l - 52 <= e ->
  0 <= scaled 2 a d e <= 2 ^ 53.
Proof.
  intros Ha Hd Hl He.
  assert (~ pow_le (e + 53) a d) as Hup.
  { intros H. apply Hl. apply (pow_le_mono _ (e + 53)); auto. lia. }
  unfold scaled. destruct (0 <=? e) eqn:E;
    [apply Z.leb_le in E|apply Z.leb_gt in E].
  - pose proof (pow2_pos e E).
    apply round_half_even_bound; [lia|nia|].
    unfold pow_le in Hup. destruct (0 <=? e + 53) eqn:E'; [|apply Z.leb_gt in E'; lia].
    rewrite pow2_split in Hup by lia. lia.
  - pose proof (pow2_pos (- e) ltac:(lia)).
    apply round_half_even_bound; [nia|lia|].
    unfold pow_le in Hup. destruct (0 <=? e + 53) eqn:E';
      [apply Z.leb_le in E'|apply Z.leb_gt in E'].
    + assert (2 ^ 53 = 2 ^ (e + 53) * 2 ^ (- e)) as Eq.
      { rewrite <- pow2_split by lia. f_equal. lia. }
      pose proof (pow2_pos (e + 53) E'). nia.
    + assert (2 ^ (- e) = 2 ^ (- (e + 53)) * 2 ^ 53) as Eq.
      { rewrite <- pow2_split by lia. f_equal. lia. }
      nia.
Qed.

Lemma scaled_exact a d e k :
  0 < d ->
  (if (0 <=? e)%Z then a = k * (d * 2 ^ e) else a * 2 ^ (- e) = k * d) ->
  scaled 2 a d e = k.
Proof.
  intros Hd. unfold scaled. destruct (0 <=? e) eqn:E;
    [apply Z.leb_le in E|apply Z.leb_gt in E]; intros ->.
  - pose proof (pow2_pos e E). apply round_half_even_exact. nia.
  - apply round_half_even_exact. exact Hd.
Qed.

Lemma Qden_dyadic z e :
  Z.pos (Qden (dyadic z e)) = if (0 <=? e)%Z then 1 else 2 ^ (- e).
Proof.
  unfold dyadic. destruct (0 <=? e) eqn:E; [reflexivity|].
  apply Z.leb_gt in E. cbn [Qden]. apply Z2Pos.id. apply pow2_pos. lia.
Qed.

Lemma Qnum_dyadic z e :
  Qnum (dyadic z e) = if (0 <=? e)%Z then z * 2 ^ e else z.
Proof. unfold dyadic. destruct (0 <=? e); reflexivity. Qed.

(** The numbers [± m * 2 ^ e] with [m] of at most 53 bits and [e] not
    below [-1074] are [float]s. *)
Lemma to_float_dyadic s m e :
  (s = 1 \/ s = -1) -> 0 < m <= 2 ^ 53 -> -1074 <= e ->
  to_float (unscaled 2 (s * m) e) = unscaled 2 (s * m) e.
Proof.
  intros Hs Hm He. rewrite unscaled_dyadic, to_float_Qred.
  unfold to_float. rewrite Qnum_dyadic, Qden_dyadic.
  set (M := if 0 <=? e then m * 2 ^ e else m).
  set (D := if 0 <=? e then 1 else 2 ^ (- e)).
  assert (0 < M) as HM.
  { unfold M. destruct (0 <=? e) eqn:E; [|lia].
    apply Z.leb_le in E. pose proof (pow2_pos e E). nia. }
  assert (0 < D) as HD.
  { unfold D. destruct (0 <=? e) eqn:E; [lia|].
    apply Z.leb_gt in E. apply pow2_pos. lia. }
  assert ((if 0 <=? e then s * m * 2 ^ e else s * m) = s * M) as ->.
  { unfold M. destruct (0 <=? e); lia. }
  assert ((s * M =? 0) = false) as -> by (apply Z.eqb_neq; nia).
  assert (Z.abs (s * M) = M) as -> by (destruct Hs as [-> | ->]; lia).
  assert (Z.sgn (s * M) = s) as -> by (destruct Hs as [-> | ->]; lia).
  pose proof (Z.log2_spec m ltac:(lia)) as [Hl1 Hl2].
  pose proof (Z.log2_nonneg m) as Hl0.
  replace (Z.succ (Z.log2 m)) with (Z.log2 m + 1) in Hl2 by lia.
  assert (floor_log 2 M D (Z.log2 M - Z.log2 D) = Z.log2 m + e) as ->.
  { apply (is_floor_log_unique _ _ M D HM HD); [apply floor_log_spec; assumption|].
    unfold M, D. destruct (0 <=? e) eqn:E;
      [apply Z.leb_le in E|apply Z.leb_gt in E]; split.
    - apply pow_le_shift_num; [lia..|].
      replace (Z.log2 m + e - e) with (Z.log2 m) by lia.
      unfold pow_le. destruct (0 <=? Z.log2 m) eqn:E'; [lia|apply Z.leb_gt in E'; lia].
    - rewrite pow_le_shift_num by lia.
      replace (Z.log2 m + e + 1 - e) with (Z.log2 m + 1) by lia.
      unfold pow_le. destruct (0 <=? Z.log2 m + 1) eqn:E'; [lia|apply Z.leb_gt in E'; lia].
    - replace (2 ^ (- e)) with (1 * 2 ^ (- e)) by lia.
      apply pow_le_shift_den; [lia..|].
      replace (Z.log2 m + e + - e) with (Z.log2 m) by lia.
      unfold pow_le. destruct (0 <=? Z.log2 m) eqn:E'; [lia|apply Z.leb_gt in E'; lia].
    - replace (2 ^ (- e)) with (1 * 2 ^ (- e)) by lia.
      rewrite pow_le_shift_den by lia.
      replace (Z.log2 m + e + 1 + - e) with (Z.log2 m + 1) by lia.
      unfold pow_le. destruct (0 <=? Z.log2 m + 1) eqn:E'; [lia|apply Z.leb_gt in E'; lia]. }
  set (e' := Z.max (Z.log2 m + e - 52) (-1074)).
  destruct (Z.eq_dec m (2 ^ 53)) as [Em|Em].
  - (* the mantissa rounded up to 2 ^ 53 *)
    assert (Z.log2 m = 53) as El by (rewrite Em; apply Z.log2_pow2; lia).
    assert (e' = e + 1) as -> by (unfold e'; lia).
    assert (scaled 2 M D (e + 1) = 2 ^ 52) as ->.
    { apply scaled_exact; [exact HD|]. unfold M, D. rewrite Em.
      destruct (0 <=? e) eqn:E; [apply Z.leb_le in E|apply Z.leb_gt in E].
      - assert ((0 <=? e + 1) = true) as -> by (apply Z.leb_le; lia).
        rewrite pow2_split by lia. change (2 ^ 53) with (2 ^ 52 * 2). change (2 ^ 1) with 2. lia.
      - destruct (0 <=? e + 1) eqn:E1; [apply Z.leb_le in E1|apply Z.leb_gt in E1].
        + assert (e = -1) as -> by lia. reflexivity.
        + replace (- e) with (- (e + 1) + 1) by lia.
          rewrite pow2_split by lia.
          change (2 ^ 53) with (2 ^ 52 * 2). change (2 ^ 1) with 2. lia. }
    rewrite !unscaled_dyadic. apply Qred_complete.
    unfold Qeq. rewrite !Qnum_dyadic, !Qden_dyadic. rewrite Em.
    destruct (0 <=? e) eqn:E; [apply Z.leb_le in E|apply Z.leb_gt in E].
    + assert ((0 <=? e + 1) = true) as -> by (apply Z.leb_le; lia).
      rewrite pow2_split by lia. change (2 ^ 53) with (2 ^ 52 * 2). change (2 ^ 1) with 2. lia.
    + destruct (0 <=? e + 1) eqn:E1; [apply Z.leb_le in E1|apply Z.leb_gt in E1].
      * assert (e = -1) as -> by lia. cbn. lia.
      * replace (- e) with (- (e + 1) + 1) by lia.
        rewrite pow2_split by lia.
        change (2 ^ 53) with (2 ^ 52 * 2). change (2 ^ 1) with 2. lia.
  - assert (m < 2 ^ 53) as Hlt by lia.
    apply Z.log2_lt_pow2 in Hlt; [|lia].
    assert (e' <= e) as Hle by (unfold e'; lia).
    clearbody e'.
    assert (scaled 2 M D e' = m * 2 ^ (e - e')) as ->.
    { apply scaled_exact; [exact HD|]. unfold M, D.
      destruct (0 <=? e) eqn:E; [apply Z.leb_le in E|apply Z.leb_gt in E];
        (destruct (0 <=? e') eqn:E1; [apply Z.leb_le in E1|apply Z.leb_gt in E1]);
        try lia.
      - assert (2 ^ e = 2 ^ (e - e') * 2 ^ e') as Eq
          by (rewrite <- pow2_split by lia; f_equal; lia).
        rewrite Eq. lia.
      - assert (2 ^ (e - e') = 2 ^ e * 2 ^ (- e')) as Eq
          by (rewrite <- pow2_split by lia; f_equal; lia).
        rewrite Eq. lia.
      - assert (2 ^ (- e') = 2 ^ (e - e') * 2 ^ (- e)) as Eq
          by (rewrite <- pow2_split by lia; f_equal; lia).
        rewrite Eq. lia. }
    rewrite !unscaled_dyadic. apply Qred_complete.
    unfold Qeq. rewrite !Qnum_dyadic, !Qden_dyadic.
    destruct (0 <=? e) eqn:E; [apply Z.leb_le in E|apply Z.leb_gt in E];
      (destruct (0 <=? e') eqn:E1; [apply Z.leb_le in E1|apply Z.leb_gt in E1]);
      try lia.
    + assert (2 ^ e = 2 ^ (e - e') * 2 ^ e') as Eq
        by (rewrite <- pow2_split by lia; f_equal; lia).
      rewrite Eq. lia.
    + assert (2 ^ (e - e') = 2 ^ e * 2 ^ (- e')) as Eq
        by (rewrite <- pow2_split by lia; f_equal; lia).
      rewrite Eq. lia.
    + assert (2 ^ (- e') = 2 ^ (e - e') * 2 ^ (- e)) as Eq
        by (rewrite <- pow2_split by lia; f_equal; lia).
      rewrite Eq. lia.
Qed.

(** [float(x)] of a [float] is that [float]. *)
Lemma to_float_idempotent x : to_float (to_float x) = to_float x.
Proof.
  destruct x as [n d]. unfold to_float at 2 3. cbn [Qnum Qden].
  destruct (n =? 0) eqn:E0; [reflexivity|]. apply Z.eqb_neq in E0.
  set (a := Z.abs n).
  assert (0 < a) as Ha by (unfold a; lia).
  pose proof (floor_log_spec a (Z.pos d) Ha ltac:(lia)) as [_ Hup].
  set (l := floor_log 2 a (Z.pos d) (Z.log2 a - Z.log2 (Z.pos d))) in *.
  set (e := Z.max (l - 52) (-1074)).
  pose proof (scaled_bound a (Z.pos d) l e Ha ltac:(lia) Hup ltac:(unfold e; lia))
    as [Hm0 Hm1].
  set (m := scaled 2 a (Z.pos d) e) in *.
  destruct (Z.eq_dec m 0) as [Em|Em].
  - rewrite Em, Z.mul_0_r.
    assert (unscaled 2 0 e = 0%Q) as ->; [|reflexivity].
    rewrite unscaled_dyadic. change 0%Q with (Qred 0). apply Qred_complete.
    unfold Qeq. rewrite Qnum_dyadic. destruct (0 <=? e); cbn; lia.
  - apply to_float_dyadic; [|lia|unfold e; lia].
    destruct (Z.sgn_spec n) as [[_ ->]|[[? _]|[_ ->]]]; [left|lia|right]; reflexivity.
Qed.

(** The roundings on some numbers: 0.1 is not a [float]; [2 ^ 53 + 1] and
    [2 ^ 53 + 3] lie half-way between two [float]s and go to the even
    one; [10 ^ -330] is below half the least [float]; 1/3 has 28 digits as
    a [Decimal]. *)
Example rounding_samples :
  to_float (1 # 10) = (3602879701896397 # 36028797018963968)%Q
  /\ to_float (inject_Z (2 ^ 53 + 1)) = inject_Z (2 ^ 53)
  /\ to_float (inject_Z (2 ^ 53 + 3)) = inject_Z (2 ^ 53 + 4)
  /\ to_float (1 # Z.to_pos (10 ^ 330)) = 0%Q
  /\ to_float (inject_Z (3 * 10 ^ 18 - 1) / inject_Z (10 ^ 18)) = 3%Q
  /\ in_float_range (inject_Z (2 ^ 1024 - 2 ^ 970 - 1)) = true
  /\ in_float_range (inject_Z (2 ^ 1024 - 2 ^ 970)) = false
  /\ dround (1 # 3)
     = (3333333333333333333333333333 # 10000000000000000000000000000)%Q
  /\ to_wei (1 # 3) = 333333333333333333
  /\ to_wei (to_float (1 # 10)) = 100000000000000005.
Proof. repeat split; vm_compute; reflexivity. Qed.

End FloatFacts.

(* ================================================================== *)
(** ** Running computations                                            *)
(* ================================================================== *)

(** Unfolds the monad; what remains are the answers of the world. *)
Ltac run :=
  unfold result, calls, bind, try_except, ret, raise, emit, ask, call,
    some_or_raise, checksum in *;
  cbn [fst snd] in *.

Section Monad.

Context {A B : Type}.

Lemma bind_val (m : M A) (f : A -> M B) h a es :
  m h = (Val a, es) ->
  bind m f h = (fst (f a (h ++ es)), es ++ snd (f a (h ++ es))).
Proof. intros E. unfold bind. rewrite E. destruct (f a (h ++ es)); reflexivity. Qed.

Lemma bind_exc (m : M A) (f : A -> M B) h e es :
  m h = (Exc e, es) -> bind m f h = (Exc e, es).
Proof. intros E. unfold bind. rewrite E. reflexivity. Qed.

Lemma emits_ret P (a : A) : emits P (ret a).
Proof. intros h. constructor. Qed.

Lemma emits_raise P e : emits P (@raise A e).
Proof. intros h. constructor. Qed.

Lemma emits_ask P (q : history -> A) : emits P (ask q).
Proof. intros h. constructor. Qed.

Lemma emits_call P (q : history -> res A) : emits P (call q).
Proof. intros h. constructor. Qed.

Lemma emits_some_or_raise P (x : option A) e : emits P (some_or_raise x e).
Proof. destruct x; intros h; constructor. Qed.

Lemma emits_bind P (m : M A) (f : A -> M B) :
  emits P m -> (forall a, emits P (f a)) -> emits P (bind m f).
Proof.
  intros Hm Hf h. unfold calls, bind.
  specialize (Hm h). unfold calls in Hm.
  destruct (m h) as [[a|e] es]; cbn in *; [|assumption].
  specialize (Hf a (h ++ es)). unfold calls in Hf.
  destruct (f a (h ++ es)) as [r es']. cbn in *.
  apply Forall_app; split; assumption.
Qed.

Lemma emits_try P (m : M A) (handler : exn -> M A) :
  emits P m -> (forall e, emits P (handler e)) -> emits P (try_except m handler).
Proof.
  intros Hm Hf h. unfold calls, try_except.
  specialize (Hm h). unfold calls in Hm.
  destruct (m h) as [[a|e] es]; cbn in *; [assumption|].
  specialize (Hf e (h ++ es)). unfold calls in Hf.
  destruct (handler e (h ++ es)) as [r es']. cbn in *.
  apply Forall_app; split; assumption.
Qed.

Lemma bind_inv (m : M A) (f : A -> M B) h b es :
  bind m f h = (Val b, es) ->
  exists a es1 es2,
    m h = (Val a, es1) /\ f a (h ++ es1) = (Val b, es2) /\ es = es1 ++ es2.
Proof.
  unfold bind. destruct (m h) as [[a|e] es1]; [|discriminate].
  destruct (f a (h ++ es1)) as [r es2] eqn:E. intros [= -> <-].
  exists a, es1, es2. auto.
Qed.

(** A computation that issues no call. *)
Lemma silent (m : M A) h r es :
  emits (fun _ => False) m -> m h = (r, es) -> es = [].
Proof.
  intros Hm E. specialize (Hm h). unfold calls in Hm. rewrite E in Hm.
  destruct es as [|ev es]; [reflexivity|]. inversion Hm; contradiction.
Qed.

Lemma emits_weaken (P Q : event -> Prop) (m : M A) :
  (forall ev, P ev -> Q ev) -> emits P m -> emits Q m.
Proof. intros HPQ Hm h. eapply Forall_impl; [apply Hm|exact HPQ]. Qed.

End Monad.

Lemma emits_emit P ev : P ev -> emits P (emit ev).
Proof. intros H h. repeat constructor. exact H. Qed.

Lemma emits_in {A} (P : event -> Prop) (m : M A) h ev :
  emits P m -> In ev (calls m h) -> P ev.
Proof. intros Hm Hin. specialize (Hm h). rewrite List.Forall_forall in Hm. auto. Qed.

(** Splits a computation along its structure. *)
Ltac emits_step :=
  first
    [ apply emits_ret | apply emits_raise | apply emits_ask | apply emits_call
    | apply emits_some_or_raise
    | apply emits_emit
    | apply emits_bind; [|intros ?]
    | apply emits_try; [|intros ?] ].


Ltac emits_split :=
  repeat first
    [ emits_step
    | match goal with
      | |- emits _ (if ?b then _ else _) => destruct b
      | |- emits _ (match ?x with _ => _ end) => destruct x
      | |- emits _ (let (_, _) := ?x in _) => destruct x
      end ].

(* ================================================================== *)
(** ** The client                                                      *)
(* ================================================================== *)

Section ClientFacts.

Variable W : World.

Lemma check_escrow_balance_run c user token d h :
  check_escrow_balance W c user token d h
  = (Val (balance_at W c user token d h), [EvCheckEscrowBalance c user token d]).
Proof.
  unfold check_escrow_balance, balance_at, check_escrow_balance_try. run.
  destruct (to_checksum_address W user); cbn;
    [destruct (to_checksum_address W token); cbn|];
    [destruct (checkEscrowBalance W _ _ _ _ _) as [[[tot av] lk]|e]; cbn| |];
    reflexivity.
Qed.

Lemma get_user_nonce_run c user token h :
  get_user_nonce W c user token h
  = (Val (nonce_at W c user token h), [EvGetUserNonce c user token]).
Proof.
  unfold get_user_nonce, nonce_at, get_user_nonce_try. run.
  destruct (to_checksum_address W user); cbn;
    [destruct (to_checksum_address W token); cbn|];
    [destruct (getUserNonce W _ _ _ _ _) as [n|e]; cbn| |]; reflexivity.
Qed.

Lemma get_token_decimals_run c token h :
  get_token_decimals W c token h
  = (Val (decimals_at W c token h), [EvGetTokenDecimals c token]).
Proof.
  unfold get_token_decimals, decimals_at, get_token_decimals_try. run.
  destruct (to_checksum_address W token); cbn;
    [destruct (decimals W _ _ _) as [n|e]; cbn|]; reflexivity.
Qed.

Lemma get_contract_owner_run c h :
  get_contract_owner W c h = (Val (owner_at W c h), [EvGetContractOwner c]).
Proof.
  unfold get_contract_owner, owner_at. run.
  destruct (owner W _ _ _); reflexivity.
Qed.

Lemma retry_get_nonce_run attempts c user token h :
  _retry_get_nonce W (S attempts) c user token h
  = (Val (nonce_at W c user token h), [EvGetUserNonce c user token]).
Proof.
  cbn [_retry_get_nonce]. unfold try_except.
  rewrite get_user_nonce_run. reflexivity.
Qed.

Lemma decimals_attempts_run attempts c token d0 h :
  decimals_attempts W (S attempts) c token d0 h
  = (Val (decimals_at W c token h), [EvGetTokenDecimals c token]).
Proof.
  cbn [decimals_attempts]. unfold try_except.
  rewrite get_token_decimals_run. reflexivity.
Qed.

Lemma SettlementClientSame_init_calls rpc addr key h :
  calls (SettlementClientSame_init W rpc addr key) h = [EvConnect rpc].
Proof.
  unfold SettlementClientSame_init, checksum_opt. run.
  destruct (is_connected W _ _); cbn; [|reflexivity].
  destruct addr as [a|]; cbn; [|reflexivity].
  destruct (to_checksum_address W a); cbn; [|reflexivity].
  destruct (otruthy key); cbn;
    [destruct (key ≫= account_from_key W); cbn; [|reflexivity]|];
    destruct (eth_chain_id W _ _); reflexivity.
Qed.

Lemma SettlementClientSame_init_run rpc addr key h :
  SettlementClientSame_init W rpc addr key h
  = (result (SettlementClientSame_init W rpc addr key) h, [EvConnect rpc]).
Proof.
  rewrite <- (SettlementClientSame_init_calls rpc addr key h).
  unfold result, calls. destruct (SettlementClientSame_init W rpc addr key h).
  reflexivity.
Qed.

Lemma settle_same_chain_trade_calls c a h :
  calls (settle_same_chain_trade W c a) h = [EvSettleSameChainTrade c a].
Proof.
  unfold settle_same_chain_trade. run. destruct (account c); reflexivity.
Qed.

End ClientFacts.

(* ================================================================== *)
(** ** The settlement orchestrator                                     *)
(* ================================================================== *)

Section OrchestratorFacts.

Variable W : World.
Variable cfg : Config.
Variable cls : client_class.

Lemma emits_single {A} (P : event -> Prop) (m : M A) ev :
  (forall h, calls m h = [ev]) -> P ev -> emits P m.
Proof. intros E H h. rewrite E. repeat constructor. exact H. Qed.

Lemma check_escrow_balance_emits P c user token d :
  P (EvCheckEscrowBalance c user token d) ->
  emits P (check_escrow_balance W c user token d).
Proof.
  apply emits_single. intros h. unfold calls.
  rewrite check_escrow_balance_run. reflexivity.
Qed.

Lemma retry_get_nonce_emits P c user token :
  P (EvGetUserNonce c user token) ->
  emits P (_retry_get_nonce W 3 c user token).
Proof.
  apply emits_single. intros h. unfold calls.
  rewrite retry_get_nonce_run. reflexivity.
Qed.

Lemma get_contract_owner_emits P c :
  P (EvGetContractOwner c) -> emits P (get_contract_owner W c).
Proof.
  apply emits_single. intros h. unfold calls.
  rewrite get_contract_owner_run. reflexivity.
Qed.

Lemma SettlementClientSame_init_emits P rpc addr key :
  P (EvConnect rpc) -> emits P (SettlementClientSame_init W rpc addr key).
Proof. apply emits_single. apply SettlementClientSame_init_calls. Qed.

Lemma settle_same_chain_trade_emits P c a :
  P (EvSettleSameChainTrade c a) -> emits P (settle_same_chain_trade W c a).
Proof. apply emits_single. apply settle_same_chain_trade_calls. Qed.

Lemma settle_cross_chain_trade_emits P c a b :
  P (EvSettleCrossChainTrade c a b) ->
  emits P (settle_cross_chain_trade cls c a b).
Proof.
  intros H. unfold settle_cross_chain_trade.
  destruct (cls_settle_cross_chain_trade cls); emits_split. exact H.
Qed.

Lemma prepare_trade_emits (P : event -> Prop) od t :
  (forall rpc, P (EvConnect rpc)) ->
  (forall c, P (EvGetContractOwner c)) ->
  emits P (prepare_trade W cfg od t).
Proof.
  intros Hc Ho. unfold prepare_trade, get_signer_address.
  destruct (_ || _); [emits_split|].
  destruct (normalize_roles t); [|emits_split].
  destruct (network_cfg cfg _); [|emits_split].
  destruct (network_cfg cfg _); [|emits_split].
  apply emits_bind; [apply SettlementClientSame_init_emits; apply Hc|intros ?].
  apply emits_bind; [apply SettlementClientSame_init_emits; apply Hc|intros ?].
  apply emits_bind; [apply get_contract_owner_emits; apply Ho|intros ?].
  emits_split.
Qed.

Lemma submit_trade_emits od idx t p :
  emits (trade_event W od idx t) (submit_trade W cls od idx t p).
Proof.
  unfold submit_trade.
  apply emits_bind; [apply retry_get_nonce_emits; constructor|intros nonce1].
  apply emits_bind; [apply retry_get_nonce_emits; constructor|intros nonce2].
  destruct (bool_decide _).
  - unfold settle_same_chain.
    apply emits_bind; [apply check_escrow_balance_emits; constructor|intros ?].
    apply emits_bind; [apply check_escrow_balance_emits; constructor|intros ?].
    destruct (ltb _ _); [emits_split|].
    destruct (ltb _ _); [emits_split|].
    apply emits_bind; [|intros ?; emits_split].
    apply settle_same_chain_trade_emits. constructor; reflexivity.
  - unfold settle_cross_chain.
    apply emits_bind;
      [apply settle_cross_chain_trade_emits; constructor; reflexivity|intros ?].
    destruct (negb _); [emits_split|].
    apply emits_bind; [|intros ?; emits_split].
    apply settle_cross_chain_trade_emits; constructor; reflexivity.
Qed.

Lemma settle_prepared_emits od idx t p :
  emits (trade_event W od idx t) (settle_prepared W cls od idx t p).
Proof.
  unfold settle_prepared.
  apply emits_bind; [apply check_escrow_balance_emits; constructor|intros ?].
  destruct (ltb _ _); [emits_split|].
  apply emits_bind; [apply check_escrow_balance_emits; constructor|intros ?].
  destruct (ltb _ _); [emits_split|].
  apply submit_trade_emits.
Qed.

(** The stages of [settle_prepared], by the outcome of the comparisons. *)
Lemma settle_prepared_ask_insufficient od idx t p h :
  ltb (ask_available W p h) (needed_base t) = true ->
  settle_prepared W cls od idx t p h
  = (Val (failure "insufficient_ask_base_escrow"
            (Some (DetailsAmounts (needed_base t) (ask_available W p h)))),
     [ask_check p]).
Proof.
  intros Ha. unfold settle_prepared, bind.
  rewrite check_escrow_balance_run.
  unfold ask_available, available_at, needed_base in Ha. rewrite Ha. reflexivity.
Qed.

Lemma settle_prepared_bid_insufficient od idx t p h :
  ltb (ask_available W p h) (needed_base t) = false ->
  ltb (bid_available W p h) (needed_quote t) = true ->
  settle_prepared W cls od idx t p h
  = (Val (failure "insufficient_bid_quote_escrow"
            (Some (DetailsAmounts (needed_quote t) (bid_available W p h)))),
     [ask_check p; bid_check p]).
Proof.
  intros Ha Hb. unfold settle_prepared, bind.
  rewrite check_escrow_balance_run.
  unfold ask_available, available_at, needed_base in Ha. rewrite Ha.
  rewrite check_escrow_balance_run.
  unfold bid_available, available_at, ask_check, needed_quote in Hb.
  rewrite Hb. reflexivity.
Qed.

Lemma settle_prepared_sufficient od idx t p h :
  ltb (ask_available W p h) (needed_base t) = false ->
  ltb (bid_available W p h) (needed_quote t) = false ->
  settle_prepared W cls od idx t p h
  = (result (submit_trade W cls od idx t p) (h ++ [ask_check p; bid_check p]),
     ask_check p :: bid_check p
       :: calls (submit_trade W cls od idx t p) (h ++ [ask_check p; bid_check p])).
Proof.
  intros Ha Hb. unfold settle_prepared, bind.
  rewrite check_escrow_balance_run.
  unfold ask_available, available_at, needed_base in Ha. rewrite Ha.
  rewrite check_escrow_balance_run.
  unfold bid_available, available_at, ask_check, needed_quote in Hb.
  rewrite Hb.
  unfold result, calls, ask_check, bid_check.
  rewrite <- app_assoc. cbn [app].
  destruct (submit_trade W cls od idx t p _). reflexivity.
Qed.

Lemma SettlementClientSame_init_provider rpc addr key h c :
  result (SettlementClientSame_init W rpc addr key) h = Val c ->
  web3_provider c = rpc.
Proof.
  unfold SettlementClientSame_init, checksum_opt. run.
  destruct (is_connected W _ _); cbn; [|discriminate].
  destruct addr as [a|]; cbn; [|discriminate].
  destruct (to_checksum_address W a); cbn; [|discriminate].
  destruct (otruthy key); cbn;
    [destruct (key ≫= account_from_key W); cbn; [|discriminate]|];
    (destruct (eth_chain_id W _ _); cbn; [|discriminate]);
    intros [= <-]; reflexivity.
Qed.

(** What a prepared trade carries: the roles of the trade, a client on the
    network of each party, and the token addresses on those networks. *)
Lemma prepare_trade_prepared od t h p :
  result (prepare_trade W cfg od t) h = Val (inr p) ->
  exists r src dst,
    normalize_roles t = Some r
    /\ network_cfg cfg (ask_from_network r) = Some src
    /\ network_cfg cfg (bid_from_network r) = Some dst
    /\ the_roles p = r
    /\ web3_provider (client_source p) = cfg_rpc src
    /\ web3_provider (client_dest p) = cfg_rpc dst
    /\ source_chain_id p = cfg_chain_id src
    /\ dest_chain_id p = cfg_chain_id dst
    /\ base_token_src p = get_token_address cfg (od_baseAsset od) (ask_from_network r)
    /\ quote_token_src p = get_token_address cfg (od_quoteAsset od) (ask_from_network r)
    /\ quote_token_dest p = get_token_address cfg (od_quoteAsset od) (bid_from_network r).
Proof.
  unfold prepare_trade, get_signer_address, result.
  destruct (_ || _); [discriminate|].
  destruct (normalize_roles t) as [r|]; [|discriminate].
  destruct (network_cfg cfg (ask_from_network r)) as [src|] eqn:Es;
    [|destruct (network_cfg cfg (bid_from_network r)); discriminate].
  destruct (network_cfg cfg (bid_from_network r)) as [dst|] eqn:Ed; [|discriminate].
  unfold bind at 1. rewrite SettlementClientSame_init_run.
  destruct (result (SettlementClientSame_init W (cfg_rpc src) _ _) h)
    as [cs|e] eqn:Ecs; [|discriminate].
  unfold bind at 1. rewrite SettlementClientSame_init_run.
  destruct (result (SettlementClientSame_init W (cfg_rpc dst) _ _) _)
    as [cd|e] eqn:Ecd; [|discriminate].
  unfold bind at 1. rewrite get_contract_owner_run.
  unfold bind, ret. cbn.
  destruct (truthy _ && truthy _ && negb _); cbn; [discriminate|].
  intros [= <-]. exists r, src, dst. cbn.
  apply SettlementClientSame_init_provider in Ecs, Ecd.
  repeat split; auto.
Qed.

Lemma settle_trade_emits od idx t :
  emits (trade_event W od idx t) (settle_trade W cfg cls od idx t).
Proof.
  unfold settle_trade.
  apply emits_bind;
    [apply prepare_trade_emits; intros; constructor|intros [early|p]].
  - emits_split.
  - apply settle_prepared_emits.
Qed.

Lemma settle_loop_emits od (P : event -> Prop) trades :
  forall idx,
    (forall i t, trades !! i = Some t -> forall ev,
         trade_event W od (idx + i) t ev -> P ev) ->
    emits P (settle_loop W cfg cls od idx trades).
Proof.
  induction trades as [|t rest IH]; intros idx HP; cbn [settle_loop].
  - emits_split.
  - apply emits_bind.
    + eapply emits_weaken; [|apply settle_trade_emits].
      intros ev Hev. apply (HP 0%nat t); [reflexivity|].
      rewrite Nat.add_0_r. exact Hev.
    + intros r. apply emits_bind; [|intros ?; emits_split].
      apply IH. intros i t' Hi ev Hev.
      apply (HP (S i) t'); [exact Hi|].
      rewrite Nat.add_succ_r. exact Hev.
Qed.

Lemma settle_trades_if_any_emits od :
  emits (settlement_event W od) (settle_trades_if_any W cfg cls od).
Proof.
  unfold settle_trades_if_any.
  destruct (od_trades od) as [|t0 rest] eqn:E; [emits_split|].
  apply emits_try; [|intros ?; emits_split].
  apply emits_bind; [|intros ?; emits_split].
  apply settle_loop_emits. intros i t Hi ev Hev.
  exists i, t. split; [rewrite E; exact Hi|exact Hev].
Qed.

Lemma settle_trades_if_any_routed_emits same od :
  emits (settlement_event W od) (settle_trades_if_any_routed W cfg cls same od).
Proof.
  unfold settle_trades_if_any_routed, party_from.
  apply emits_try; [|intros ?; emits_split].
  destruct (od_trades od) as [|t0 rest] eqn:E; [emits_split|].
  apply emits_bind; [emits_split|intros [p1|]].
  - apply emits_bind; [emits_split|intros [p2|]]; [|emits_split].
    destruct (negb _); [emits_split|].
    destruct (same && _); [emits_split|].
    destruct (negb same && _); [emits_split|].
    apply settle_trades_if_any_emits.
  - apply emits_bind; [emits_split|intros [p2|]]; emits_split.
Qed.

End OrchestratorFacts.

Section PreflightFacts.

Variable W : World.
Variable cfg : Config.
Variable cls : client_class.

Lemma settle_trade_prepared od idx t h p es0 :
  prepare_trade W cfg od t h = (Val (inr p), es0) ->
  settle_trade W cfg cls od idx t h
  = (result (settle_prepared W cls od idx t p) (h ++ es0),
     es0 ++ calls (settle_prepared W cls od idx t p) (h ++ es0)).
Proof.
  intros Hp. unfold settle_trade, bind, result, calls. rewrite Hp.
  destruct (settle_prepared W cls od idx t p (h ++ es0)). reflexivity.
Qed.


(** The loop issues the calls of its iterations, one after the other. *)
Lemma settle_loop_iterations od trades :
  forall idx h,
    calls (settle_loop W cfg cls od idx trades) h
    = concat (iterations W cfg cls od idx trades h).
Proof.
  induction trades as [|t rest IH]; intros idx h; [reflexivity|].
  cbn [settle_loop iterations]. unfold result, calls, bind.
  destruct (settle_trade W cfg cls od idx t h) as [[r|e] es] eqn:E;
    cbn [fst snd concat].
  - rewrite <- IH. unfold calls.
    destruct (settle_loop W cfg cls od (S idx) rest (h ++ es)) as [[rs|e] es'];
      unfold ret; cbn [fst snd]; rewrite ?app_nil_r; reflexivity.
  - rewrite app_nil_r. reflexivity.
Qed.

Lemma settle_trades_if_any_iterations od h :
  calls (settle_trades_if_any W cfg cls od) h
  = concat (iterations W cfg cls od 0 (od_trades od) h).
Proof.
  unfold settle_trades_if_any.
  destruct (od_trades od) as [|t0 rest] eqn:E; [reflexivity|].
  rewrite <- settle_loop_iterations.
  unfold calls, try_except, bind.
  destruct (settle_loop W cfg cls od 0 (t0 :: rest) h) as [[rs|e] es]; cbn;
    rewrite app_nil_r; reflexivity.
Qed.

(** Each iteration is the run of [settle_trade] for the trade at its
    index. *)
Lemma iterations_lookup od trades :
  forall idx h i seg,
    iterations W cfg cls od idx trades h !! i = Some seg ->
    exists t h',
      trades !! i = Some t
      /\ seg = calls (settle_trade W cfg cls od (idx + i) t) h'.
Proof.
  induction trades as [|t rest IH]; intros idx h i seg; [discriminate|].
  cbn [iterations].
  destruct (result (settle_trade W cfg cls od idx t) h) as [r|e].
  - destruct i as [|i]; cbn.
    + intros [= <-]. exists t, h. rewrite Nat.add_0_r. auto.
    + intros Hi. destruct (IH _ _ _ _ Hi) as (t' & h' & Ht' & ->).
      exists t', h'. rewrite Nat.add_succ_r. auto.
  - destruct i as [|i]; cbn; [|discriminate].
    intros [= <-]. exists t, h. rewrite Nat.add_0_r. auto.
Qed.

End PreflightFacts.



(** C4 : for a trade the orchestrator has prepared (its names ASCII
    text, its amounts in the range of [float]), nothing is submitted
    before the two escrow comparisons, and the comparisons are made on
    [float]s: the ask party's available base escrow as the client of the
    source network reports it against [float(trade.quantity)], then the
    bid party's available quote escrow as the client of the destination
    network reports it against [float(quantity) * float(price)]; a
    reported amount below the required one ends the trade with
    [insufficient_ask_base_escrow] or [insufficient_bid_quote_escrow],
    carrying both amounts, and with no submission.  The reported amount
    is the quotient of the balance by 10^18 rounded to a [float]: an
    escrow of [10 ^ 18 - 1] base units, which is less than 1 token, is
    reported as 1.0, and the trade of 1 token of an ask party that holds
    it is submitted and counted as settled. *)
Theorem preflight_compares_rounded_amounts :
  (forall W cfg cls od idx t h p es0,
      plain_trade od t = true ->
      prepare_trade W cfg od t h = (Val (inr p), es0) ->
      let h1 := h ++ es0 in
      let run := settle_trade W cfg cls od idx t h in
      Forall (fun ev => is_submission ev = false) es0
      /\ (ltb (ask_available W p h1) (needed_base t) = true ->
          run = (Val (failure "insufficient_ask_base_escrow"
                        (Some (DetailsAmounts (needed_base t)
                                 (ask_available W p h1)))),
                 es0 ++ [ask_check p]))
      /\ (ltb (ask_available W p h1) (needed_base t) = false ->
          ltb (bid_available W p h1) (needed_quote t) = true ->
          run = (Val (failure "insufficient_bid_quote_escrow"
                        (Some (DetailsAmounts (needed_quote t)
                                 (bid_available W p h1)))),
                 es0 ++ [ask_check p; bid_check p]))
      /\ (forall ev,
             In ev (snd run) -> is_submission ev = true ->
             ltb (ask_available W p h1) (needed_base t) = false
             /\ ltb (bid_available W p h1) (needed_quote t) = false
             /\ exists rest, snd run = es0 ++ ask_check p :: bid_check p :: rest))
  /\ plain_trade unit_order_dict unit_trade = true
  /\ (forall h rpc addr,
         checkEscrowBalance short_ask_world h rpc addr alice hbar_hedera
         = Val ((10 ^ 18 - 1)%Z, (10 ^ 18 - 1)%Z, 0%Z))
  /\ (inject_Z (10 ^ 18 - 1) / inject_Z (10 ^ 18) < t_quantity unit_trade)%Q
  /\ div_pow10 (10 ^ 18 - 1) 18 = needed_base unit_trade
  /\ exists results es a,
       settle_trades_if_any short_ask_world sample_cfg SettlementClientSame
         unit_order_dict []
       = (Val {| si_settled := true; si_reason := None; si_error := None;
                 si_settlement_results := Some results;
                 si_total_trades := Some 1%nat;
                 si_successful_settlements := Some 1%nat |}, es)
       /\ filter (fun ev => is_submission ev = true) es
          = [EvSettleSameChainTrade hedera_client a]
       /\ sa_party1 a = alice
       /\ sa_base_asset a = hbar_hedera
       /\ sa_quantity a = t_quantity unit_trade.
Proof.
  split; [|split; [vm_compute; reflexivity|split; [|split; [|split]]]].
  - intros W cfg cls od idx t h p es0 _ Hp h1 run.
    assert (run = (result (settle_prepared W cls od idx t p) h1,
                   es0 ++ calls (settle_prepared W cls od idx t p) h1)) as Hrun
      by (apply settle_trade_prepared; exact Hp).
    split; [|split; [|split]].
    + pose proof (prepare_trade_emits W cfg
                    (fun ev => is_submission ev = false) od t
                    (fun _ => eq_refl) (fun _ => eq_refl) h) as Hem.
      unfold calls in Hem. rewrite Hp in Hem. exact Hem.
    + intros Ha. rewrite Hrun. unfold result, calls.
      rewrite (settle_prepared_ask_insufficient W cls od idx t p h1 Ha).
      reflexivity.
    + intros Ha Hb. rewrite Hrun. unfold result, calls.
      rewrite (settle_prepared_bid_insufficient W cls od idx t p h1 Ha Hb).
      reflexivity.
    + intros ev Hin Hsub. rewrite Hrun in Hin |- *. cbn [snd] in Hin |- *.
      apply in_app_or in Hin.
      assert (Forall (fun ev => is_submission ev = false) es0) as Hes0.
      { pose proof (prepare_trade_emits W cfg
                      (fun ev => is_submission ev = false) od t
                      (fun _ => eq_refl) (fun _ => eq_refl) h) as Hem.
        unfold calls in Hem. rewrite Hp in Hem. exact Hem. }
      destruct Hin as [Hin|Hin].
      { rewrite List.Forall_forall in Hes0. specialize (Hes0 ev Hin).
        congruence. }
      unfold calls in Hin |- *.
      destruct (ltb (ask_available W p h1) (needed_base t)) eqn:Ea.
      { rewrite (settle_prepared_ask_insufficient W cls od idx t p h1 Ea) in Hin.
        cbn in Hin. destruct Hin as [<-|[]]. discriminate. }
      destruct (ltb (bid_available W p h1) (needed_quote t)) eqn:Eb.
      { rewrite (settle_prepared_bid_insufficient W cls od idx t p h1 Ea Eb)
          in Hin.
        cbn in Hin. destruct Hin as [<-|[<-|[]]]; discriminate. }
      split; [reflexivity|]. split; [reflexivity|].
      rewrite (settle_prepared_sufficient W cls od idx t p h1 Ea Eb).
      eexists. reflexivity.
  - intros h rpc addr. reflexivity.
  - vm_compute. reflexivity.
  - vm_compute. reflexivity.
  - vm_compute. eexists _, _, _. repeat split.
Qed.

Section NormalisationFacts.

Variable W : World.
Variable cfg : Config.
Variable cls : client_class.
Variable answer : history -> option string -> string -> res Z.




End NormalisationFacts.



Section ReadOperations.

Variable W : World.

(** C9 : the read operations of [SettlementClientSame] always return:
    [check_escrow_balance] a dict, which is the error dict whenever its
    [try] block raised; [get_user_nonce] an integer, 0 whenever its block
    raised; [get_token_decimals] an integer, 18 whenever its block raised.
    Hence the retry loops around them stop at the first attempt. *)
Theorem read_operations_total
    (c : client) (user token : string) (d : Z) (h : history) :
  (exists b,
      result (check_escrow_balance W c user token d) h = Val b
      /\ (forall e,
             result (check_escrow_balance_try W c user token d)
               (h ++ [EvCheckEscrowBalance c user token d]) = Exc e ->
             b = balance_error (str_exn e))
      /\ (forall b',
             result (check_escrow_balance_try W c user token d)
               (h ++ [EvCheckEscrowBalance c user token d]) = Val b' ->
             b = b' /\ bi_error b = None))
  /\ (exists n,
         result (get_user_nonce W c user token) h = Val n
         /\ (forall e,
                result (get_user_nonce_try W c user token)
                  (h ++ [EvGetUserNonce c user token]) = Exc e -> n = 0%Z))
  /\ (exists n,
         result (get_token_decimals W c token) h = Val n
         /\ (forall e,
                result (get_token_decimals_try W c token)
                  (h ++ [EvGetTokenDecimals c token]) = Exc e -> n = 18%Z))
  /\ (forall attempts d0,
         decimals_attempts W (S attempts) c token d0 h
         = get_token_decimals W c token h)
  /\ (forall attempts,
         _retry_get_nonce W (S attempts) c user token h
         = get_user_nonce W c user token h).
Proof.
  repeat split.
  - unfold check_escrow_balance, check_escrow_balance_try. run.
    destruct (to_checksum_address W user); cbn;
      [destruct (to_checksum_address W token); cbn|];
      [destruct (checkEscrowBalance W _ _ _ _ _) as [[[tot av] lk]|e]; cbn| |];
      eexists; (split; [reflexivity|]); split; intros; simplify_eq; auto.
  - unfold get_user_nonce, get_user_nonce_try. run.
    destruct (to_checksum_address W user); cbn;
      [destruct (to_checksum_address W token); cbn|];
      [destruct (getUserNonce W _ _ _ _ _) as [n|e]; cbn| |];
      eexists; (split; [reflexivity|]); intros; simplify_eq; auto.
  - unfold get_token_decimals, get_token_decimals_try. run.
    destruct (to_checksum_address W token); cbn;
      [destruct (decimals W _ _ _) as [n|e]; cbn|];
      eexists; (split; [reflexivity|]); intros; simplify_eq; auto.
  - intros attempts d0. cbn [decimals_attempts].
    unfold get_token_decimals, get_token_decimals_try. run.
    destruct (to_checksum_address W token); cbn;
      [destruct (decimals W _ _ _) as [n|e]; cbn|]; reflexivity.
  - intros attempts. cbn [_retry_get_nonce].
    unfold get_user_nonce, get_user_nonce_try. run.
    destruct (to_checksum_address W user); cbn;
      [destruct (to_checksum_address W token); cbn|];
      [destruct (getUserNonce W _ _ _ _ _) as [n|e]; cbn| |]; reflexivity.
Qed.

End ReadOperations.

(* ================================================================== *)
(** ** The escrow validator and order admission                        *)
(* ================================================================== *)

Section ValidatorFacts.

Variable W : World.
Variable cfg : Config.
Variable cls : client_class.

Lemma balance_attempts_run attempts c acct token d :
  forall current h,
  exists b es,
    balance_attempts W attempts c acct token d current h = (Val b, es)
    /\ Forall (fun ev => ev = EvCheckEscrowBalance c acct token d) es
    /\ (attempts = O -> b = current)
    /\ (attempts <> O -> exists h', b = balance_at W c acct token d h').
Proof.
  induction attempts as [|n IH]; intros current h; cbn [balance_attempts].
  - exists current, []. repeat split; auto. intros []. reflexivity.
  - unfold bind at 1, try_except. rewrite check_escrow_balance_run.
    destruct (bi_error (balance_at W c acct token d h)) as [msg|] eqn:E.
    + destruct (IH (balance_at W c acct token d h)
                  (h ++ [EvCheckEscrowBalance c acct token d]))
        as (b & es & Hrun & Hes & H0 & Hn).
      rewrite Hrun. eexists _, _. split; [reflexivity|].
      split; [constructor; [reflexivity|exact Hes]|].
      split; [discriminate|]. intros _.
      destruct n as [|n'].
      * exists h. apply H0. reflexivity.
      * apply Hn. discriminate.
    + unfold ret. eexists _, _. split; [reflexivity|].
      split; [repeat constructor|]. split; [discriminate|].
      intros _. exists h. reflexivity.
Qed.

Lemma validate_order_prerequisites_run (order_data : payload) (h : history) :
  let is_ask := streq (lower (pl_side order_data)) "ask" in
  let from_network :=
    lower (or_str (pl_from_network order_data) (pl_fromNetwork order_data)) in
  let asset :=
    if is_ask then pl_baseAsset order_data else pl_quoteAsset order_data in
  let token := get_token_address cfg asset (Some from_network) in
  let rpc := (SUPPORTED_NETWORKS cfg !! from_network) ≫= cfg_rpc in
  let required :=
    if is_ask then to_float (pl_quantity order_data)
    else fmul (to_float (pl_quantity order_data))
              (to_float (pl_price order_data)) in
  exists v es,
    validate_order_prerequisites W cfg order_data h = (Val v, es)
    /\ Forall (validation_event (pl_account order_data) token rpc) es
    /\ (v_valid v = true -> exists cks, v_checks v = Some cks)
    /\ forall cks,
         v_checks v = Some cks ->
         ck_required_amount cks = required
         /\ ck_network_key cks = from_network
         /\ ck_token cks = token
         /\ ck_rpc cks = rpc
         /\ (exists c h',
                web3_provider c = rpc
                /\ ck_available_escrow cks
                   = available_at W c (pl_account order_data) token
                       (ck_token_decimals cks) h')
         /\ (ltb (ck_available_escrow cks) required = true ->
             v_valid v = false
             /\ v_errors v
                = [InsufficientEscrow required (ck_available_escrow cks)])
         /\ (ltb (ck_available_escrow cks) required = false -> v_valid v = true).
Proof.
  intros is_ask from_network asset token rpc required.
  unfold validate_order_prerequisites.
  fold is_ask. fold from_network.
  replace (if is_ask
           then get_token_address cfg (pl_baseAsset order_data) (Some from_network)
           else get_token_address cfg (pl_quoteAsset order_data) (Some from_network))
    with token by (unfold token, asset; destruct is_ask; reflexivity).
  fold required.
  destruct (negb (token_configured token)).
  { unfold try_except, ret. eexists _, _. split; [reflexivity|].
    split; [constructor|]. split; discriminate. }
  unfold try_except. unfold bind at 1.
  rewrite SettlementClientSame_init_run.
  destruct (result (SettlementClientSame_init W _ _ _) h) as [c|e] eqn:Ec.
  2:{ unfold ret. cbn. eexists _, _. split; [reflexivity|].
      split; [repeat constructor|]. split; discriminate. }
  apply SettlementClientSame_init_provider in Ec. fold rpc in Ec.
  unfold bind at 1. rewrite decimals_attempts_run.
  unfold bind at 1.
  match goal with
  | |- context [balance_attempts W 4 c ?a ?tok ?d ?cur ?hh] =>
      destruct (balance_attempts_run 4 c a tok d cur hh)
        as (b & es & Hrun & Hes & _ & Hb)
  end.
  rewrite Hrun.
  destruct (Hb ltac:(discriminate)) as [h' ->].
  match goal with
  | |- context [ltb ?x required] => destruct (ltb x required) eqn:Elt
  end.
  - unfold ret. cbn. eexists _, _. split; [reflexivity|].
    split.
    { constructor; [reflexivity|].
      constructor; [split; [reflexivity|exact Ec]|].
      apply Forall_app. split; [|constructor].
      eapply Forall_impl; [exact Hes|]. intros ev ->. cbn. auto. }
    split; [discriminate|].
    intros cks [= <-]. cbn.
    repeat split; auto; try congruence.
    exists c, h'. split; [exact Ec|reflexivity].
  - unfold ret. cbn. eexists _, _. split; [reflexivity|].
    split.
    { constructor; [reflexivity|].
      constructor; [split; [reflexivity|exact Ec]|].
      apply Forall_app. split; [|constructor].
      eapply Forall_impl; [exact Hes|]. intros ev ->. cbn. auto. }
    split; [eauto|].
    intros cks [= <-]. cbn.
    repeat split; auto; try congruence.
    exists c, h'. split; [exact Ec|reflexivity].
Qed.

End ValidatorFacts.

Section AdmissionClaims.

Variable W : World.
Variable cfg : Config.
Variable cls : client_class.

Lemma register_order_rejected have_log have_file (order_data : payload) h v es :
  pl_attach_signature order_data = false ->
  validate_order_prerequisites W cfg order_data h = (Val v, es) ->
  v_valid v = false ->
  register_order W cfg cls have_log have_file order_data h
  = (Val (ValidationFailed (v_errors v) (v_checks v)), es)
  \/ register_order W cfg cls have_log have_file order_data h
     = (Val UseCrossEndpoint, []).
Proof.
  intros Hattach Hrun Hvalid. unfold register_order, try_except.
  rewrite Hattach.
  destruct (truthy _ && truthy _ && negb _); [right; reflexivity|left].
  unfold bind at 1. rewrite Hrun, Hvalid. cbn.
  rewrite app_nil_r. reflexivity.
Qed.

Lemma validation_gate
    (have_log have_file : bool) (order_data : payload) (h : history) :
  let is_ask := streq (lower (pl_side order_data)) "ask" in
  let from_network :=
    lower (or_str (pl_from_network order_data) (pl_fromNetwork order_data)) in
  let asset :=
    if is_ask then pl_baseAsset order_data else pl_quoteAsset order_data in
  let token := get_token_address cfg asset (Some from_network) in
  let rpc := (SUPPORTED_NETWORKS cfg !! from_network) ≫= cfg_rpc in
  let required :=
    if is_ask then to_float (pl_quantity order_data)
    else fmul (to_float (pl_quantity order_data))
              (to_float (pl_price order_data)) in
  exists v es,
    validate_order_prerequisites W cfg order_data h = (Val v, es)
    /\ Forall (validation_event (pl_account order_data) token rpc) es
    /\ (forall cks,
           v_checks v = Some cks ->
           ck_required_amount cks = required
           /\ ck_network_key cks = from_network
           /\ ck_token cks = token
           /\ (exists c h',
                  web3_provider c = rpc
                  /\ ck_available_escrow cks
                     = available_at W c (pl_account order_data) token
                         (ck_token_decimals cks) h')
           /\ ((ck_available_escrow cks < required)%Q ->
               v_valid v = false
               /\ v_errors v
                  = [InsufficientEscrow required (ck_available_escrow cks)]))
    /\ (pl_attach_signature order_data = false ->
        v_valid v = false ->
        (result (register_order W cfg cls have_log have_file order_data) h
         = Val (ValidationFailed (v_errors v) (v_checks v))
         \/ result (register_order W cfg cls have_log have_file order_data) h
            = Val UseCrossEndpoint)
        /\ Forall (fun ev => is_process_order ev = false)
             (calls (register_order W cfg cls have_log have_file order_data) h))
    /\ (forall ev,
           In ev (calls (register_order W cfg cls have_log have_file order_data) h) ->
           is_process_order ev = true ->
           v_valid v = true
           /\ exists cks,
                v_checks v = Some cks
                /\ ~ (ck_available_escrow cks < required)%Q).
Proof.
  intros is_ask from_network asset token rpc required.
  destruct (validate_order_prerequisites_run W cfg order_data h)
    as (v & es & Hrun & Hes & Hsome & Hcks).
  fold is_ask from_network asset token rpc required in Hes, Hcks.
  assert (Forall (fun ev => is_process_order ev = false) es) as Hnp.
  { eapply Forall_impl; [exact Hes|].
    intros [] Hev; try reflexivity; destruct Hev. }
  exists v, es. split; [exact Hrun|]. split; [exact Hes|].
  split; [|split].
  - intros cks Hc.
    destruct (Hcks cks Hc) as (? & ? & ? & ? & ? & Hlt & ?).
    repeat split; auto; apply Hlt, ltb_lt; assumption.
  - intros Hattach Hvalid.
    destruct (register_order_rejected have_log have_file order_data h v es
                Hattach Hrun Hvalid) as [E|E];
      unfold result, calls; rewrite E; cbn; split; auto.
  - intros ev Hin Hproc.
    destruct (v_valid v) eqn:Hvalid.
    + split; [reflexivity|].
      destruct (Hsome eq_refl) as [cks Hc]. exists cks. split; [exact Hc|].
      destruct (Hcks cks Hc) as (_ & _ & _ & _ & _ & Hlt & _).
      intros Hq. apply ltb_lt in Hq. destruct (Hlt Hq). congruence.
    + exfalso. revert Hin. unfold calls, register_order, try_except.
      destruct (pl_attach_signature order_data); [intros []|].
      destruct (truthy _ && truthy _ && negb _); [intros []|].
      unfold bind at 1. rewrite Hrun, Hvalid. cbn. rewrite app_nil_r.
      intros Hin. rewrite List.Forall_forall in Hnp.
      specialize (Hnp ev Hin). congruence.
Qed.

End AdmissionClaims.

(** C7 : an order sent to [register_order] is validated before it is
    handed to the order book.  For a request whose side, network and
    asset names are ASCII text and whose amounts are in the range of
    [float], the validator takes as required amount
    [float(quantity)] for an ask and [float(quantity) * float(price)] for
    a bid, of the base respectively the quote token on the order's
    [from_network]; the available amount is the one the client of that
    network reports for the account and that token; when it is less than
    the required amount the order is rejected with both amounts and
    [process_order] is never called.  The reported amount is the quotient
    of the balance by [10 ** decimals] rounded to a [float]: an escrow of
    [3 * 10 ^ 18 - 1] base units of a token of 18 decimals, which is less
    than 3 tokens, is reported as 3.0, and the ask of 3 tokens of an
    account that holds it is handed to the order book and registered.
    [register_order_cross] compares the balance in base units with the
    quantity: an ask of 5 tokens by an account whose escrow holds 5 base
    units is handed to the order book. *)
Theorem escrow_validation_rounds_amounts :
  (forall W cfg cls have_log have_file order_data h,
      let is_ask := streq (lower (pl_side order_data)) "ask" in
      let from_network :=
        lower (or_str (pl_from_network order_data) (pl_fromNetwork order_data)) in
      let asset :=
        if is_ask then pl_baseAsset order_data else pl_quoteAsset order_data in
      let token := get_token_address cfg asset (Some from_network) in
      let rpc := (SUPPORTED_NETWORKS cfg !! from_network) ≫= cfg_rpc in
      let required :=
        if is_ask then to_float (pl_quantity order_data)
        else fmul (to_float (pl_quantity order_data))
                  (to_float (pl_price order_data)) in
      plain_payload order_data = true ->
      exists v es,
        validate_order_prerequisites W cfg order_data h = (Val v, es)
        /\ Forall (validation_event (pl_account order_data) token rpc) es
        /\ (forall cks,
               v_checks v = Some cks ->
               ck_required_amount cks = required
               /\ ck_network_key cks = from_network
               /\ ck_token cks = token
               /\ (exists c h',
                      web3_provider c = rpc
                      /\ ck_available_escrow cks
                         = available_at W c (pl_account order_data) token
                             (ck_token_decimals cks) h')
               /\ ((ck_available_escrow cks < required)%Q ->
                   v_valid v = false
                   /\ v_errors v
                      = [InsufficientEscrow required (ck_available_escrow cks)]))
        /\ (pl_attach_signature order_data = false ->
            v_valid v = false ->
            (result (register_order W cfg cls have_log have_file order_data) h
             = Val (ValidationFailed (v_errors v) (v_checks v))
             \/ result (register_order W cfg cls have_log have_file order_data) h
                = Val UseCrossEndpoint)
            /\ Forall (fun ev => is_process_order ev = false)
                 (calls (register_order W cfg cls have_log have_file
                           order_data) h))
        /\ (forall ev,
               In ev (calls (register_order W cfg cls have_log have_file
                               order_data) h) ->
               is_process_order ev = true ->
               v_valid v = true
               /\ exists cks,
                    v_checks v = Some cks
                    /\ ~ (ck_available_escrow cks < required)%Q))
  /\ plain_payload ask_payload = true
  /\ (forall h rpc addr user token,
         checkEscrowBalance short_escrow_world h rpc addr user token
         = Val ((3 * 10 ^ 18 - 1)%Z, (3 * 10 ^ 18 - 1)%Z, 0%Z))
  /\ (forall h rpc token, decimals short_escrow_world h rpc token = Val 18%Z)
  /\ (inject_Z (3 * 10 ^ 18 - 1) / Qpower (10 # 1) 18
      < pl_quantity ask_payload)%Q
  /\ (exists cks od es,
         register_order short_escrow_world sample_cfg SettlementClientSame
           false false ask_payload []
         = (Val (Registered od None None (Some cks) (unsettled None None)), es)
         /\ ck_token cks = hbar_hedera
         /\ ck_token_decimals cks = 18%Z
         /\ ck_required_amount cks = 3%Q
         /\ ck_available_escrow cks = 3%Q
         /\ filter (fun ev => is_process_order ev = true) es
            = [EvProcessOrder "HBAR_USDT" (quote_of_payload ask_payload)])
  /\ (forall h rpc s u t,
         cross_checkEscrowBalance
           (sample_world 5 (Val 18%Z) None 1 "aa" sample_cross_trades)
           h rpc s u t
         = Val (5%Z, 5%Z, 0%Z))
  /\ cross_amount sample_cross_body = 5%Q
  /\ Exists (fun ev => is_process_order ev = true)
       (calls (register_order_cross
                 (sample_world 5 (Val 18%Z) None 1 "aa" sample_cross_trades)
                 sample_cfg sample_cross_body) []).
Proof.
  split; [|split; [vm_compute; reflexivity|
                   split; [|split; [|split; [|split; [|split; [|split]]]]]]].
  - intros W cfg cls have_log have_file order_data h
           is_ask from_network asset token rpc required _.
    apply validation_gate.
  - intros h rpc addr user token. reflexivity.
  - intros h rpc token. reflexivity.
  - vm_compute. reflexivity.
  - vm_compute. eexists _, _, _. repeat split.
  - intros h rpc s u t. reflexivity.
  - vm_compute. reflexivity.
  - vm_compute. right. right. left. reflexivity.
Qed.



(* ================================================================== *)
(** ** Settlement outcome, rollback and the trade records              *)
(* ================================================================== *)

Section RollbackFacts.

Variable W : World.
Variable cfg : Config.
Variable cls : client_class.

Lemma settlement_event_quiet od ev : settlement_event W od ev -> quiet ev.
Proof. intros (idx & t & _ & Hev). destruct Hev; split; reflexivity. Qed.

Lemma settle_loop_length od trades :
  forall idx h rs es,
    settle_loop W cfg cls od idx trades h = (Val rs, es) ->
    length rs = length trades.
Proof.
  induction trades as [|t rest IH]; intros idx h rs es; cbn [settle_loop].
  - unfold ret. intros [= <- _]. reflexivity.
  - unfold bind at 1.
    destruct (settle_trade W cfg cls od idx t h) as [[r|e] es1]; [|discriminate].
    unfold bind at 1.
    destruct (settle_loop W cfg cls od (S idx) rest (h ++ es1))
      as [[rs'|e] es2] eqn:E; [|discriminate].
    unfold ret. cbn. intros [= <- _]. cbn. f_equal. eapply IH. exact E.
Qed.

Lemma unsettled_well_shaped od reason error :
  well_shaped od (unsettled reason error).
Proof. intros H. discriminate. Qed.

Lemma settle_trades_if_any_shape od h :
  exists info es,
    settle_trades_if_any W cfg cls od h = (Val info, es) /\ well_shaped od info.
Proof.
  unfold settle_trades_if_any.
  destruct (od_trades od) as [|t0 rest] eqn:E.
  { eexists _, _. split; [reflexivity|]. apply unsettled_well_shaped. }
  unfold try_except, bind.
  destruct (settle_loop W cfg cls od 0 (t0 :: rest) h) as [[rs|e] es] eqn:El.
  - unfold ret. cbn. eexists _, _. split; [reflexivity|].
    intros _. exists rs. cbn. repeat split.
    rewrite E. eapply settle_loop_length. exact El.
  - unfold ret. cbn. eexists _, _. split; [reflexivity|].
    apply unsettled_well_shaped.
Qed.

Lemma settle_trades_if_any_routed_shape same od h :
  exists info es,
    settle_trades_if_any_routed W cfg cls same od h = (Val info, es)
    /\ well_shaped od info.
Proof.
  unfold settle_trades_if_any_routed, party_from.
  destruct (od_trades od) as [|t0 rest] eqn:E.
  { eexists _, _. split; [reflexivity|]. apply unsettled_well_shaped. }
  destruct (settle_trades_if_any_shape od h) as (info & es & Hrun & Hs).
  destruct (p_len (t_party1 t0) =? 0)%nat, (5 <? p_len (t_party1 t0))%nat,
    (p_len (t_party2 t0) =? 0)%nat, (5 <? p_len (t_party2 t0))%nat,
    (p_from_network (t_party1 t0)) as [p1|],
    (p_from_network (t_party2 t0)) as [p2|];
    try (eexists _, _; split; [reflexivity|apply unsettled_well_shaped]).
  unfold try_except, bind, ret.
  destruct (negb (truthy p1 && truthy p2)),
    (same && negb (bool_decide (chain_id_of cfg p1 = chain_id_of cfg p2))),
    (negb same && bool_decide (chain_id_of cfg p1 = chain_id_of cfg p2));
    try (eexists _, _; split; [reflexivity|apply unsettled_well_shaped]);
    rewrite !app_nil_r, Hrun;
    (eexists _, _; split; [reflexivity|exact Hs]).
Qed.

Lemma wait_for_emits {A} (P : event -> Prop) (m : M A) :
  emits P m -> P EvSettlementAbandoned -> emits P (wait_for W m).
Proof.
  intros Hm Hab h. unfold calls, wait_for.
  specialize (Hm h). unfold calls in Hm.
  destruct (m h) as [r es]. cbn in Hm.
  destruct (wait_for_budget W h) as [k|]; [|exact Hm].
  destruct (k <? length es)%nat; [|exact Hm].
  cbn. apply Forall_app. split; [apply Forall_take; exact Hm|].
  repeat constructor. exact Hab.
Qed.

Lemma run_settlement_emits od :
  emits quiet (run_settlement W cfg cls od).
Proof.
  unfold run_settlement.
  apply emits_try; [|intros ?; emits_split].
  apply emits_bind; [emits_split|intros _].
  apply emits_try; [|intros []; emits_split].
  apply wait_for_emits; [|split; reflexivity].
  eapply emits_weaken; [apply settlement_event_quiet|].
  apply settle_trades_if_any_routed_emits.
Qed.

Lemma run_settlement_result od h :
  exists info,
    result (run_settlement W cfg cls od) h = Val info /\ well_shaped od info.
Proof.
  unfold result, run_settlement. unfold try_except at 1.
  unfold bind at 1. unfold call.
  destruct (getenv_SETTLEMENT_SYNC_TIMEOUT W) as [s|e]; cbn.
  2:{ eexists. split; [reflexivity|]. apply unsettled_well_shaped. }
  rewrite app_nil_r.
  unfold try_except, wait_for.
  destruct (settle_trades_if_any_routed_shape true od h)
    as (info & es & Hrun & Hs).
  unfold settle_trades_if_any_same. rewrite Hrun.
  destruct (wait_for_budget W h) as [k|].
  - destruct (k <? length es)%nat; cbn.
    + eexists. split; [reflexivity|]. apply unsettled_well_shaped.
    + eexists. split; [reflexivity|]. exact Hs.
  - cbn. eexists. split; [reflexivity|]. exact Hs.
Qed.

Lemma run_settlement_shape od h :
  exists info es,
    run_settlement W cfg cls od h = (Val info, es)
    /\ well_shaped od info /\ Forall quiet es.
Proof.
  destruct (run_settlement_result od h) as (info & Hr & Hs).
  pose proof (run_settlement_emits od h) as Hq.
  unfold result, calls in *.
  destruct (run_settlement W cfg cls od h) as [r es]. cbn in *. subst r.
  exists info, es. repeat split; assumption.
Qed.

End RollbackFacts.

Section RollbackClaims.

Variable W : World.
Variable cfg : Config.
Variable cls : client_class.

Lemma filter_length_all {A} (P : A -> Prop) `{forall x, Decision (P x)}
    (l : list A) :
  length (filter P l) = length l <-> Forall P l.
Proof.
  induction l as [|a l IH].
  - split; [constructor|reflexivity].
  - rewrite filter_cons. destruct (decide (P a)) as [Ha|Ha].
    + change (length (a :: filter P l)) with (S (length (filter P l))).
      change (length (a :: l)) with (S (length l)). split.
      * intros [= Hl]. constructor; [exact Ha|apply IH, Hl].
      * intros Hall. inversion Hall; subst. f_equal. apply IH. assumption.
    + change (length (a :: l)) with (S (length l)). split.
      * intros Hl. pose proof (length_filter P l) as Hle.
        rewrite Hl in Hle. lia.
      * intros Hall. inversion Hall; subst. contradiction.
Qed.

Lemma successful_count_le rs : (successful_count rs <= length rs)%nat.
Proof. unfold successful_count. apply length_filter. Qed.

Lemma successful_count_all rs :
  successful_count rs = length rs <->
  Forall (fun e => sr_success (snd e) = true) rs.
Proof. unfold successful_count. apply filter_length_all. Qed.

Lemma settlement_ok_all_settled od info :
  well_shaped od info ->
  settlement_ok info (od_trades od) = true <-> all_settled info od.
Proof.
  intros Hs. unfold settlement_ok, all_settled. split.
  - intros Hok. apply andb_true_iff in Hok as [Hsettled Hle].
    split; [exact Hsettled|].
    destruct (Hs Hsettled) as (rs & Hrs & Hlen & Hcount).
    exists rs. repeat split; auto.
    rewrite Hcount in Hle. cbn in Hle. apply Nat.leb_le in Hle.
    apply successful_count_all.
    pose proof (successful_count_le rs). lia.
  - intros (Hsettled & rs & Hrs & Hlen & Hall).
    destruct (Hs Hsettled) as (rs' & Hrs' & _ & Hcount).
    rewrite Hrs in Hrs'. injection Hrs' as <-.
    rewrite Hsettled, Hcount. cbn. apply Nat.leb_le.
    apply successful_count_all in Hall. lia.
Qed.

Lemma finalize_failed have_log have_file symbol ord od nb tid vd info h :
  od_trades od <> [] ->
  settlement_ok info (od_trades od) = false ->
  finalize W have_log have_file symbol ord od nb tid vd info h
  = (Val (SettlementFailed info), rollback_calls symbol ord).
Proof.
  intros Hne Hok. unfold finalize, rollback_calls.
  destruct (od_trades od) as [|t0 rest] eqn:E; [contradiction|].
  rewrite Hok. cbn [negb].
  destruct (o_order_id ord =? 0)%Z; cbn [negb].
  - reflexivity.
  - unfold bind, try_except, emit, call, ret. cbn.
    destruct (cancel_order W _ _ _ _) as [[]|e]; reflexivity.
Qed.

Lemma log_activity_emits (P : event -> Prop) have_log have_file a :
  P (EvActivityLog a) -> P (EvAppendFile a) ->
  emits P (log_activity W have_log have_file a).
Proof.
  intros H1 H2. unfold log_activity.
  apply emits_bind; [destruct have_log; emits_split; exact H1|intros _].
  destruct have_file; emits_split. exact H2.
Qed.

Lemma record_trades_emits have_log have_file symbol results trades :
  forall idx,
    emits (fun ev => is_cancel_event ev = false)
      (record_trades W have_log have_file symbol results idx trades).
Proof.
  induction trades as [|tr rest IH]; intros idx; cbn [record_trades].
  - emits_split.
  - apply emits_bind; [|intros _; apply IH].
    destruct (negb _); [emits_split|].
    apply log_activity_emits; reflexivity.
Qed.

Lemma finalize_ok have_log have_file symbol ord od nb tid vd info h :
  settlement_ok info (od_trades od) = true ->
  result (finalize W have_log have_file symbol ord od nb tid vd info) h
  = Val (Registered od nb tid vd info)
  /\ Forall (fun ev => is_cancel_event ev = false)
       (calls (finalize W have_log have_file symbol ord od nb tid vd info) h).
Proof.
  intros Hok. unfold finalize.
  destruct (od_trades od) as [|t0 rest] eqn:E.
  { split; [reflexivity|constructor]. }
  rewrite Hok. cbn [negb].
  pose proof (record_trades_emits have_log have_file symbol
                (default [] (si_settlement_results info)) (t0 :: rest) 0 h) as Hq.
  unfold result, calls, bind, try_except, ret in *.
  destruct (record_trades W _ _ _ _ _ _ h) as [[[]|e] es]; cbn in *;
    rewrite ?app_nil_r; split; auto.
Qed.

(** A request with trades runs the settlement, then [finalize]. *)
Lemma settle_and_finalize_run
    (have_log have_file : bool) (symbol : string) (ord : order)
    (od : order_dict) (nb : option order) (tid : option Z)
    (vd : option checks) (h : history) :
  od_trades od <> [] ->
  exists info es,
    run_settlement W cfg cls od h = (Val info, es)
    /\ well_shaped od info
    /\ Forall quiet es
    /\ settle_and_finalize W cfg cls have_log have_file symbol ord od nb tid vd h
       = (result (finalize W have_log have_file symbol ord od nb tid vd info)
            (h ++ es),
          es ++ calls (finalize W have_log have_file symbol ord od nb tid vd info)
                  (h ++ es)).
Proof.
  intros Hne.
  destruct (run_settlement_shape W cfg cls od h) as (info & es & Hrun & Hs & Hq).
  exists info, es. repeat split; try assumption.
  unfold settle_and_finalize.
  destruct (od_trades od) as [|t0 rest] eqn:E; [contradiction|].
  unfold bind. rewrite Hrun. unfold result, calls.
  destruct (finalize W _ _ _ _ _ _ _ _ _ _). reflexivity.
Qed.

Lemma quiet_no_cancel es :
  Forall quiet es -> filter (fun ev => is_cancel_event ev = true) es = [].
Proof.
  induction es as [|ev es IH]; intros Hq; [reflexivity|].
  inversion Hq as [|? ? [_ Hc] Hq']; subst.
  rewrite filter_cons. destruct (decide _) as [Hd|_]; [congruence|].
  apply IH. exact Hq'.
Qed.

Lemma rollback_calls_no_record symbol ord :
  Forall (fun ev => is_trade_executed_event ev = false)
    (rollback_calls symbol ord).
Proof.
  unfold rollback_calls. destruct (o_order_id ord =? 0)%Z; repeat constructor.
Qed.

Lemma rollback_calls_filter symbol ord :
  filter (fun ev => is_cancel_event ev = true) (rollback_calls symbol ord)
  = rollback_calls symbol ord.
Proof.
  unfold rollback_calls. destruct (o_order_id ord =? 0)%Z; reflexivity.
Qed.

Lemma run_settlement_timeout od h s k :
  getenv_SETTLEMENT_SYNC_TIMEOUT W = Val s ->
  wait_for_budget W h = Some k ->
  (k < length (calls (settle_trades_if_any_same W cfg cls od) h))%nat ->
  result (run_settlement W cfg cls od) h = Val (unsettled (Some "timeout") None).
Proof.
  intros Henv Hb Hk. unfold result, run_settlement.
  unfold try_except at 1. unfold bind at 1. unfold call. rewrite Henv. cbn.
  rewrite app_nil_r. unfold try_except, wait_for. unfold calls in Hk.
  destruct (settle_trades_if_any_same W cfg cls od h) as [r es]. cbn in Hk.
  rewrite Hb. apply Nat.ltb_lt in Hk. rewrite Hk. reflexivity.
Qed.

End RollbackClaims.

(* ================================================================== *)
(** ** Cross-chain sequencing                                          *)
(* ================================================================== *)

Section SequencingFacts.

Variable W : World.

(** Were the client class to define [settle_cross_chain_trade], the
    cross-chain branch of [settle_trades_if_any] would call the source
    chain first and the destination chain only after a successful source
    leg. *)
Lemma settle_cross_chain_gated method p t order_id n1 n2 h :
  let cls := {| cls_settle_cross_chain_trade := Some method |} in
  let a := settle_args_of p t order_id (quote_token_dest p) n1 n2 in
  let src := EvSettleCrossChainTrade (client_source p) a true in
  let dst := EvSettleCrossChainTrade (client_dest p) a false in
  match method (h ++ [src]) (client_source p) a true with
  | Exc e => settle_cross_chain cls p t order_id n1 n2 h = (Exc e, [src])
  | Val result_source =>
      if cr_success result_source
      then calls (settle_cross_chain cls p t order_id n1 n2) h = [src; dst]
      else settle_cross_chain cls p t order_id n1 n2 h
           = (Val {| sr_success := false; sr_error := None; sr_details := None;
                     sr_source_chain := Some result_source;
                     sr_destination_chain := Some source_failed;
                     sr_order_id := None |}, [src])
  end.
Proof.
  intros cls a src dst. unfold settle_cross_chain, settle_cross_chain_trade.
  cbn [cls_settle_cross_chain_trade cls]. fold a. run. fold src.
  destruct (method (h ++ [src]) (client_source p) a true) as [rs|e];
    [|reflexivity].
  destruct (cr_success rs); cbn; [|reflexivity].
  destruct (method _ (client_dest p) a false); reflexivity.
Qed.

(** With the class under src/ the branch stops at the attribute lookup. *)
Lemma settle_cross_chain_no_method p t order_id n1 n2 h :
  settle_cross_chain SettlementClientSame p t order_id n1 n2 h
  = (Exc (AttributeError no_such_method), []).
Proof. reflexivity. Qed.

End SequencingFacts.

Section CrossRegistrationFacts.

Variable W : World.
Variable cfg : Config.

Lemma net_of_silent n : emits (fun _ => False) (net_of cfg n).
Proof. unfold net_of. emits_split. Qed.

Lemma net_rpc_silent n : emits (fun _ => False) (net_rpc cfg n).
Proof. unfold net_rpc, net_of. emits_split. Qed.

Lemma net_contract_address_silent n :
  emits (fun _ => False) (net_contract_address cfg n).
Proof. unfold net_contract_address, net_of. emits_split. Qed.

Lemma net_chain_id_silent n : emits (fun _ => False) (net_chain_id cfg n).
Proof. unfold net_chain_id, net_of. emits_split. Qed.

Lemma net_token_silent n a : emits (fun _ => False) (net_token cfg n a).
Proof. unfold net_token, net_of. emits_split. Qed.

Lemma checksum_silent a : emits (fun _ => False) (checksum W a).
Proof. unfold checksum. emits_split. Qed.

Lemma party1_assets_silent p : emits (fun _ => False) (party1_assets cfg p).
Proof.
  unfold party1_assets, net_token_tokens.
  destruct (streq _ _).
  - apply emits_bind; [apply net_token_silent|intros ?].
    apply emits_bind; [apply net_token_silent|intros ?]. emits_split.
  - apply emits_bind; [|intros ?; emits_split].
    apply emits_bind; [apply net_token_silent|intros ?]. emits_split.
Qed.

Lemma party2_assets_silent p : emits (fun _ => False) (party2_assets cfg p).
Proof.
  unfold party2_assets.
  destruct (streq _ _);
    (apply emits_bind; [apply net_token_silent|intros ?]);
    (apply emits_bind; [apply net_token_silent|intros ?]); emits_split.
Qed.

Lemma SettlementClientCross_init_emits rpc key :
  emits (fun ev => ev = EvCrossConnect rpc)
    (SettlementClientCross_init W rpc key).
Proof.
  unfold SettlementClientCross_init.
  destruct (negb _); [emits_split|].
  apply emits_bind; [emits_split; reflexivity|intros _].
  apply emits_bind; [emits_split|intros connected].
  destruct (negb connected); [emits_split|].
  destruct key; emits_split.
Qed.

Lemma no_cross_submissions (P : event -> Prop) es :
  (forall ev, P ev -> is_submission ev = false) ->
  Forall P es -> cross_submissions es = [].
Proof.
  intros HP Hes. unfold cross_submissions.
  induction Hes as [|ev es Hev _ IH]; [reflexivity|].
  cbn. rewrite IH. specialize (HP ev Hev).
  destruct ev; try reflexivity. discriminate.
Qed.

Lemma cross_settle_calls c addr td b h r es :
  cross_settle_cross_chain_trade W c addr td b h = (r, es) ->
  es = [EvCrossSettle c addr td b].
Proof.
  unfold cross_settle_cross_chain_trade. run.
  destruct (to_checksum_address W addr); cbn.
  - destruct (cross_settleCrossChainTrade W _ _ _ _ _); intros [= _ <-]; reflexivity.
  - intros [= _ <-]. reflexivity.
Qed.

(** Lines 738-772: when both legs return, the source call was issued
    first and the destination call second, whatever the source receipt
    says. *)
Lemma submit_cross_trade_calls td source_chain dest_chain h r es :
  submit_cross_trade W cfg td source_chain dest_chain h = (Val r, es) ->
  cross_submissions es = [(td, true); (td, false)].
Proof.
  intros H. unfold submit_cross_trade in H.
  apply bind_inv in H as (source_rpc & e1 & e1' & H1 & H & ->).
  apply (silent _ _ _ _ (net_rpc_silent _)) in H1; subst.
  apply bind_inv in H as (cs & e2 & e2' & H2 & H & ->).
  pose proof (SettlementClientCross_init_emits source_rpc (PRIVATE_KEY cfg)
                (h ++ [])) as Hc2.
  unfold calls in Hc2. rewrite H2 in Hc2. cbn in Hc2.
  apply bind_inv in H as (dest_rpc & e3 & e3' & H3 & H & ->).
  apply (silent _ _ _ _ (net_rpc_silent _)) in H3; subst.
  apply bind_inv in H as (cd & e4 & e4' & H4 & H & ->).
  pose proof (SettlementClientCross_init_emits dest_rpc (PRIVATE_KEY cfg)
                (((h ++ []) ++ e2) ++ [])) as Hc4.
  unfold calls in Hc4. rewrite H4 in Hc4. cbn in Hc4.
  apply bind_inv in H as (sa & e5 & e5' & H5 & H & ->).
  apply (silent _ _ _ _ (net_contract_address_silent _)) in H5; subst.
  apply bind_inv in H as (rs & e6 & e6' & H6 & H & ->).
  apply cross_settle_calls in H6; subst.
  apply bind_inv in H as (da & e7 & e7' & H7 & H & ->).
  apply (silent _ _ _ _ (net_contract_address_silent _)) in H7; subst.
  apply bind_inv in H as (rd & e8 & e8' & H8 & H & ->).
  apply cross_settle_calls in H8; subst.
  unfold ret in H. injection H as _ <-.
  unfold cross_submissions. cbn [app]. rewrite !omap_app.
  fold (cross_submissions e2). fold (cross_submissions e4).
  assert (cross_submissions e2 = []) as ->
    by (eapply no_cross_submissions; [|exact Hc2]; intros ? ->; reflexivity).
  assert (cross_submissions e4 = []) as ->
    by (eapply no_cross_submissions; [|exact Hc4]; intros ? ->; reflexivity).
  reflexivity.
Qed.

(** Lines 576-736: the only call made while the trade data is built is
    the draw from the random source; the id is that draw, the price the
    price of the request. *)
Lemma build_trade_data_fields body t h td source_chain dest_chain es :
  build_trade_data W cfg body t h = (Val (td, source_chain, dest_chain), es) ->
  es = [EvTokenHex]
  /\ td_orderId td = "0x" +:+ token_hex_32 W (h ++ [EvTokenHex])
  /\ td_price td = to_wei (cb_price body)
  /\ td_quantity td = to_wei (xt_quantity t).
Proof.
  intros H. unfold build_trade_data in H.
  apply bind_inv in H as ([b1 q1] & e1 & e1' & H1 & H & ->).
  apply (silent _ _ _ _ (party1_assets_silent _)) in H1; subst e1.
  apply bind_inv in H as ([b2 q2] & e2 & e2' & H2 & H & ->).
  apply (silent _ _ _ _ (party2_assets_silent _)) in H2; subst e2.
  apply bind_inv in H as ([[[sp dp] ba] qa] & e3 & e3' & H3 & H & ->).
  assert (e3 = []) as ->.
  { destruct (streq _ _ && streq _ _) in H3;
      [|destruct (streq _ _ && streq _ _) in H3];
      unfold ret, raise in H3; congruence. }
  clear H3.
  apply bind_inv in H as ([] & e4 & e4' & H4 & H & ->).
  unfold emit in H4. injection H4 as <-.
  apply bind_inv in H as (tok & e5 & e5' & H5 & H & ->).
  unfold ask in H5. injection H5 as <- <-.
  apply bind_inv in H as (p1 & e6 & e6' & H6 & H & ->).
  apply (silent _ _ _ _ (checksum_silent _)) in H6; subst e6.
  apply bind_inv in H as (p2 & e7 & e7' & H7 & H & ->).
  apply (silent _ _ _ _ (checksum_silent _)) in H7; subst e7.
  apply bind_inv in H as (r1 & e8 & e8' & H8 & H & ->).
  apply (silent _ _ _ _ (checksum_silent _)) in H8; subst e8.
  apply bind_inv in H as (r2 & e9 & e9' & H9 & H & ->).
  apply (silent _ _ _ _ (checksum_silent _)) in H9; subst e9.
  apply bind_inv in H as (tb & e10 & e10' & H10 & H & ->).
  apply (silent _ _ _ _ (checksum_silent _)) in H10; subst e10.
  apply bind_inv in H as (tq & e11 & e11' & H11 & H & ->).
  apply (silent _ _ _ _ (checksum_silent _)) in H11; subst e11.
  apply bind_inv in H as (sid & e12 & e12' & H12 & H & ->).
  apply (silent _ _ _ _ (net_chain_id_silent _)) in H12; subst e12.
  apply bind_inv in H as (did & e13 & e13' & H13 & H & ->).
  apply (silent _ _ _ _ (net_chain_id_silent _)) in H13; subst e13.
  apply bind_inv in H as (now & e14 & e14' & H14 & H & ->).
  unfold ask in H14. injection H14 as <- <-.
  unfold ret in H. injection H as <- _ _ <-.
  cbn. rewrite !app_nil_r. auto.
Qed.


End CrossRegistrationFacts.

(* ================================================================== *)
(** ** The settlement id and the settlement price                      *)
(* ================================================================== *)

Section IdentifierFacts.

Lemma to_int_not_nil z : Z.to_int z <> Pos Nil /\ Z.to_int z <> Neg Nil.
Proof.
  destruct z as [|p|p]; cbn; split; try discriminate;
    intros [= E]; exact (DecimalPos.Unsigned.to_uint_nonnil _ E).
Qed.

Lemma str_int_inj a b : str_int a = str_int b -> a = b.
Proof.
  unfold str_int. intros E.
  apply (f_equal NilZero.int_of_string) in E.
  destruct (to_int_not_nil a) as [Ha1 Ha2], (to_int_not_nil b) as [Hb1 Hb2].
  rewrite !NilZero.isi in E by assumption.
  injection E as E. apply DecimalZ.to_int_inj. exact E.
Qed.

Lemma append_inj_r (s a b : string) : s +:+ a = s +:+ b -> a = b.
Proof.
  induction s as [|c s IH]; cbn; [auto|]. intros [= E]. apply IH, E.
Qed.

Lemma settlement_id_preimage_index orderId timestamp i j :
  i <> j ->
  settlement_id_preimage orderId timestamp i
  <> settlement_id_preimage orderId timestamp j.
Proof.
  intros Hij E. unfold settlement_id_preimage in E.
  do 4 apply append_inj_r in E.
  apply Hij. apply Nat2Z.inj. apply str_int_inj. exact E.
Qed.

Lemma match_order_maker_price opposite :
  forall incoming tr,
    In tr (fst (fst (match_order incoming opposite))) ->
    exists resting, In resting opposite /\ bt_price tr = bo_price resting.
Proof.
  induction opposite as [|resting rest IH]; intros incoming tr; cbn [match_order].
  - intros [].
  - destruct (negb (ltb 0 (bo_remaining incoming))); [intros []|].
    destruct (negb (crosses incoming resting)); [intros []|].
    destruct (Qeq_bool _ 0).
    + match goal with
      | |- context [match_order ?inc rest] =>
          specialize (IH inc tr);
          destruct (match_order inc rest) as [[trades inc'] rest']
      end.
      cbn. intros [<-|Hin].
      * exists resting. split; [left; reflexivity|reflexivity].
      * destruct (IH Hin) as (r & Hr & Hp). exists r. split; [right|]; assumption.
    + cbn. intros [<-|[]]. exists resting. split; [left|]; reflexivity.
Qed.

End IdentifierFacts.

(* ================================================================== *)
(** ** Claims settled on the sample inputs                             *)
(* ================================================================== *)

(** C2 : on [register_order_cross] the destination-chain call is issued
    although the source-chain transaction was mined with status 0, and the
    request is answered as registered, with no [source_failed] anywhere;
    and on [settle_trades_if_any] a cross-chain trade ends the whole
    settlement in the error of a missing method, without a result for the
    trade. *)
Theorem destination_leg_after_failed_source :
  let W := sample_world (100 * 10 ^ 18) (Val 18%Z) None 0 "aa" sample_cross_trades in
  result (register_order_cross W sample_cfg sample_cross_body) []
  = Val (CrossRegistered (100 * 10 ^ 18) (100 * 10 ^ 18) 0 None None None
           [({| xr_transactionHash := "0x5041"; xr_status := 0 |},
             {| xr_transactionHash := "0xde57"; xr_status := 1 |})])
  /\ map snd (cross_submissions
                (calls (register_order_cross W sample_cfg sample_cross_body) []))
     = [true; false]
  /\ result (settle_trades_if_any W sample_cfg SettlementClientSame
               cross_chain_order_dict) []
     = Val (unsettled None (Some no_such_method))
  /\ Forall (fun ev => is_submission ev = false)
       (calls (settle_trades_if_any W sample_cfg SettlementClientSame
                 cross_chain_order_dict) []).
Proof.
  cbv zeta. split; [vm_compute; reflexivity|].
  split; [vm_compute; reflexivity|].
  split; [vm_compute; reflexivity|].
  vm_compute. repeat constructor.
Qed.

(** C3 : [settle_trades_if_any] issues the calls of its iterations one
    after the other, the iteration at index [i] being the one of the
    trade at index [i], and every settlement submitted in that iteration
    carries as id the first 32 characters of the SHA-256 hex digest of
    ["<order id>:<timestamp of the trade>:<i>"]; that id is the same in
    every world with the same hash function, so retries of one (order id,
    timestamp, index) agree; and different indices give different hash
    inputs.  On [register_order_cross] the id is the draw from the random
    source, whatever the order, the timestamp and the index: two attempts
    for the same request, which differ in nothing but the draw of
    [secrets.token_hex], submit different ids. *)
Theorem cross_registration_draws_settlement_id :
  (forall W cfg cls od h,
      calls (settle_trades_if_any W cfg cls od) h
      = concat (iterations W cfg cls od 0 (od_trades od) h)
      /\ forall i seg,
           iterations W cfg cls od 0 (od_trades od) h !! i = Some seg ->
           exists t h',
             od_trades od !! i = Some t
             /\ seg = calls (settle_trade W cfg cls od i t) h'
             /\ forall ev a,
                  In ev seg -> submitted_args ev = Some a ->
                  sa_order_id a
                  = settlement_order_id W (od_orderId od) (t_timestamp t) i)
  /\ (forall W W' orderId timestamp idx,
         sha256_hexdigest W' = sha256_hexdigest W ->
         settlement_order_id W' orderId timestamp idx
         = settlement_order_id W orderId timestamp idx)
  /\ (forall orderId timestamp i j,
         i <> j ->
         settlement_id_preimage orderId timestamp i
         <> settlement_id_preimage orderId timestamp j)
  /\ (forall W cfg body t h td source_chain dest_chain es,
         build_trade_data W cfg body t h
         = (Val (td, source_chain, dest_chain), es) ->
         td_orderId td = "0x" +:+ token_hex_32 W (h ++ [EvTokenHex]))
  /\ (let ids token :=
        map (fun s => td_orderId (fst s))
          (cross_submissions
             (calls (register_order_cross
                       (sample_world (100 * 10 ^ 18) (Val 18%Z) None 1 token
                          sample_cross_trades)
                       sample_cfg sample_cross_body) [])) in
      ids "aa" = ["0xaa"; "0xaa"]
      /\ ids "bb" = ["0xbb"; "0xbb"]
      /\ ids "aa" <> ids "bb").
Proof.
  split; [|split; [|split; [|split]]].
  - intros W cfg cls od h. split; [apply settle_trades_if_any_iterations|].
    intros i seg Hi.
    destruct (iterations_lookup W cfg cls od _ _ _ _ _ Hi) as (t & h' & Ht & ->).
    exists t, h'. split; [exact Ht|]. split; [reflexivity|].
    intros ev a Hin Ha.
    pose proof (emits_in _ _ _ _ (settle_trade_emits W cfg cls od i t) Hin)
      as Hev.
    destruct Hev; cbn in Ha; try discriminate; injection Ha as <-; assumption.
  - intros W W' orderId timestamp idx E. unfold settlement_order_id.
    rewrite E. reflexivity.
  - apply settlement_id_preimage_index.
  - intros W cfg body t h td sc dc es H.
    apply build_trade_data_fields in H. tauto.
  - cbv zeta. split; [vm_compute; reflexivity|].
    split; [vm_compute; reflexivity|].
    vm_compute. discriminate.
Qed.

Section IdentifierClaims.

Variable W : World.
Variable cfg : Config.
Variable cls : client_class.

(** On [settle_trades_if_any] the price and the quantity submitted for a
    trade are those of the trade (lines 421-422). *)
Lemma settlement_submits_trade_price (od : order_dict) :
  emits (fun ev =>
           forall a, submitted_args ev = Some a ->
           exists idx t,
             od_trades od !! idx = Some t
             /\ sa_price a = to_float (t_price t)
             /\ sa_quantity a = to_float (t_quantity t))
        (settle_trades_if_any W cfg cls od).
Proof.
  eapply emits_weaken; [|apply settle_trades_if_any_emits].
  intros ev (idx & t & Hidx & Hev) a Ha.
  exists idx, t. split; [exact Hidx|].
  destruct Hev; cbn in Ha; try discriminate; injection Ha as <-; auto.
Qed.

End IdentifierClaims.

(** C5 : Bob's bid at 12 rests, Alice's ask at 10 arrives; the trade is
    made at the maker's price 12, and [register_order_cross] submits both
    legs with the price of the request, 10. *)
Theorem cross_registration_submits_request_price :
  let W := sample_world (100 * 10 ^ 18) (Val 18%Z) None 1 "aa" sample_cross_trades in
  map xt_price sample_cross_trades = [bo_price resting_bid]
  /\ bo_price resting_bid = 12%Q /\ cb_price sample_cross_body = 10%Q
  /\ map (fun s => td_price (fst s))
       (cross_submissions
          (calls (register_order_cross W sample_cfg sample_cross_body) []))
     = [to_wei 10; to_wei 10]
  /\ to_wei 10 <> to_wei 12.
Proof.
  cbv zeta. split; [vm_compute; reflexivity|].
  split; [reflexivity|]. split; [reflexivity|].
  split; [vm_compute; reflexivity|].
  vm_compute. discriminate.
Qed.

(** C8 : a bid paid in USDT, whose configured default is 6 decimals, is
    validated while the decimals lookup raises: one lookup is made, the
    decimals used are 18, and the 50 USDT of the account (50000000 units
    of 10^-6), which cover the 30 required, count as 50000000 / 10^18 and
    the order is rejected. *)
Theorem usdt_decimals_fall_back_to_18 :
  let W := sample_world 50000000 (Exc (RpcError "429")) None 1 "aa" [] in
  default_decimals (pl_quoteAsset sample_payload) = 6%Z
  /\ (exists v cks,
         result (validate_order_prerequisites W sample_cfg sample_payload) []
         = Val v
         /\ v_checks v = Some cks
         /\ v_valid v = false
         /\ v_errors v
            = [InsufficientEscrow (ck_required_amount cks)
                 (ck_available_escrow cks)]
         /\ ck_token_decimals cks = 18%Z
         /\ ck_required_amount cks = (3 * 10)%Q
         /\ ck_available_escrow cks = div_pow10 50000000 18)
  /\ length (filter (fun ev => is_decimals_lookup ev = true)
               (calls (validate_order_prerequisites W sample_cfg sample_payload) []))
     = 1%nat
  /\ ltb (div_pow10 50000000 6) (3 * 10) = false.
Proof.
  cbv zeta. split; [reflexivity|].
  split.
  - eexists _, _. split; [vm_compute; reflexivity|].
    split; [reflexivity|]. repeat split; vm_compute; reflexivity.
  - split; vm_compute; reflexivity.
Qed.

(** The sample trade with both escrows funded: one same-chain submission
    under the id of (order 7, timestamp, index 0), at the price and
    quantity of the trade, then one [trade_executed] record in the log and
    one in the file. *)
Example funded_trade_settles :
  let run :=
    settle_and_finalize (sample_world (100 * 10 ^ 18) (Val 18%Z) None 1 "aa" [])
      sample_cfg SettlementClientSame true true "HBAR_USDT" (sample_order 7)
      (sample_order_dict 7) None None None [] in
  (exists info,
      fst run = Val (Registered (sample_order_dict 7) None None None info)
      /\ si_successful_settlements info = Some 1%nat)
  /\ omap submitted_args (snd run)
     = [{| sa_order_id := "7:1700000000:0";
           sa_party1 := alice; sa_party2 := bob;
           sa_party1_receive_wallet := Some alice;
           sa_party2_receive_wallet := Some bob;
           sa_base_asset := "0x66B8244b08be8F4Cec1A23C5c57A1d7b8A27189D";
           sa_quote_asset := "0x62bcF51859E23cc47ddc6C3144B045619476Be92";
           sa_price := 10; sa_quantity := 3;
           sa_party1_side := "ask"; sa_party2_side := "bid";
           sa_source_chain_id := Some 296%Z;
           sa_destination_chain_id := Some 296%Z;
           sa_timestamp := 1700000000; sa_nonce1 := 0; sa_nonce2 := 0 |}]
  /\ filter (fun ev => is_trade_executed_event ev = true) (snd run)
     = [EvActivityLog (trade_executed "HBAR_USDT" 10 3 1700000000
                         (Some "0xfeed") (Some "0xfeed") None);
        EvAppendFile (trade_executed "HBAR_USDT" 10 3 1700000000
                        (Some "0xfeed") (Some "0xfeed") None)].
Proof.
  cbv zeta. split.
  - eexists. split; vm_compute; reflexivity.
  - split; vm_compute; reflexivity.
Qed.

(* ================================================================== *)
(** * Further properties of the code                                  *)
(* ================================================================== *)

Section TokenResolution.

Variable cfg : Config.

Lemma upper_lower_ascii c : upper_ascii (lower_ascii c) = upper_ascii c.
Proof. destruct c as [[] [] [] [] [] [] [] []]; reflexivity. Qed.

Lemma upper_upper_ascii c : upper_ascii (upper_ascii c) = upper_ascii c.
Proof. destruct c as [[] [] [] [] [] [] [] []]; reflexivity. Qed.

Lemma lower_lower_ascii c : lower_ascii (lower_ascii c) = lower_ascii c.
Proof. destruct c as [[] [] [] [] [] [] [] []]; reflexivity. Qed.

Lemma upper_lower s : upper (lower s) = upper s.
Proof. induction s as [|c s IH]; cbn; [|rewrite upper_lower_ascii, IH]; reflexivity. Qed.

Lemma upper_upper s : upper (upper s) = upper s.
Proof. induction s as [|c s IH]; cbn; [|rewrite upper_upper_ascii, IH]; reflexivity. Qed.

Lemma lower_lower s : lower (lower s) = lower s.
Proof. induction s as [|c s IH]; cbn; [|rewrite lower_lower_ascii, IH]; reflexivity. Qed.

Lemma truthy_false s : truthy s = false -> s = "".
Proof. destruct s; [reflexivity|discriminate]. Qed.

(** X1 : an address that [get_token_address] finds for a symbol and a
    network comes from one of three places only: the token map of that
    network under the upper-cased symbol, the legacy map under
    ["<SYMBOL>_<NETWORK>"], or, for the network ["hedera"] alone, the legacy
    map under the upper-cased symbol. *)
Theorem token_address_sources (symbol net a : string) :
  get_token_address cfg symbol (Some net) = a ->
  a <> "" ->
  (exists n toks,
      SUPPORTED_NETWORKS cfg !! net = Some n /\ cfg_tokens n = Some toks
      /\ toks !! upper symbol = Some a)
  \/ (exists legacy,
         TOKEN_ADDRESSES cfg = Some legacy
         /\ legacy !! (upper symbol +:+ "_" +:+ upper net) = Some a)
  \/ (lower net = "hedera"
      /\ exists legacy,
           TOKEN_ADDRESSES cfg = Some legacy /\ legacy !! upper symbol = Some a).
Proof.
  unfold get_token_address. cbn [mbind option_bind default].
  intros E Ha.
  assert (forall x : string,
             match TOKEN_ADDRESSES cfg with
             | Some legacy_map =>
                 if bool_decide (legacy_map = ∅) then ""
                 else match (if truthy (upper net)
                             then legacy_map !! (upper symbol +:+ "_" +:+ upper net)
                             else None) with
                      | Some token_address => token_address
                      | None => if streq (lower net) "hedera"
                                then default "" (legacy_map !! upper symbol)
                                else ""
                      end
             | None => ""
             end = x -> x <> "" ->
             (exists legacy,
                 TOKEN_ADDRESSES cfg = Some legacy
                 /\ legacy !! (upper symbol +:+ "_" +:+ upper net) = Some x)
             \/ (lower net = "hedera"
                 /\ exists legacy,
                      TOKEN_ADDRESSES cfg = Some legacy
                      /\ legacy !! upper symbol = Some x)) as Hlegacy.
  { intros x Ex Hx. destruct (TOKEN_ADDRESSES cfg) as [legacy|]; [|congruence].
    destruct (bool_decide (legacy = ∅)); [congruence|].
    destruct (truthy (upper net)).
    - destruct (legacy !! (upper symbol +:+ "_" +:+ upper net)) as [t|] eqn:Et.
      + subst t. left. exists legacy. auto.
      + destruct (streq (lower net) "hedera") eqn:Eh; [|congruence].
        apply String.eqb_eq in Eh.
        destruct (legacy !! upper symbol) as [t|] eqn:Es; cbn in Ex; [|congruence].
        subst t. right. split; [exact Eh|]. exists legacy. auto.
    - destruct (streq (lower net) "hedera") eqn:Eh; [|congruence].
      apply String.eqb_eq in Eh.
      destruct (legacy !! upper symbol) as [t|] eqn:Es; cbn in Ex; [|congruence].
      subst t. right. split; [exact Eh|]. exists legacy. auto. }
  destruct (SUPPORTED_NETWORKS cfg !! net) as [n|] eqn:En; cbn in E.
  - destruct (cfg_tokens n) as [toks|] eqn:Et; cbn in E.
    + destruct (toks !! upper symbol) as [addr|] eqn:Ea.
      * destruct (truthy addr) eqn:Etr.
        -- subst addr. left. exists n, toks. auto.
        -- right. apply Hlegacy; assumption.
      * right. apply Hlegacy; assumption.
    + rewrite lookup_empty in E. right. apply Hlegacy; assumption.
  - rewrite lookup_empty in E. right. apply Hlegacy; assumption.
Qed.

End TokenResolution.

Section TokenKeys.
Variable cfg : Config.

(** X2 : for a symbol that is ASCII text, [get_token_address] does not
    depend on the case of the symbol: the lower-cased and the upper-cased
    symbol give the address of the symbol itself. *)
Theorem token_symbol_case_insensitive (symbol : string) (network_key : option string) :
  ascii_text symbol = true ->
  get_token_address cfg (lower symbol) network_key
  = get_token_address cfg symbol network_key
  /\ get_token_address cfg (upper symbol) network_key
     = get_token_address cfg symbol network_key.
Proof.
  intros _. unfold get_token_address.
  rewrite upper_lower, upper_upper. split; reflexivity.
Qed.

(** X3 : a key of a network's token map that is not in upper case (such
    as ["xZAR"]) is never read: removing it changes no answer of
    [get_token_address], for any symbol and any network. *)
Theorem mixed_case_token_key_is_dead (net key symbol : string)
    (network_key : option string) :
  upper key <> key ->
  get_token_address (drop_token cfg net key) symbol network_key
  = get_token_address cfg symbol network_key.
Proof.
  intros Hkey.
  assert (upper symbol <> key) as Hne.
  { intros E. apply Hkey. rewrite <- E. apply upper_upper. }
  unfold get_token_address, drop_token. cbn [SUPPORTED_NETWORKS TOKEN_ADDRESSES].
  destruct network_key as [k|]; cbn [mbind option_bind]; [|reflexivity].
  rewrite lookup_alter.
  destruct (decide (net = k)) as [->|Hk]; [|reflexivity].
  destruct (SUPPORTED_NETWORKS cfg !! k) as [n|]; cbn; [|reflexivity].
  destruct (cfg_tokens n) as [toks|]; cbn; [|reflexivity].
  rewrite lookup_delete_ne by congruence. reflexivity.
Qed.

End TokenKeys.

Section PartyOrder.

Variable W : World.
Variable cfg : Config.
Variable cls : client_class.

Lemma normalize_roles_swap (t : trade) :
  normalize_roles (swap_parties t) = normalize_roles t.
Proof.
  unfold normalize_roles, swap_parties. cbn [t_party1 t_party2].
  destruct (streq (lower (p_side (t_party1 t))) "ask") eqn:A1;
  destruct (streq (lower (p_side (t_party1 t))) "bid") eqn:B1;
  destruct (streq (lower (p_side (t_party2 t))) "ask") eqn:A2;
  destruct (streq (lower (p_side (t_party2 t))) "bid") eqn:B2;
  cbn; try reflexivity;
  repeat match goal with
         | H : streq _ _ = true |- _ => apply String.eqb_eq in H
         end; congruence.
Qed.

(** X4 : the settlement of a trade does not depend on which of the two
    parties is listed first: with [party1] and [party2] exchanged, the
    roles found, the result and the calls issued are the same. *)
Theorem settlement_ignores_party_order
    (od : order_dict) (idx : nat) (t : trade) (h : history) :
  normalize_roles (swap_parties t) = normalize_roles t
  /\ settle_trade W cfg cls od idx (swap_parties t) h
     = settle_trade W cfg cls od idx t h.
Proof.
  split; [apply normalize_roles_swap|].
  assert (prepare_trade W cfg od (swap_parties t) = prepare_trade W cfg od t)
    as E.
  { unfold prepare_trade. rewrite normalize_roles_swap.
    cbn [swap_parties t_party1 t_party2]. rewrite orb_comm. reflexivity. }
  unfold settle_trade. rewrite E. unfold bind.
  destruct (prepare_trade W cfg od t h) as [[[r|p]|e] es]; reflexivity.
Qed.

End PartyOrder.

Section SettlementResults.

Variable W : World.
Variable cfg : Config.
Variable cls : client_class.

Lemma settle_loop_trades od trades :
  forall idx h rs es,
    settle_loop W cfg cls od idx trades h = (Val rs, es) ->
    map fst rs = trades.
Proof.
  induction trades as [|t rest IH]; intros idx h rs es; cbn [settle_loop].
  - unfold ret. intros [= <- _]. reflexivity.
  - intros H.
    apply bind_inv in H as (r & es1 & es2 & _ & H & _).
    apply bind_inv in H as (rs' & es3 & es4 & Hrest & H & _).
    unfold ret in H. injection H as <- _.
    cbn. f_equal. eapply IH. exact Hrest.
Qed.

(** X5 : [settle_trades_if_any] always answers.  Without trades it answers
    ["No trades to settle"] and calls nothing; when it reports [settled] it
    carries exactly one result per trade, in the order of the trades, with
    their number as [total_trades] and the number of successes, at most
    that, as [successful_settlements]; when it does not report [settled]
    it carries no results at all. *)
Theorem settlement_results_follow_trades (od : order_dict) (h : history) :
  exists info es,
    settle_trades_if_any W cfg cls od h = (Val info, es)
    /\ (od_trades od = [] ->
        info = unsettled (Some "No trades to settle") None /\ es = [])
    /\ (si_settled info = true ->
        exists results,
          si_settlement_results info = Some results
          /\ map fst results = od_trades od
          /\ si_total_trades info = Some (length (od_trades od))
          /\ si_successful_settlements info = Some (successful_count results)
          /\ (successful_count results <= length (od_trades od))%nat)
    /\ (si_settled info = false ->
        si_settlement_results info = None
        /\ si_successful_settlements info = None).
Proof.
  unfold settle_trades_if_any.
  destruct (od_trades od) as [|t0 rest] eqn:Etr.
  - unfold ret. eexists _, _. split; [reflexivity|].
    split; [auto|]. split; [discriminate|]. intros _. split; reflexivity.
  - unfold try_except, bind.
    destruct (settle_loop W cfg cls od 0 (t0 :: rest) h) as [[rs|e] es] eqn:El.
    + unfold ret. cbn. eexists _, _. split; [reflexivity|].
      split; [discriminate|]. split; [|discriminate].
      intros _. exists rs.
      pose proof (settle_loop_trades _ _ _ _ _ _ El) as Hmap.
      pose proof (successful_count_le rs) as Hle.
      assert (length rs = length (t0 :: rest)) as Hlen
        by (rewrite <- Hmap; symmetry; apply length_map).
      repeat split; auto. cbn in Hlen |- *. lia.
    + unfold ret. cbn. eexists _, _. split; [reflexivity|].
      split; [discriminate|]. split; [discriminate|].
      intros _. split; reflexivity.
Qed.

Lemma init_without_key rpc addr key h c :
  otruthy key = false ->
  result (SettlementClientSame_init W rpc addr key) h = Val c ->
  account c = None.
Proof.
  intros Hkey H. unfold result in H.
  destruct (SettlementClientSame_init W rpc addr key h) as [r es] eqn:E.
  cbn in H. subst r. unfold SettlementClientSame_init in E. rewrite Hkey in E.
  apply bind_inv in E as (u & es1 & es2 & _ & E & _).
  apply bind_inv in E as (con & es3 & es4 & _ & E & _).
  destruct (negb con); [discriminate|].
  apply bind_inv in E as (a & es5 & es6 & _ & E & _).
  apply bind_inv in E as (acct & es7 & es8 & Hacct & E & _).
  unfold ret in Hacct. injection Hacct as <- _.
  apply bind_inv in E as (i & es9 & es10 & _ & E & _).
  unfold ret in E. injection E as <- _. reflexivity.
Qed.

Lemma prepare_trade_without_key od t h x es :
  otruthy (PRIVATE_KEY cfg) = false ->
  prepare_trade W cfg od t h = (Val x, es) ->
  match x with
  | inl r => sr_success r = false
  | inr p => account (client_source p) = None
  end.
Proof.
  intros Hkey. unfold prepare_trade.
  destruct (_ || _); [discriminate|].
  destruct (normalize_roles t) as [r|]; [|unfold ret; intros [= <- _]; reflexivity].
  destruct (network_cfg cfg (ask_from_network r)) as [src|];
    [|unfold ret; intros [= <- _]; reflexivity].
  destruct (network_cfg cfg (bid_from_network r)) as [dst|];
    [|unfold ret; intros [= <- _]; reflexivity].
  intros H.
  apply bind_inv in H as (cs & es1 & es2 & Hcs & H & _).
  apply bind_inv in H as (cd & es3 & es4 & _ & H & _).
  apply bind_inv in H as (ow & es5 & es6 & _ & H & _).
  apply bind_inv in H as (sg & es7 & es8 & _ & H & _).
  assert (account cs = None) as Hacc.
  { eapply init_without_key; [exact Hkey|]. unfold result. rewrite Hcs. reflexivity. }
  destruct (truthy ow && truthy sg && negb (streq (lower ow) (lower sg)));
    unfold ret in H; injection H as <- _; [reflexivity|exact Hacc].
Qed.

Lemma settle_trade_without_key od idx t h r es :
  otruthy (PRIVATE_KEY cfg) = false ->
  settle_trade W cfg SettlementClientSame od idx t h = (Val r, es) ->
  sr_success r = false.
Proof.
  intros Hkey H. unfold settle_trade in H.
  apply bind_inv in H as (x & es1 & es2 & Hp & H & _).
  pose proof (prepare_trade_without_key _ _ _ _ _ Hkey Hp) as Hx.
  destruct x as [r0|p]; [unfold ret in H; injection H as <- _; exact Hx|].
  unfold settle_prepared in H.
  apply bind_inv in H as (b1 & es3 & es4 & _ & H & _).
  destruct (ltb _ _); [unfold ret in H; injection H as <- _; reflexivity|].
  apply bind_inv in H as (b2 & es5 & es6 & _ & H & _).
  destruct (ltb _ _); [unfold ret in H; injection H as <- _; reflexivity|].
  unfold submit_trade in H.
  apply bind_inv in H as (n1 & es7 & es8 & _ & H & _).
  apply bind_inv in H as (n2 & es9 & es10 & _ & H & _).
  destruct (bool_decide _).
  - unfold settle_same_chain in H.
    apply bind_inv in H as (c1 & es11 & es12 & _ & H & _).
    apply bind_inv in H as (c2 & es13 & es14 & _ & H & _).
    destruct (ltb _ _); [unfold ret in H; injection H as <- _; reflexivity|].
    destruct (ltb _ _); [unfold ret in H; injection H as <- _; reflexivity|].
    apply bind_inv in H as (rs & es15 & es16 & H & _).
    unfold settle_same_chain_trade in H. rewrite Hx in H.
    apply bind_inv in H as (u & es17 & es18 & _ & H & _).
    discriminate.
  - rewrite settle_cross_chain_no_method in H. discriminate.
Qed.

Lemma settle_loop_without_key od trades :
  otruthy (PRIVATE_KEY cfg) = false ->
  forall idx h rs es,
    settle_loop W cfg SettlementClientSame od idx trades h = (Val rs, es) ->
    successful_count rs = 0%nat.
Proof.
  intros Hkey.
  induction trades as [|t rest IH]; intros idx h rs es; cbn [settle_loop].
  - unfold ret. intros [= <- _]. reflexivity.
  - intros H.
    apply bind_inv in H as (r & es1 & es2 & Hr & H & _).
    apply bind_inv in H as (rs' & es3 & es4 & Hrest & H & _).
    unfold ret in H. injection H as <- _.
    apply settle_trade_without_key in Hr; [|exact Hkey].
    apply IH in Hrest.
    unfold successful_count in *. rewrite filter_cons. cbn [snd].
    destruct (decide (sr_success r = true)) as [E|_]; [congruence|exact Hrest].
Qed.

(** X6 : with no private key configured (absent or empty), no trade is
    ever settled: whatever the chain answers, [settle_trades_if_any] counts
    no successful settlement, and for an order with trades the settlement
    is not accepted. *)
Theorem no_settlement_without_private_key (od : order_dict) (h : history) :
  otruthy (PRIVATE_KEY cfg) = false ->
  exists info es,
    settle_trades_if_any W cfg SettlementClientSame od h = (Val info, es)
    /\ default 0%nat (si_successful_settlements info) = 0%nat
    /\ (od_trades od <> [] -> settlement_ok info (od_trades od) = false).
Proof.
  intros Hkey. unfold settle_trades_if_any.
  destruct (od_trades od) as [|t0 rest] eqn:Etr.
  - unfold ret. eexists _, _. split; [reflexivity|]. split; [reflexivity|].
    intros []. reflexivity.
  - unfold try_except, bind.
    destruct (settle_loop W cfg SettlementClientSame od 0 (t0 :: rest) h)
      as [[rs|e] es] eqn:El.
    + apply settle_loop_without_key in El; [|exact Hkey].
      unfold ret. cbn. eexists _, _. split; [reflexivity|].
      rewrite El. split; [reflexivity|]. intros _. reflexivity.
    + unfold ret. cbn. eexists _, _. split; [reflexivity|].
      split; [reflexivity|]. intros _. reflexivity.
Qed.

End SettlementResults.

Section RoutingFacts.

Variable W : World.
Variable cfg : Config.
Variable cls : client_class.

Lemma settle_trades_if_any_routed_first_trade same od t0 rest n1 n2 h :
  od_trades od = t0 :: rest ->
  (5 < p_len (t_party1 t0))%nat ->
  (5 < p_len (t_party2 t0))%nat ->
  p_from_network (t_party1 t0) = Some n1 ->
  p_from_network (t_party2 t0) = Some n2 ->
  truthy n1 = true -> truthy n2 = true ->
  settle_trades_if_any_routed W cfg cls same od h
  = if xorb same (bool_decide (chain_id_of cfg n1 = chain_id_of cfg n2))
    then (Val (unsettled None
                 (Some (if same then "not_same_chain" else "not_cross_chain"))),
          [])
    else settle_trades_if_any W cfg cls od h.
Proof.
  intros Etr H1 H2 E1 E2 T1 T2.
  unfold settle_trades_if_any_routed. rewrite Etr.
  unfold try_except, bind, party_from.
  assert ((p_len (t_party1 t0) =? 0)%nat = false) as ->
    by (apply Nat.eqb_neq; lia).
  assert ((p_len (t_party2 t0) =? 0)%nat = false) as ->
    by (apply Nat.eqb_neq; lia).
  apply Nat.ltb_lt in H1, H2. rewrite H1, H2. unfold ret.
  rewrite E1, E2, T1, T2. cbn [andb negb].
  destruct (settle_trades_if_any_shape W cfg cls od h) as (info & es & E & _).
  destruct same, (bool_decide (chain_id_of cfg n1 = chain_id_of cfg n2));
    cbn; rewrite ?app_nil_r, ?E; reflexivity.
Qed.

(** X7 : the two wrappers decide on the first trade alone.  When both
    parties of the first trade name a network, [settle_trades_if_any_same]
    settles all the trades if the two networks have the same chain id and
    answers [not_same_chain] otherwise, and [settle_trades_if_any_cross]
    does the opposite, answering [not_cross_chain]; the other trades are
    not looked at. *)
Theorem wrapper_decides_on_first_trade
    (od : order_dict) (t0 : trade) (rest : list trade) (n1 n2 : string)
    (h : history) :
  od_trades od = t0 :: rest ->
  (5 < p_len (t_party1 t0))%nat ->
  (5 < p_len (t_party2 t0))%nat ->
  p_from_network (t_party1 t0) = Some n1 ->
  p_from_network (t_party2 t0) = Some n2 ->
  truthy n1 = true -> truthy n2 = true ->
  settle_trades_if_any_same W cfg cls od h
  = (if bool_decide (chain_id_of cfg n1 = chain_id_of cfg n2)
     then settle_trades_if_any W cfg cls od h
     else (Val (unsettled None (Some "not_same_chain")), []))
  /\ settle_trades_if_any_cross W cfg cls od h
     = (if bool_decide (chain_id_of cfg n1 = chain_id_of cfg n2)
        then (Val (unsettled None (Some "not_cross_chain")), [])
        else settle_trades_if_any W cfg cls od h).
Proof.
  intros Etr H1 H2 E1 E2 T1 T2.
  unfold settle_trades_if_any_same, settle_trades_if_any_cross.
  rewrite !(settle_trades_if_any_routed_first_trade _ od t0 rest n1 n2 h
              Etr H1 H2 E1 E2 T1 T2).
  destruct (bool_decide (chain_id_of cfg n1 = chain_id_of cfg n2));
    split; reflexivity.
Qed.

(** X8 : the route [settle_trades] chooses for an order is never refused
    by the wrapper it calls: the settlement information is that of
    [settle_trades_if_any] on the order, or, with nothing called, the
    error [missing_networks] or that of a party of one to five entries;
    it is never [not_same_chain] nor [not_cross_chain]. *)
Theorem settle_trades_route_never_refused (od : order_dict) (h : history) :
  exists info es,
    settle_trades_info W cfg cls od h = (Val info, es)
    /\ (settle_trades_if_any W cfg cls od h = (Val info, es)
        \/ (es = []
            /\ exists err,
                 info = unsettled None (Some err)
                 /\ (err = "missing_networks"
                     \/ err = "list index out of range"))).
Proof.
  destruct (settle_trades_if_any_shape W cfg cls od h) as (info & es & E & _).
  unfold settle_trades_info, use_cross, settle_trades_if_any_cross,
    settle_trades_if_any_same, settle_trades_if_any_routed, party_from.
  destruct (od_trades od) as [|t0 rest] eqn:Etr.
  { unfold settle_trades_if_any in E. rewrite Etr in E.
    unfold try_except, bind, raise, ret in *. cbn.
    injection E as <- <-. eexists _, _. split; [reflexivity|].
    left. unfold settle_trades_if_any. rewrite Etr. reflexivity. }
  destruct (p_len (t_party1 t0) =? 0)%nat, (5 <? p_len (t_party1 t0))%nat,
    (p_len (t_party2 t0) =? 0)%nat, (5 <? p_len (t_party2 t0))%nat,
    (p_from_network (t_party1 t0)) as [n1|],
    (p_from_network (t_party2 t0)) as [n2|];
    unfold try_except, bind, raise, ret; cbn -[andb bool_decide];
    try (eexists _, _; split; [reflexivity|]; right; split; [reflexivity|];
         eexists; split; [reflexivity|]; (left; reflexivity) || (right; reflexivity)).
  destruct (truthy n1), (truthy n2);
    cbn -[bool_decide];
    try (eexists _, _; split; [reflexivity|]; right; split; [reflexivity|];
         eexists; split; [reflexivity|]; left; reflexivity).
  destruct (bool_decide (chain_id_of cfg n1 = chain_id_of cfg n2));
    cbn; rewrite ?app_nil_r, E; cbn;
    (eexists _, _; split; [reflexivity|]; left; reflexivity).
Qed.

End RoutingFacts.

Section RegistrationFacts.

Variable W : World.
Variable cfg : Config.
Variable cls : client_class.

Lemma log_activity_guarded hl hf a h :
  try_except (log_activity W hl hf a) (fun _ => ret tt) h
  = (Val tt, placement_events hl hf a).
Proof.
  unfold log_activity, placement_events, try_except, bind, emit, ret, call.
  destruct hl, hf; cbn;
    try destruct (append_file W _ a) as [[]|e]; reflexivity.
Qed.

Lemma log_activity_total hl hf a h :
  (forall h' a', append_file W h' a' = Val tt) ->
  log_activity W hl hf a h = (Val tt, placement_events hl hf a).
Proof.
  intros Happ.
  unfold log_activity, placement_events, bind, emit, ret, call.
  destruct hl, hf; cbn; rewrite ?Happ; reflexivity.
Qed.

Lemma run_settlement_emits_settlement od :
  emits (fun ev => settlement_event W od ev \/ ev = EvSettlementAbandoned)
    (run_settlement W cfg cls od).
Proof.
  unfold run_settlement.
  apply emits_try; [|intros e; emits_step].
  apply emits_bind; [emits_step|intros _].
  apply emits_try.
  - apply wait_for_emits; [|right; reflexivity].
    eapply emits_weaken; [|apply settle_trades_if_any_routed_emits].
    intros ev H. left. exact H.
  - intros []; emits_step.
Qed.

Lemma register_order_path hl hf pl h r es :
  register_order W cfg cls hl hf pl h = (Val r, es) ->
  after_settlement r = true ->
  exists v es_v h_p pr ts h_s es_s,
    validate_order_prerequisites W cfg pl h = (Val v, es_v)
    /\ v_valid v = true
    /\ process_order W h_p (symbol_of pl) (quote_of_payload pl) = Val pr
    /\ pr_success pr = true
    /\ o_timestamp (order_of_result pr) = Some ts
    /\ settle_and_finalize W cfg cls hl hf (symbol_of pl) (order_of_result pr)
         (order_dict_of (order_of_result pr)
            (map convert_trade (pr_trades pr)) ts)
         (pr_next_best pr) (pr_task_id pr) (v_checks v) h_s
       = (Val r, es_s)
    /\ es = es_v
            ++ [EvProcessOrder (symbol_of pl) (quote_of_payload pl)]
            ++ placement_events hl hf
                 (placement_of (symbol_of pl)
                    (order_dict_of (order_of_result pr)
                       (map convert_trade (pr_trades pr)) ts))
            ++ es_s
    /\ h_p = h ++ es_v
                ++ [EvProcessOrder (symbol_of pl) (quote_of_payload pl)]
    /\ h_s = h_p
                ++ placement_events hl hf
                     (placement_of (symbol_of pl)
                        (order_dict_of (order_of_result pr)
                           (map convert_trade (pr_trades pr)) ts)).
Proof.
  intros H Hr. unfold register_order in H. unfold try_except at 1 in H.
  destruct (pl_attach_signature pl).
  { unfold ret in H. injection H as <- _. discriminate. }
  destruct (truthy _ && truthy _ && negb _).
  { unfold ret in H. injection H as <- _. discriminate. }
  match type of H with
  | (let (_, _) := ?m h in _) = _ => destruct (m h) as [[resp|e] es'] eqn:E
  end.
  2:{ unfold ret in H. cbn in H. injection H as <- _. discriminate. }
  injection H as -> ->.
  apply bind_inv in E as (v & es_v & es1 & Hv & E & ->).
  destruct (negb (v_valid v)) eqn:Hvalid.
  { unfold ret in E. injection E as <- _. discriminate. }
  apply negb_false_iff in Hvalid.
  apply bind_inv in E as ([] & es2 & es3 & Hemit & E & ->).
  unfold emit in Hemit. injection Hemit as <-.
  apply bind_inv in E as (pr & es4 & es5 & Hpr & E & ->).
  unfold call in Hpr. injection Hpr as Hpr <-.
  destruct (negb (pr_success pr)) eqn:Hsucc.
  { unfold ret in E. injection E as <- _. discriminate. }
  apply negb_false_iff in Hsucc.
  apply bind_inv in E as (ct & es5a & es5b & Hct & E & ->).
  unfold convert_trades in Hct.
  destruct (forallb _ (pr_trades pr)); [|discriminate].
  unfold ret in Hct. injection Hct as <- <-.
  apply bind_inv in E as (ts & es6 & es7 & Hts & E & ->).
  fold (order_of_result pr) in Hts, E.
  destruct (o_timestamp (order_of_result pr)) as [ts'|] eqn:Ets;
    [|discriminate].
  unfold some_or_raise, ret in Hts. injection Hts as <- <-.
  apply bind_inv in E as ([] & es8 & es9 & Hlog & E & ->).
  rewrite log_activity_guarded in Hlog. injection Hlog as <-.
  eexists v, es_v, _, pr, ts', _, es9.
  split; [exact Hv|]. split; [exact Hvalid|]. split; [exact Hpr|].
  split; [exact Hsucc|]. split; [exact Ets|]. split; [exact E|].
  split; [reflexivity|].
  rewrite ?app_nil_r, <- ?app_assoc. split; reflexivity.
Qed.

Lemma omap_none {A B} (f : A -> option B) (l : list A) :
  Forall (fun x => f x = None) l -> omap f l = [].
Proof.
  induction 1 as [|x l Hx _ IH]; [reflexivity|].
  cbn. rewrite Hx. exact IH.
Qed.

Lemma validation_events_silent acct token rpc es :
  Forall (validation_event acct token rpc) es ->
  Forall (fun ev => logged ev = None /\ is_cancel_event ev = false) es.
Proof.
  intros H. eapply Forall_impl; [exact H|].
  intros [] Hev; try (split; reflexivity); destruct Hev.
Qed.

Lemma settlement_events_silent od es :
  Forall (fun ev => settlement_event W od ev \/ ev = EvSettlementAbandoned) es ->
  Forall (fun ev => logged ev = None /\ is_cancel_event ev = false) es.
Proof.
  intros H. eapply Forall_impl; [exact H|].
  intros ev [(idx & t & _ & Hev)| ->]; [destruct Hev|]; split; reflexivity.
Qed.

Lemma placement_events_logged hf a :
  omap logged (placement_events true hf a) = [a]
  /\ filter (fun ev => is_cancel_event ev = true) (placement_events true hf a) = [].
Proof. destruct hf; split; reflexivity. Qed.

Lemma rollback_calls_not_logged symbol ord :
  omap logged (rollback_calls symbol ord) = [].
Proof. unfold rollback_calls. destruct (_ =? _)%Z; reflexivity. Qed.

Lemma silent_filter es :
  Forall (fun ev => logged ev = None /\ is_cancel_event ev = false) es ->
  omap logged es = []
  /\ filter (fun ev => is_cancel_event ev = true) es = [].
Proof.
  intros H. split.
  - apply omap_none. eapply Forall_impl; [exact H|]. intros ev [? _]. assumption.
  - induction H as [|ev es [_ Hc] _ IH]; [reflexivity|].
    rewrite filter_cons. destruct (decide _) as [E|_]; [congruence|exact IH].
Qed.

(** What a request that ends in a failed settlement has done. *)
Lemma register_order_failed hf pl h info es :
  register_order W cfg cls true hf pl h = (Val (SettlementFailed info), es) ->
  exists pr ts h_p,
    process_order W h_p (symbol_of pl) (quote_of_payload pl) = Val pr
    /\ o_timestamp (order_of_result pr) = Some ts
    /\ pr_trades pr <> []
    /\ omap logged es
       = [placement_of (symbol_of pl)
            (order_dict_of (order_of_result pr)
               (map convert_trade (pr_trades pr)) ts)]
    /\ filter (fun ev => is_cancel_event ev = true) es
       = rollback_calls (symbol_of pl) (order_of_result pr).
Proof.
  intros H.
  apply register_order_path in H as
    (v & es_v & h_p & pr & ts & h_s & es_s & Hv & _ & Hpr & _ & Hts & Hsf & ->
     & Hhp & Hhs);
    [|reflexivity].
  destruct (validate_order_prerequisites_run W cfg pl h)
    as (v' & es_v' & Hv' & Hes_v & _).
  rewrite Hv in Hv'. injection Hv' as <- <-.
  apply validation_events_silent, silent_filter in Hes_v as [Hlv Hcv].
  set (ord := order_of_result pr) in *.
  set (od := order_dict_of ord (map convert_trade (pr_trades pr)) ts) in *.
  assert (od_trades od <> []) as Hne.
  { intros E. unfold settle_and_finalize, finalize in Hsf. rewrite E in Hsf.
    unfold bind, ret in Hsf. cbn in Hsf. discriminate. }
  destruct (settle_and_finalize_run W cfg cls true hf (symbol_of pl) ord od
              (pr_next_best pr) (pr_task_id pr) (v_checks v) h_s Hne)
    as (info' & es_r & Hrun & _ & _ & Hsf').
  rewrite Hsf' in Hsf.
  pose proof (run_settlement_emits_settlement od h_s) as Hquiet.
  unfold calls in Hquiet. rewrite Hrun in Hquiet. cbn in Hquiet.
  apply settlement_events_silent, silent_filter in Hquiet as [Hlr Hcr].
  destruct (settlement_ok info' (od_trades od)) eqn:Hok.
  { destruct (finalize_ok W true hf (symbol_of pl) ord od (pr_next_best pr)
                (pr_task_id pr) (v_checks v) info' (h_s ++ es_r) Hok) as [E _].
    rewrite E in Hsf. discriminate. }
  unfold result, calls in Hsf.
  rewrite (finalize_failed W true hf (symbol_of pl) ord od (pr_next_best pr)
             (pr_task_id pr) (v_checks v) info' (h_s ++ es_r) Hne Hok) in Hsf.
  cbn in Hsf. injection Hsf as _ <-.
  destruct (placement_events_logged hf (placement_of (symbol_of pl) od))
    as [Hlp Hcp].
  exists pr, ts, h_p. split; [exact Hpr|]. split; [exact Hts|].
  split.
  { intros E. apply Hne. unfold od. cbn. rewrite E. reflexivity. }
  split.
  - rewrite !omap_app, Hlv, Hlp, Hlr, rollback_calls_not_logged. reflexivity.
  - rewrite !filter_app, Hcv, Hcp, Hcr, rollback_calls_filter. reflexivity.
Qed.

Lemma not_cancel_filter es :
  Forall (fun ev => is_cancel_event ev = false) es ->
  filter (fun ev => is_cancel_event ev = true) es = [].
Proof.
  induction 1 as [|ev l Hev _ IH]; [reflexivity|].
  rewrite filter_cons.
  destruct (decide (is_cancel_event ev = true)) as [Hd|_]; [congruence|exact IH].
Qed.

(** What a request that reaches the settlement of its trades has done:
    the order it worked on is the one the book returned, or the stand-in
    of lines 188-190; the outcome of the settlement decides between the
    two responses. *)
Lemma register_order_outcome hl hf pl h r es :
  register_order W cfg cls hl hf pl h = (Val r, es) ->
  after_settlement r = true ->
  let h_p :=
    h ++ calls (validate_order_prerequisites W cfg pl) h
      ++ [EvProcessOrder (symbol_of pl) (quote_of_payload pl)] in
  exists pr ts vd,
    process_order W h_p (symbol_of pl) (quote_of_payload pl) = Val pr
    /\ o_timestamp (order_of_result pr) = Some ts
    /\ (pr_trades pr <> [] ->
        let od :=
          order_dict_of (order_of_result pr) (map convert_trade (pr_trades pr))
            ts in
        let h_s :=
          h_p ++ placement_events hl hf (placement_of (symbol_of pl) od) in
        exists info,
          result (run_settlement W cfg cls od) h_s = Val info
          /\ ((all_settled info od
               /\ r = Registered od (pr_next_best pr) (pr_task_id pr) vd info
               /\ filter (fun ev => is_cancel_event ev = true) es = [])
              \/ (~ all_settled info od
                  /\ r = SettlementFailed info
                  /\ Forall (fun ev => is_trade_executed_event ev = false) es
                  /\ filter (fun ev => is_cancel_event ev = true) es
                     = rollback_calls (symbol_of pl) (order_of_result pr)))).
Proof.
  intros H Hr h_p0.
  apply register_order_path in H as
    (v & es_v & h_p & pr & ts & h_s & es_s & Hv & _ & Hpr & _ & Hts & Hsf & ->
     & Hhp & Hhs);
    [|exact Hr].
  assert (h_p0 = h_p) as Eh.
  { unfold h_p0, calls. rewrite Hv, Hhp. reflexivity. }
  clearbody h_p0. subst h_p0.
  exists pr, ts, (v_checks v). split; [exact Hpr|]. split; [exact Hts|].
  intros Htr od h_s0.
  assert (h_s0 = h_s) as Eh by (unfold h_s0; rewrite Hhs; reflexivity).
  clearbody h_s0. subst h_s0. clear Hhp Hhs.
  destruct (validate_order_prerequisites_run W cfg pl h)
    as (v' & es_v' & Hv' & Hes_v & _).
  rewrite Hv in Hv'. injection Hv' as <- <-.
  assert (Forall (fun ev => is_trade_executed_event ev = false) es_v) as Hxv.
  { eapply Forall_impl; [exact Hes_v|].
    intros [] Hev; try reflexivity; destruct Hev. }
  apply validation_events_silent, silent_filter in Hes_v as [_ Hcv].
  subst od. set (ord := order_of_result pr) in *.
  set (od := order_dict_of ord (map convert_trade (pr_trades pr)) ts) in *.
  assert (od_trades od <> []) as Hne.
  { unfold od. cbn. intros E. apply map_eq_nil in E. contradiction. }
  destruct (settle_and_finalize_run W cfg cls hl hf (symbol_of pl) ord od
              (pr_next_best pr) (pr_task_id pr) (v_checks v) h_s Hne)
    as (info & es_r & Hrun & Hshape & Hq & Hsf').
  rewrite Hsf' in Hsf.
  exists info. split; [unfold result; rewrite Hrun; reflexivity|].
  assert (filter (fun ev => is_cancel_event ev = true)
            (placement_events hl hf (placement_of (symbol_of pl) od)) = [])
    as Hcp by (destruct hl, hf; reflexivity).
  destruct (settlement_ok info (od_trades od)) eqn:Hok.
  - left. split; [apply (settlement_ok_all_settled od info Hshape); exact Hok|].
    destruct (finalize_ok W hl hf (symbol_of pl) ord od (pr_next_best pr)
                (pr_task_id pr) (v_checks v) info (h_s ++ es_r) Hok) as [E Hc].
    rewrite E in Hsf. injection Hsf as <- <-. split; [reflexivity|].
    rewrite !filter_app, Hcv, Hcp, (quiet_no_cancel es_r Hq),
      (not_cancel_filter _ Hc).
    reflexivity.
  - right. split.
    { intros Hall. apply (settlement_ok_all_settled od info Hshape) in Hall.
      congruence. }
    unfold result, calls in Hsf.
    rewrite (finalize_failed W hl hf (symbol_of pl) ord od (pr_next_best pr)
               (pr_task_id pr) (v_checks v) info (h_s ++ es_r) Hne Hok) in Hsf.
    cbn in Hsf. injection Hsf as <- <-. split; [reflexivity|]. split.
    + apply Forall_app. split; [exact Hxv|].
      apply Forall_app. split; [repeat constructor|].
      apply Forall_app. split; [destruct hl, hf; repeat constructor|].
      apply Forall_app. split; [|apply rollback_calls_no_record].
      eapply Forall_impl; [exact Hq|]. intros ev [? _]. assumption.
    + rewrite !filter_app, Hcv, Hcp, (quiet_no_cancel es_r Hq),
        rollback_calls_filter.
      reflexivity.
Qed.

(** X9 : when [register_order] answers with the settlement failure, the
    activity log has received exactly one record, the [order_placed] of
    the order, which the roll-back does not take out; and [cancel_order]
    was called once with the symbol, side and id of the order, or not at
    all when that id is 0. *)
Theorem rolled_back_order_stays_in_log
    (have_append_file : bool) (payload_json : payload) (h : history)
    (info : settlement_info) :
  result (register_order W cfg cls true have_append_file payload_json) h
  = Val (SettlementFailed info) ->
  exists od,
    od_trades od <> []
    /\ omap logged
         (calls (register_order W cfg cls true have_append_file payload_json) h)
       = [placement_of (symbol_of payload_json) od]
    /\ filter (fun ev => is_cancel_event ev = true)
         (calls (register_order W cfg cls true have_append_file payload_json) h)
       = (if (od_orderId od =? 0)%Z then []
          else [EvCancelOrder (symbol_of payload_json) (od_side od)
                  (od_orderId od)]).
Proof.
  intros H. unfold result, calls in *.
  destruct (register_order W cfg cls true have_append_file payload_json h)
    as [r es] eqn:E.
  cbn in H. subst r.
  apply register_order_failed in E as (pr & ts & h_p & _ & _ & Hne & Hlog & Hc).
  eexists. split; [|split; [exact Hlog|exact Hc]].
  cbn. intros E. apply map_eq_nil in E. contradiction.
Qed.

(** X10 : when the book returns no order for a request and the
    settlement of its trades fails, the roll-back calls [cancel_order]
    once, with order id 1: the id written into the copy of the request
    that stands for the order, whichever orders the book holds. *)
Theorem rollback_cancels_order_one
    (have_append_file : bool) (payload_json : payload) (h : history)
    (info : settlement_info) :
  (forall h' symbol q pr,
      process_order W h' symbol q = Val pr -> pr_order pr = None) ->
  result (register_order W cfg cls true have_append_file payload_json) h
  = Val (SettlementFailed info) ->
  exists side,
    filter (fun ev => is_cancel_event ev = true)
      (calls (register_order W cfg cls true have_append_file payload_json) h)
    = [EvCancelOrder (symbol_of payload_json) side 1].
Proof.
  intros Hnone H. unfold result, calls in *.
  destruct (register_order W cfg cls true have_append_file payload_json h)
    as [r es] eqn:E.
  cbn in H. subst r.
  apply register_order_failed in E as (pr & ts & h_p & Hpr & _ & _ & _ & Hc).
  apply Hnone in Hpr. unfold order_of_result in Hc. rewrite Hpr in Hc.
  eexists. exact Hc.
Qed.

Lemma record_trades_run hl hf symbol results :
  (forall h' a, append_file W h' a = Val tt) ->
  forall trades idx h,
    (forall i t, trades !! i = Some t ->
       exists e, results !! (idx + i)%nat = Some e /\ sr_success (snd e) = true) ->
    exists es,
      record_trades W hl hf symbol results idx trades h = (Val tt, es)
      /\ omap executed_trade es
         = (if hl
            then map (fun t => (to_float (t_price t), to_float (t_quantity t),
                                t_timestamp t)) trades
            else [])
      /\ filter (fun ev => is_cancel_event ev = true) es = [].
Proof.
  intros Happ. induction trades as [|tr rest IH]; intros idx h Hres.
  - exists []. cbn. destruct hl; repeat split; reflexivity.
  - cbn [record_trades].
    destruct (Hres 0%nat tr eq_refl) as (e & He & Hok).
    rewrite Nat.add_0_r in He. rewrite He. cbn [fmap option_fmap option_map default].
    rewrite Hok. cbn [negb].
    unfold bind at 1. cbn [id negb]. rewrite log_activity_total by exact Happ.
    match goal with
    | |- context [record_trades W hl hf symbol results (S idx) rest ?hh] =>
        destruct (IH (S idx) hh) as (es & Hrun & Hex & Hc)
    end.
    { intros i t Hi. destruct (Hres (S i) t Hi) as (e' & He' & Hok').
      exists e'. split; [|exact Hok'].
      rewrite <- He'. f_equal. lia. }
    rewrite Hrun. eexists. split; [reflexivity|].
    rewrite omap_app, filter_app, Hex, Hc.
    destruct hl, hf; cbn; split; reflexivity.
Qed.

Lemma executed_trade_logged ev : logged ev = None -> executed_trade ev = None.
Proof. destruct ev; try reflexivity. discriminate. Qed.

(** The amounts of a converted trade are [float]s already. *)
Lemma converted_amounts trades :
  map (fun t => (to_float (t_price t), to_float (t_quantity t), t_timestamp t))
    (map convert_trade trades)
  = map (fun t => (t_price t, t_quantity t, t_timestamp t))
      (map convert_trade trades).
Proof.
  induction trades as [|t rest IH]; [reflexivity|].
  cbn [map convert_trade t_price t_quantity t_timestamp].
  rewrite !to_float_idempotent. f_equal. exact IH.
Qed.

(** X11 : when [register_order] accepts an order (the activity file
    being writable), the activity log has received one [trade_executed]
    record per trade of the answer, in order, with the price, quantity
    and timestamp of the trade;
    [cancel_order] was never called; and if there were trades, every one
    of them was settled. *)
Theorem accepted_order_logs_each_trade
    (have_append_file : bool) (payload_json : payload) (h : history)
    (od : order_dict) (nextBest : option order) (taskId : option Z)
    (validation_details : option checks) (info : settlement_info) :
  (forall h' a, append_file W h' a = Val tt) ->
  result (register_order W cfg cls true have_append_file payload_json) h
  = Val (Registered od nextBest taskId validation_details info) ->
  omap executed_trade
    (calls (register_order W cfg cls true have_append_file payload_json) h)
  = map (fun t => (t_price t, t_quantity t, t_timestamp t)) (od_trades od)
  /\ filter (fun ev => is_cancel_event ev = true)
       (calls (register_order W cfg cls true have_append_file payload_json) h)
     = []
  /\ (od_trades od <> [] -> all_settled info od).
Proof.
  intros Happ H. unfold result, calls in *.
  destruct (register_order W cfg cls true have_append_file payload_json h)
    as [r es] eqn:E.
  cbn [fst snd] in *. subst r.
  apply register_order_path in E as
    (v & es_v & h_p & pr & ts & h_s & es_s & Hv & _ & Hpr & _ & Hts & Hsf & ->
     & Hhp & Hhs);
    [|reflexivity].
  destruct (validate_order_prerequisites_run W cfg payload_json h)
    as (v' & es_v' & Hv' & Hes_v & _).
  rewrite Hv in Hv'. injection Hv' as <- <-.
  apply validation_events_silent, silent_filter in Hes_v as [Hlv Hcv].
  set (ord := order_of_result pr) in *.
  set (od' := order_dict_of ord (map convert_trade (pr_trades pr)) ts) in *.
  destruct (placement_events_logged have_append_file
              (placement_of (symbol_of payload_json) od')) as [Hlp Hcp].
  assert (omap executed_trade es_v = []) as Hxv.
  { apply omap_none. clear -Hlv. induction es_v as [|ev l IH]; [constructor|].
    cbn in Hlv. destruct (logged ev) eqn:El; [discriminate|].
    constructor; [apply executed_trade_logged; exact El|apply IH; exact Hlv]. }
  assert (omap executed_trade
            (placement_events true have_append_file
               (placement_of (symbol_of payload_json) od')) = []) as Hxp.
  { destruct have_append_file; reflexivity. }
  destruct (od_trades od') as [|t0 rest] eqn:Etr.
  { unfold settle_and_finalize, finalize in Hsf. rewrite Etr in Hsf.
    unfold bind, ret in Hsf. cbn in Hsf. injection Hsf as <- _ _ _ _ <-.
    rewrite Etr. rewrite !omap_app, !filter_app, Hxv, Hxp, Hcv, Hcp.
    split; [reflexivity|]. split; [reflexivity|]. intros Hne. contradiction. }
  assert (od_trades od' <> []) as Hne by (rewrite Etr; discriminate).
  destruct (settle_and_finalize_run W cfg cls true have_append_file
              (symbol_of payload_json) ord od' (pr_next_best pr)
              (pr_task_id pr) (v_checks v) h_s Hne)
    as (info' & es_r & Hrun & Hshape & _ & Hsf').
  rewrite Hsf' in Hsf.
  pose proof (run_settlement_emits_settlement od' h_s) as Hquiet.
  unfold calls in Hquiet. rewrite Hrun in Hquiet. cbn in Hquiet.
  apply settlement_events_silent, silent_filter in Hquiet as [Hlr Hcr].
  assert (omap executed_trade es_r = []) as Hxr.
  { apply omap_none. clear -Hlr. induction es_r as [|ev l IH]; [constructor|].
    cbn in Hlr. destruct (logged ev) eqn:El; [discriminate|].
    constructor; [apply executed_trade_logged; exact El|apply IH; exact Hlr]. }
  destruct (settlement_ok info' (od_trades od')) eqn:Hok.
  2:{ unfold result, calls in Hsf.
      rewrite (finalize_failed W true have_append_file (symbol_of payload_json)
                 ord od' (pr_next_best pr) (pr_task_id pr) (v_checks v) info'
                 (h_s ++ es_r) Hne Hok) in Hsf.
      discriminate. }
  pose proof (proj1 (settlement_ok_all_settled od' info' Hshape) Hok) as Hall.
  destruct Hall as (Hset & results & Hres & Hlen & Hsucc).
  unfold result, calls, finalize in Hsf. rewrite Etr in Hsf.
  rewrite <- Etr in Hsf. rewrite Hok in Hsf. cbn [negb] in Hsf.
  rewrite Hres in Hsf. cbn [default] in Hsf.
  destruct (record_trades_run true have_append_file (symbol_of payload_json)
              results Happ (od_trades od') 0%nat (h_s ++ es_r))
    as (es_t & Ht & Hxt & Hct).
  { intros i t Hi. cbn.
    destruct (results !! i) as [e|] eqn:Ee.
    - exists e. split; [reflexivity|].
      exact (Forall_lookup_1 _ _ _ _ Hsucc Ee).
    - apply lookup_ge_None in Ee. apply lookup_lt_Some in Hi. exfalso. rewrite <- Hlen in Hi. exact (Nat.lt_irrefl _ (Nat.lt_le_trans _ _ _ Hi Ee)). }
  cbn [id] in Hsf. unfold bind, try_except in Hsf. rewrite Ht in Hsf.
  unfold ret in Hsf. cbn in Hsf.
  injection Hsf as <- _ _ _ <- <-.
  rewrite !omap_app, !filter_app, Hxv, Hxp, Hxr, Hcv, Hcp, Hcr, Hxt, Hct.
  rewrite !app_nil_r.
  split; [apply converted_amounts|]. split; [reflexivity|].
  intros _. split; [exact Hset|]. exists results. auto.
Qed.

End RegistrationFacts.

(** C1 : a request of [register_order] (its names ASCII text, its amounts
    in the range of [float]) that reaches the settlement of at least one
    trade ends in one of two ways.  If the settlement reported
    every trade settled, the order is registered and [cancel_order] is
    not called.  Otherwise the request ends in the failure response, no
    [trade_executed] record is written, and [cancel_order] is called for
    the order [register_order] holds, when its id is not 0: that order is
    the one the book returned, or, when the book returned none because
    nothing of the order was left to rest, the copy of the request to
    which line 190 gives the id 1.  So for Bob's bid, filled in full
    against Alice's resting ask and failing to settle for want of Alice's
    escrow, the book is asked to cancel the bid with id 1, an order the
    request never placed. *)
Theorem failed_settlement_cancels_stand_in_order :
  (forall W cfg cls hl hf pl h r es,
      plain_payload pl = true ->
      register_order W cfg cls hl hf pl h = (Val r, es) ->
      after_settlement r = true ->
      let h_p :=
        h ++ calls (validate_order_prerequisites W cfg pl) h
          ++ [EvProcessOrder (symbol_of pl) (quote_of_payload pl)] in
      exists pr ts vd,
        process_order W h_p (symbol_of pl) (quote_of_payload pl) = Val pr
        /\ o_timestamp (order_of_result pr) = Some ts
        /\ (pr_trades pr <> [] ->
            let od :=
              order_dict_of (order_of_result pr)
                (map convert_trade (pr_trades pr)) ts in
            let h_s :=
              h_p ++ placement_events hl hf (placement_of (symbol_of pl) od) in
            exists info,
              result (run_settlement W cfg cls od) h_s = Val info
              /\ ((all_settled info od
                   /\ r = Registered od (pr_next_best pr) (pr_task_id pr) vd info
                   /\ filter (fun ev => is_cancel_event ev = true) es = [])
                  \/ (~ all_settled info od
                      /\ r = SettlementFailed info
                      /\ Forall (fun ev => is_trade_executed_event ev = false) es
                      /\ filter (fun ev => is_cancel_event ev = true) es
                         = rollback_calls (symbol_of pl) (order_of_result pr)))))
  /\ (forall q ts, o_order_id (order_of_quote q ts) = 1%Z)
  /\ plain_payload sample_payload = true
  /\ (forall h symbol q,
         exists pr,
           process_order (filled_bid_world None) h symbol q = Val pr
           /\ pr_trades pr = [sample_trade] /\ pr_order pr = None)
  /\ exists es,
       register_order (filled_bid_world None) sample_cfg SettlementClientSame
         true true sample_payload []
       = (Val (SettlementFailed
                 {| si_settled := true; si_reason := None; si_error := None;
                    si_settlement_results :=
                      Some [(convert_trade sample_trade,
                             failure "insufficient_ask_base_escrow"
                               (Some (DetailsAmounts 3 0)))];
                    si_total_trades := Some 1%nat;
                    si_successful_settlements := Some 0%nat |}), es)
       /\ filter (fun ev => is_cancel_event ev = true) es
          = [EvCancelOrder "HBAR_USDT" "bid" 1]
       /\ Forall (fun ev => is_trade_executed_event ev = false) es.
Proof.
  split; [|split; [|split; [vm_compute; reflexivity|split]]].
  - intros W cfg cls hl hf pl h r es _ H Hr.
    exact (register_order_outcome W cfg cls hl hf pl h r es H Hr).
  - reflexivity.
  - intros h symbol q. eexists. split; [reflexivity|]. split; reflexivity.
  - vm_compute. eexists. split; [reflexivity|]. split; [reflexivity|].
    repeat constructor.
Qed.

(** C6 : when the budget of [asyncio.wait_for] runs out before the
    settlement is through, the settlement result of [register_order] is
    [{"settled": False, "reason": "timeout"}]; with that result the
    request (its names ASCII text, its amounts in the range of [float])
    ends in the failure response, no [trade_executed] record is
    written, and [cancel_order] is called for the order [register_order]
    holds, when its id is not 0.  That order is the one the book
    returned, or the copy of the request with the id 1 when the book
    returned none: for Bob's bid, filled in full against Alice's resting
    ask, a settlement that times out makes the request ask the book to
    cancel the bid with id 1, an order the request never placed, while
    the settlement it gave up waiting for is left running. *)
Theorem timeout_cancels_stand_in_order :
  (forall W cfg cls od h s k,
      getenv_SETTLEMENT_SYNC_TIMEOUT W = Val s ->
      wait_for_budget W h = Some k ->
      (k < length (calls (settle_trades_if_any_same W cfg cls od) h))%nat ->
      result (run_settlement W cfg cls od) h
      = Val (unsettled (Some "timeout") None))
  /\ (forall W cfg cls hl hf pl h r es,
         plain_payload pl = true ->
         register_order W cfg cls hl hf pl h = (Val r, es) ->
         after_settlement r = true ->
         let h_p :=
           h ++ calls (validate_order_prerequisites W cfg pl) h
             ++ [EvProcessOrder (symbol_of pl) (quote_of_payload pl)] in
         exists pr ts,
           process_order W h_p (symbol_of pl) (quote_of_payload pl) = Val pr
           /\ o_timestamp (order_of_result pr) = Some ts
           /\ (pr_trades pr <> [] ->
               let od :=
                 order_dict_of (order_of_result pr)
                   (map convert_trade (pr_trades pr)) ts in
               let h_s :=
                 h_p ++ placement_events hl hf
                          (placement_of (symbol_of pl) od) in
               exists info,
                 result (run_settlement W cfg cls od) h_s = Val info
                 /\ (info = unsettled (Some "timeout") None ->
                     r = SettlementFailed info
                     /\ Forall (fun ev => is_trade_executed_event ev = false) es
                     /\ filter (fun ev => is_cancel_event ev = true) es
                        = rollback_calls (symbol_of pl) (order_of_result pr))))
  /\ plain_payload sample_payload = true
  /\ (forall h, wait_for_budget (filled_bid_world (Some 0%nat)) h = Some 0%nat)
  /\ (forall h symbol q,
         exists pr,
           process_order (filled_bid_world (Some 0%nat)) h symbol q = Val pr
           /\ pr_trades pr = [sample_trade] /\ pr_order pr = None)
  /\ exists es,
       register_order (filled_bid_world (Some 0%nat)) sample_cfg
         SettlementClientSame true true sample_payload []
       = (Val (SettlementFailed (unsettled (Some "timeout") None)), es)
       /\ filter (fun ev => is_cancel_event ev = true) es
          = [EvCancelOrder "HBAR_USDT" "bid" 1]
       /\ Forall (fun ev => is_trade_executed_event ev = false) es
       /\ In EvSettlementAbandoned es.
Proof.
  split; [|split; [|split; [vm_compute; reflexivity|split; [|split]]]].
  - intros W cfg cls od h s k. apply run_settlement_timeout.
  - intros W cfg cls hl hf pl h r es _ H Hr h_p.
    destruct (register_order_outcome W cfg cls hl hf pl h r es H Hr)
      as (pr & ts & vd & Hpr & Hts & Hout).
    exists pr, ts. split; [exact Hpr|]. split; [exact Hts|].
    intros Htr od h_s. destruct (Hout Htr) as (info & Hinfo & Hcases).
    exists info. split; [exact Hinfo|]. intros ->.
    destruct Hcases as [([Hs _] & _)|(_ & Hr' & Hx & Hc)]; [discriminate|].
    auto.
  - reflexivity.
  - intros h symbol q. eexists. split; [reflexivity|]. split; reflexivity.
  - vm_compute. eexists. split; [reflexivity|]. split; [reflexivity|].
    split; [repeat constructor|]. auto 20.
Qed.

Section CrossRegistrationTraces.

Variable W : World.
Variable cfg : Config.

Lemma silent_emits {A} (P : event -> Prop) (m : M A) :
  emits (fun _ => False) m -> emits P m.
Proof. apply emits_weaken. intros ev []. Qed.

Lemma cross_check_escrow_balance_emits (P : event -> Prop) c s u t :
  P (EvCrossCheckEscrowBalance c s u t) ->
  emits P (cross_check_escrow_balance W c s u t).
Proof.
  intros HP. unfold cross_check_escrow_balance.
  apply emits_bind; [apply emits_emit; exact HP|intros _].
  apply emits_try; [|intros e; emits_step].
  repeat (apply emits_bind; [apply silent_emits, checksum_silent|intros ?]).
  emits_split.
Qed.

Lemma cross_settle_emits c s td b :
  emits cross_registration_event (cross_settle_cross_chain_trade W c s td b).
Proof.
  unfold cross_settle_cross_chain_trade.
  apply emits_bind; [apply emits_emit; exact I|intros _].
  apply emits_bind; [apply silent_emits, checksum_silent|intros ?].
  emits_step.
Qed.

Lemma cross_init_emits rpc key :
  emits cross_registration_event (SettlementClientCross_init W rpc key).
Proof.
  eapply emits_weaken; [|apply SettlementClientCross_init_emits].
  intros ev ->. exact I.
Qed.

Lemma build_trade_data_emits body t :
  emits cross_registration_event (build_trade_data W cfg body t).
Proof.
  unfold build_trade_data.
  apply emits_bind; [apply silent_emits, party1_assets_silent|intros [b1 q1]].
  apply emits_bind; [apply silent_emits, party2_assets_silent|intros [b2 q2]].
  apply emits_bind; [emits_split|intros [[[sp dp] ba] qa]].
  apply emits_bind; [apply emits_emit; exact I|intros _].
  apply emits_bind; [emits_step|intros tok].
  repeat (apply emits_bind; [apply silent_emits, checksum_silent|intros ?]).
  repeat (apply emits_bind; [apply silent_emits, net_chain_id_silent|intros ?]).
  emits_split.
Qed.

Lemma submit_cross_trade_emits td sc dc :
  emits cross_registration_event (submit_cross_trade W cfg td sc dc).
Proof.
  unfold submit_cross_trade.
  apply emits_bind; [apply silent_emits, net_rpc_silent|intros ?].
  apply emits_bind; [apply cross_init_emits|intros ?].
  apply emits_bind; [apply silent_emits, net_rpc_silent|intros ?].
  apply emits_bind; [apply cross_init_emits|intros ?].
  apply emits_bind; [apply silent_emits, net_contract_address_silent|intros ?].
  apply emits_bind; [apply cross_settle_emits|intros ?].
  apply emits_bind; [apply silent_emits, net_contract_address_silent|intros ?].
  apply emits_bind; [apply cross_settle_emits|intros ?].
  emits_step.
Qed.

Lemma settle_cross_trades_emits body trades :
  emits cross_registration_event (settle_cross_trades W cfg body trades).
Proof.
  induction trades as [|t rest IH]; cbn [settle_cross_trades]; [emits_step|].
  apply emits_bind.
  - unfold settle_cross_trade.
    apply emits_bind; [apply build_trade_data_emits|intros [[td sc] dc]].
    apply submit_cross_trade_emits.
  - intros r. apply emits_bind; [exact IH|intros rs; emits_step].
Qed.

(** X12 : [register_order_cross] writes nothing to the activity log or the
    activity file and never calls [cancel_order], whatever happens to the
    settlement: its calls are connections, escrow reads, the order book,
    the random source and settlement submissions only. *)
Theorem cross_registration_never_logs_nor_cancels (body : cross_body) :
  emits (fun ev =>
           match ev with
           | EvActivityLog _ | EvAppendFile _ | EvCancelOrder _ _ _ => False
           | _ => True
           end)
        (register_order_cross W cfg body).
Proof.
  eapply emits_weaken with (P := cross_registration_event).
  { intros []; cbn; auto. }
  unfold register_order_cross.
  apply emits_try; [|intros e; emits_step].
  apply emits_bind; [apply silent_emits, net_contract_address_silent|intros ?].
  apply emits_bind; [apply silent_emits, net_token_silent|intros ?].
  apply emits_bind; [apply silent_emits, net_rpc_silent|intros ?].
  apply emits_bind; [apply cross_init_emits|intros ?].
  apply emits_bind; [apply cross_check_escrow_balance_emits; exact I|intros ?].
  apply emits_bind; [emits_step|intros [[total available] locked]].
  destruct (ltb _ _); [emits_step|].
  apply emits_bind; [emits_step|intros ?].
  apply emits_bind; [apply emits_emit; exact I|intros _].
  apply emits_bind; [emits_step|intros [[[trades ord] tid] nb]].
  destruct (negb _); [emits_step|].
  apply emits_bind; [apply settle_cross_trades_emits|intros ?].
  emits_step.
Qed.

Lemma bind_cases {A B} (m : M A) (f : A -> M B) h r es :
  bind m f h = (r, es) ->
  (exists e, m h = (Exc e, es) /\ r = Exc e)
  \/ exists a es1 es2,
       m h = (Val a, es1) /\ f a (h ++ es1) = (r, es2) /\ es = es1 ++ es2.
Proof.
  unfold bind. destruct (m h) as [[a|e] es1].
  - destruct (f a (h ++ es1)) as [r' es2] eqn:E. intros [= <- <-].
    right. exists a, es1, es2. auto.
  - intros [= <- <-]. left. exists e. auto.
Qed.

Lemma try_val_inv {A} (m : M A) (hd : exn -> M A) h r es :
  try_except m hd h = (Val r, es) ->
  m h = (Val r, es)
  \/ exists e es1 es2,
       m h = (Exc e, es1) /\ hd e (h ++ es1) = (Val r, es2) /\ es = es1 ++ es2.
Proof.
  unfold try_except. destruct (m h) as [[a|e] es1].
  - intros [= <- <-]. left. reflexivity.
  - destruct (hd e (h ++ es1)) as [r' es2] eqn:E. intros [= -> <-].
    right. exists e, es1, es2. auto.
Qed.

Lemma net_token_tokens_raises n a h x es :
  net_token_tokens cfg n a h = (Val x, es) -> False.
Proof.
  unfold net_token_tokens. intros H.
  apply bind_inv in H as (y & e1 & e2 & _ & H & _). discriminate.
Qed.

Lemma build_trade_data_sides body t h x es :
  build_trade_data W cfg body t h = (Val x, es) ->
  xp_side (xt_party1 t) = "bid" /\ xp_side (xt_party2 t) = "ask".
Proof.
  intros H. unfold build_trade_data in H.
  apply bind_inv in H as ([b1 q1] & e1 & e1' & H1 & H & _).
  assert (streq (xp_side (xt_party1 t)) "bid" = true) as Hbid.
  { unfold party1_assets in H1.
    destruct (streq (xp_side (xt_party1 t)) "bid"); [reflexivity|].
    apply bind_inv in H1 as (y & e & e' & H1 & _).
    apply net_token_tokens_raises in H1. destruct H1. }
  apply bind_inv in H as ([b2 q2] & e2 & e2' & _ & H & _).
  apply bind_inv in H as (y & e3 & e3' & H3 & _).
  apply String.eqb_eq in Hbid. rewrite Hbid in *. split; [reflexivity|].
  cbn in H3.
  destruct (streq (xp_side (xt_party2 t)) "ask") eqn:Hask; [|discriminate].
  apply String.eqb_eq in Hask. exact Hask.
Qed.

Lemma settle_cross_trades_sides body trades :
  forall h rs es,
    settle_cross_trades W cfg body trades h = (Val rs, es) ->
    length rs = length trades
    /\ Forall (fun t => xp_side (xt_party1 t) = "bid"
                        /\ xp_side (xt_party2 t) = "ask") trades.
Proof.
  induction trades as [|t rest IH]; intros h rs es; cbn [settle_cross_trades].
  - unfold ret. intros [= <- _]. split; [reflexivity|constructor].
  - intros H.
    apply bind_inv in H as (r & e1 & e1' & Ht & H & _).
    apply bind_inv in H as (rs' & e2 & e2' & Hrest & H & _).
    unfold ret in H. injection H as <- _.
    apply IH in Hrest as [Hlen Hall].
    unfold settle_cross_trade in Ht.
    apply bind_inv in Ht as (x & e3 & e3' & Hb & _).
    apply build_trade_data_sides in Hb.
    split; [cbn; congruence|constructor; assumption].
Qed.

(** X13 : [register_order_cross] answers as registered only if every
    trade the book returned lists the bid as [party1] and the ask as
    [party2]; it then carries one pair of receipts per trade. *)
Theorem cross_registration_settles_bid_first_trades_only
    (body : cross_body) (h : history) (total available locked : Z)
    (ord : option order) (task_id : option Z) (next_best_order : option order)
    (receipts : list (cross_receipt * cross_receipt)) :
  result (register_order_cross W cfg body) h
  = Val (CrossRegistered total available locked ord task_id next_best_order
           receipts) ->
  exists h' symbol q trades,
    process_order_cross W h' symbol q
    = Val (trades, ord, task_id, next_best_order)
    /\ length receipts = length trades
    /\ Forall (fun t => xp_side (xt_party1 t) = "bid"
                        /\ xp_side (xt_party2 t) = "ask") trades.
Proof.
  unfold result. intros H.
  destruct (register_order_cross W cfg body h) as [r es] eqn:E.
  cbn in H. subst r. unfold register_order_cross in E.
  apply try_val_inv in E as [E|(e & es1 & es2 & _ & E & _)];
    [|unfold ret in E; discriminate].
  apply bind_inv in E as (addr & e1 & e1' & _ & E & _).
  apply bind_inv in E as (tok & e2 & e2' & _ & E & _).
  apply bind_inv in E as (rpc & e3 & e3' & _ & E & _).
  apply bind_inv in E as (c & e4 & e4' & _ & E & _).
  apply bind_inv in E as (bal & e5 & e5' & _ & E & _).
  apply bind_inv in E as ([[t a] l] & e6 & e6' & _ & E & _).
  destruct (ltb _ _); [discriminate|].
  apply bind_inv in E as (had & e7 & e7' & _ & E & _).
  apply bind_inv in E as ([] & e8 & e8' & _ & E & _).
  apply bind_inv in E as ([[[trades o] tid] nb] & e9 & e9' & Hp & E & _).
  unfold call in Hp. injection Hp as Hp _.
  destruct (negb _); [discriminate|].
  apply bind_inv in E as (rs & e10 & e10' & Hs & E & _).
  unfold ret in E. injection E as _ _ _ <- <- <- <-.
  apply settle_cross_trades_sides in Hs as [Hlen Hall].
  eexists _, _, _, trades. split; [exact Hp|]. split; assumption.
Qed.

Lemma cross_check_some c sa ua ta h b es :
  cross_check_escrow_balance W c sa ua ta h = (Val (Some b), es) ->
  exists s u t h',
    to_checksum_address W sa = Some s
    /\ to_checksum_address W ua = Some u
    /\ to_checksum_address W ta = Some t
    /\ cross_checkEscrowBalance W h' (xc_rpc c) s u t = Val b.
Proof.
  unfold cross_check_escrow_balance. intros H.
  apply bind_inv in H as ([] & e1 & e1' & _ & H & _).
  apply try_val_inv in H as [H|(e & es1 & es2 & _ & H & _)];
    [|unfold ret in H; discriminate].
  apply bind_inv in H as (s & e2 & e2' & Hs & H & _).
  apply bind_inv in H as (u & e3 & e3' & Hu & H & _).
  apply bind_inv in H as (t & e4 & e4' & Ht & H & _).
  apply bind_inv in H as (b' & e5 & e5' & Hb & H & _).
  unfold ret in H. injection H as <- _.
  unfold call in Hb. injection Hb as Hb _.
  unfold checksum, some_or_raise in Hs, Hu, Ht.
  destruct (to_checksum_address W sa) as [s'|]; [|discriminate].
  destruct (to_checksum_address W ua) as [u'|]; [|discriminate].
  destruct (to_checksum_address W ta) as [t'|]; [|discriminate].
  unfold ret in Hs, Hu, Ht.
  injection Hs as <- _. injection Hu as <- _. injection Ht as <- _.
  eexists _, _, _, _. repeat split; try reflexivity. exact Hb.
Qed.

Lemma calls_bind_inv {A B} (m : M A) (f : A -> M B) h ev :
  In ev (calls (bind m f) h) ->
  In ev (calls m h)
  \/ exists a es1, m h = (Val a, es1) /\ In ev (calls (f a) (h ++ es1)).
Proof.
  unfold calls, bind. destruct (m h) as [[a|e] es1]; cbn.
  - destruct (f a (h ++ es1)) as [r es2] eqn:E. cbn. intros Hin.
    apply in_app_or in Hin as [Hin|Hin]; [left; exact Hin|].
    right. exists a, es1. rewrite E. auto.
  - auto.
Qed.

(** X14 : [register_order_cross] hands an order to the book only after an
    escrow read of the account whose available amount, taken as the
    contract returns it in base units, not divided by any power of ten,
    and converted to a [float], is not below the [float] quantity (ask)
    or quantity times price (bid) of the request. *)
Theorem cross_order_accepted_on_raw_balance
    (body : cross_body) (h : history) (ev : event) :
  In ev (calls (register_order_cross W cfg body) h) ->
  is_process_order ev = true ->
  exists total available locked h' rpc s u t,
    cross_checkEscrowBalance W h' rpc s u t = Val (total, available, locked)
    /\ to_checksum_address W (cb_account body) = Some u
    /\ ~ (to_float (inject_Z available) < cross_amount body)%Q.
Proof.
  intros Hin Hproc. unfold register_order_cross in Hin.
  assert (forall A (m : M A), emits (fun _ => False) m ->
            forall h0, In ev (calls m h0) -> False) as Hsilent.
  { intros A m Hm h0 Hi. exact (emits_in _ _ _ _ Hm Hi). }
  unfold calls, try_except in Hin.
  match type of Hin with
  | In ev (snd (let (_, _) := ?m h in _)) =>
      assert (In ev (calls m h)) as Hin';
        [unfold calls; destruct (m h) as [[r|e] es]; cbn in Hin |- *;
         [exact Hin|rewrite app_nil_r in Hin; exact Hin]|]
  end.
  clear Hin. rename Hin' into Hin.
  apply calls_bind_inv in Hin as [Hin|(addr & e1 & _ & Hin)];
    [destruct (Hsilent _ _ (net_contract_address_silent cfg _) _ Hin)|].
  apply calls_bind_inv in Hin as [Hin|(tok & e2 & _ & Hin)];
    [destruct (Hsilent _ _ (net_token_silent cfg _ _) _ Hin)|].
  apply calls_bind_inv in Hin as [Hin|(rpc & e3 & _ & Hin)];
    [destruct (Hsilent _ _ (net_rpc_silent cfg _) _ Hin)|].
  apply calls_bind_inv in Hin as [Hin|(c & e4 & _ & Hin)].
  { apply (emits_in _ _ _ _ (SettlementClientCross_init_emits W _ _)) in Hin.
    subst ev. discriminate. }
  apply calls_bind_inv in Hin as [Hin|(bal & e5 & Hbal & Hin)].
  { unfold cross_check_escrow_balance in Hin.
    apply calls_bind_inv in Hin as [Hin|([] & e6 & _ & Hin)].
    - unfold calls, emit in Hin. cbn in Hin. destruct Hin as [<-|[]]. discriminate.
    - exfalso. revert Hin. apply Hsilent.
      apply emits_try; [|intros e; emits_step].
      repeat (apply emits_bind; [apply checksum_silent|intros ?]).
      emits_split. }
  apply calls_bind_inv in Hin as [Hin|([[total available] locked] & e6 & Hsome & Hin)].
  { exfalso. revert Hin. apply Hsilent. emits_step. }
  destruct bal as [b|]; [|discriminate].
  unfold some_or_raise, ret in Hsome. injection Hsome as -> _.
  fold (cross_amount body) in Hin.
  destruct (ltb (to_float (inject_Z available)) (cross_amount body)) eqn:Hlt.
  { destruct Hin. }
  apply cross_check_some in Hbal as (s & u & t & h' & _ & Hu & _ & Hb).
  exists total, available, locked, h', (xc_rpc c), s, u, t.
  split; [exact Hb|]. split; [exact Hu|].
  intros Hq. apply ltb_lt in Hq. congruence.
Qed.

Lemma cross_submissions_app a b :
  cross_submissions (a ++ b) = cross_submissions a ++ cross_submissions b.
Proof. apply omap_app. Qed.

Lemma silent_run {A} (m : M A) h r es :
  emits (fun _ => False) m -> m h = (r, es) -> cross_submissions es = [].
Proof. intros Hm E. apply (silent _ _ _ _ Hm) in E. subst. reflexivity. Qed.

Lemma cross_init_run rpc key h r es :
  SettlementClientCross_init W rpc key h = (r, es) -> cross_submissions es = [].
Proof.
  intros E.
  pose proof (SettlementClientCross_init_emits W rpc key h) as Hc.
  unfold calls in Hc. rewrite E in Hc. cbn in Hc.
  eapply no_cross_submissions; [|exact Hc]. intros ? ->. reflexivity.
Qed.

(** The submissions of one trade: none, the source leg, or both legs; both
    when the two calls returned. *)
Lemma submit_cross_trade_legs td sc dc h r es :
  submit_cross_trade W cfg td sc dc h = (r, es) ->
  (cross_submissions es = [(td, true); (td, false)]
   \/ (exists e, r = Exc e)
       /\ (cross_submissions es = [] \/ cross_submissions es = [(td, true)])).
Proof.
  intros H. destruct r as [x|e].
  { left. eapply submit_cross_trade_calls. exact H. }
  unfold submit_cross_trade in H.
  apply bind_cases in H as [(e0 & H & _)|(a1 & s1 & t1 & H1 & H & ->)].
  { right. split; [eauto|]. left. eapply silent_run; [apply net_rpc_silent|exact H]. }
  apply (silent_run _ _ _ _ (net_rpc_silent cfg _)) in H1.
  apply bind_cases in H as [(e0 & H & _)|(a2 & s2 & t2 & H2 & H & ->)].
  { right. split; [eauto|]. left. rewrite cross_submissions_app, H1.
    eapply cross_init_run. exact H. }
  apply cross_init_run in H2.
  apply bind_cases in H as [(e0 & H & _)|(a3 & s3 & t3 & H3 & H & ->)].
  { right. split; [eauto|]. left. rewrite !cross_submissions_app, H1, H2.
    eapply silent_run; [apply net_rpc_silent|exact H]. }
  apply (silent_run _ _ _ _ (net_rpc_silent cfg _)) in H3.
  apply bind_cases in H as [(e0 & H & _)|(a4 & s4 & t4 & H4 & H & ->)].
  { right. split; [eauto|]. left. rewrite !cross_submissions_app, H1, H2, H3.
    eapply cross_init_run. exact H. }
  apply cross_init_run in H4.
  apply bind_cases in H as [(e0 & H & _)|(a5 & s5 & t5 & H5 & H & ->)].
  { right. split; [eauto|]. left. rewrite !cross_submissions_app, H1, H2, H3, H4.
    eapply silent_run; [apply net_contract_address_silent|exact H]. }
  apply (silent_run _ _ _ _ (net_contract_address_silent cfg _)) in H5.
  apply bind_cases in H as [(e0 & H & _)|(a6 & s6 & t6 & H6 & H & ->)].
  { right. split; [eauto|]. right.
    apply cross_settle_calls in H. subst.
    rewrite !cross_submissions_app, H1, H2, H3, H4, H5. reflexivity. }
  apply cross_settle_calls in H6. subst s6.
  apply bind_cases in H as [(e0 & H & _)|(a7 & s7 & t7 & H7 & H & ->)].
  { right. split; [eauto|]. right.
    apply (silent_run _ _ _ _ (net_contract_address_silent cfg _)) in H.
    rewrite !cross_submissions_app, H1, H2, H3, H4, H5, H. reflexivity. }
  apply (silent_run _ _ _ _ (net_contract_address_silent cfg _)) in H7.
  apply bind_cases in H as [(e0 & H & _)|(a8 & s8 & t8 & H8 & H & ->)].
  { left. apply cross_settle_calls in H. subst.
    rewrite !cross_submissions_app, H1, H2, H3, H4, H5, H7. reflexivity. }
  unfold ret in H. discriminate.
Qed.

Lemma build_trade_data_run body t h r es :
  build_trade_data W cfg body t h = (r, es) -> cross_submissions es = [].
Proof.
  intros E.
  assert (emits (fun ev => ev = EvTokenHex) (build_trade_data W cfg body t)) as Hm.
  { unfold build_trade_data.
    apply emits_bind; [apply silent_emits, party1_assets_silent|intros [b1 q1]].
    apply emits_bind; [apply silent_emits, party2_assets_silent|intros [b2 q2]].
    apply emits_bind; [emits_split|intros [[[sp dp] ba] qa]].
    apply emits_bind; [apply emits_emit; reflexivity|intros _].
    apply emits_bind; [emits_step|intros tok].
    repeat (apply emits_bind; [apply silent_emits, checksum_silent|intros ?]).
    repeat (apply emits_bind; [apply silent_emits, net_chain_id_silent|intros ?]).
    emits_split. }
  specialize (Hm h). unfold calls in Hm. rewrite E in Hm. cbn in Hm.
  eapply no_cross_submissions; [|exact Hm]. intros ? ->. reflexivity.
Qed.

Lemma settle_cross_trade_legs body t h r es :
  settle_cross_trade W cfg body t h = (r, es) ->
  (exists td, cross_submissions es = [(td, true); (td, false)])
  \/ (exists e, r = Exc e)
      /\ (cross_submissions es = []
          \/ exists td, cross_submissions es = [(td, true)]).
Proof.
  unfold settle_cross_trade. intros H.
  apply bind_cases in H as [(e0 & H & ->)|([[td sc] dc] & s1 & t1 & H1 & H & ->)].
  - right. split; [eauto|]. left. eapply build_trade_data_run. exact H.
  - apply build_trade_data_run in H1.
    apply submit_cross_trade_legs in H.
    rewrite cross_submissions_app, H1. cbn [app].
    destruct H as [H|[He [H|H]]]; eauto 6.
Qed.

Lemma settle_cross_trades_paired body trades :
  forall h r es,
    settle_cross_trades W cfg body trades h = (r, es) ->
    paired (cross_submissions es).
Proof.
  induction trades as [|t rest IH]; intros h r es; cbn [settle_cross_trades].
  - unfold ret. intros [= _ <-]. exact I.
  - intros H.
    apply bind_cases in H as [(e0 & H & _)|(x & s1 & t1 & H1 & H & ->)].
    + apply settle_cross_trade_legs in H
        as [[td ->]|[_ [->|[td ->]]]]; cbn; auto.
    + apply settle_cross_trade_legs in H1 as [[td H1]|[[e He] _]];
        [|discriminate].
      rewrite cross_submissions_app, H1.
      apply bind_cases in H as [(e0 & H & _)|(rs & s2 & t2 & H2 & H & ->)].
      * apply IH in H. cbn. auto.
      * apply IH in H2. unfold ret in H. injection H as _ <-.
        rewrite app_nil_r. cbn. auto.
Qed.

(** X15 : the settlement submissions of [register_order_cross] come as a
    source-chain call followed by the destination-chain call with the
    same trade data, trade after trade; only the last source-chain call
    can be left without its destination call, when an error ends the
    request there. *)
Theorem cross_registration_legs_come_in_pairs
    (body : cross_body) (h : history) :
  paired (cross_submissions (calls (register_order_cross W cfg body) h)).
Proof.
  unfold calls, register_order_cross, try_except.
  match goal with
  | |- paired (cross_submissions (snd (let (_, _) := ?m h in _))) =>
      assert (paired (cross_submissions (snd (m h)))) as Hm;
        [|destruct (m h) as [[r|e] es]; cbn in Hm |- *;
          [exact Hm|rewrite app_nil_r; exact Hm]]
  end.
  match goal with
  | |- paired (cross_submissions (snd (?m h))) =>
      destruct (m h) as [r es] eqn:E
  end.
  cbn [snd].
  apply bind_cases in E as [(e0 & E & _)|(a1 & s1 & t1 & H1 & E & ->)].
  { rewrite (silent_run _ _ _ _ (net_contract_address_silent cfg _) E). exact I. }
  apply (silent_run _ _ _ _ (net_contract_address_silent cfg _)) in H1.
  apply bind_cases in E as [(e0 & E & _)|(a2 & s2 & t2 & H2 & E & ->)].
  { rewrite cross_submissions_app, H1,
      (silent_run _ _ _ _ (net_token_silent cfg _ _) E). exact I. }
  apply (silent_run _ _ _ _ (net_token_silent cfg _ _)) in H2.
  apply bind_cases in E as [(e0 & E & _)|(a3 & s3 & t3 & H3 & E & ->)].
  { rewrite !cross_submissions_app, H1, H2,
      (silent_run _ _ _ _ (net_rpc_silent cfg _) E). exact I. }
  apply (silent_run _ _ _ _ (net_rpc_silent cfg _)) in H3.
  apply bind_cases in E as [(e0 & E & _)|(a4 & s4 & t4 & H4 & E & ->)].
  { rewrite !cross_submissions_app, H1, H2, H3, (cross_init_run _ _ _ _ _ E).
    exact I. }
  apply cross_init_run in H4.
  assert (forall c s u t h0 r0 es0,
             cross_check_escrow_balance W c s u t h0 = (r0, es0) ->
             cross_submissions es0 = []) as Hcheck.
  { intros c s u t h0 r0 es0 E0.
    pose proof (cross_check_escrow_balance_emits
                  (fun ev => is_submission ev = false) c s u t eq_refl h0) as Hc.
    unfold calls in Hc. rewrite E0 in Hc. cbn in Hc.
    eapply no_cross_submissions; [|exact Hc]. auto. }
  apply bind_cases in E as [(e0 & E & _)|(a5 & s5 & t5 & H5 & E & ->)].
  { rewrite !cross_submissions_app, H1, H2, H3, H4, (Hcheck _ _ _ _ _ _ _ E).
    exact I. }
  apply Hcheck in H5.
  apply bind_cases in E as [(e0 & E & _)|([[tot av] lk] & s6 & t6 & H6 & E & ->)].
  { rewrite !cross_submissions_app, H1, H2, H3, H4, H5.
    rewrite (silent_run _ _ _ _ (emits_some_or_raise _ _ _) E). exact I. }
  apply (silent_run _ _ _ _ (emits_some_or_raise _ _ _)) in H6.
  destruct (ltb _ _).
  { unfold raise in E. injection E as _ <-.
    rewrite !cross_submissions_app, H1, H2, H3, H4, H5, H6. exact I. }
  apply bind_cases in E as [(e0 & E & _)|(a7 & s7 & t7 & H7 & E & ->)];
    [discriminate|].
  unfold ask in H7. injection H7 as _ <-.
  apply bind_cases in E as [(e0 & E & _)|([] & s8 & t8 & H8 & E & ->)];
    [discriminate|].
  unfold emit in H8. injection H8 as <-.
  apply bind_cases in E as [(e0 & E & _)|([[[trades o] tid] nb] & s9 & t9 & H9 & E & ->)].
  { unfold call in E. injection E as _ <-.
    rewrite !cross_submissions_app, H1, H2, H3, H4, H5, H6. exact I. }
  unfold call in H9. injection H9 as _ <-.
  destruct (negb _).
  { unfold raise in E. injection E as _ <-.
    rewrite !cross_submissions_app, H1, H2, H3, H4, H5, H6. exact I. }
  apply bind_cases in E as [(e0 & E & _)|(rs & s10 & t10 & H10 & E & ->)].
  { apply settle_cross_trades_paired in E.
    rewrite !cross_submissions_app, H1, H2, H3, H4, H5, H6. exact E. }
  apply settle_cross_trades_paired in H10.
  unfold ret in E. injection E as _ <-.
  rewrite !cross_submissions_app, H1, H2, H3, H4, H5, H6, app_nil_r. exact H10.
Qed.

End CrossRegistrationTraces.

Section UnreadableBalance.

Variable W : World.
Variable cfg : Config.

Lemma balance_at_unreadable c user token d h :
  (forall h' rpc addr u t, exists e, checkEscrowBalance W h' rpc addr u t = Exc e) ->
  exists msg, balance_at W c user token d h = balance_error msg.
Proof.
  intros Hfail. unfold balance_at, result, check_escrow_balance_try.
  run.
  destruct (to_checksum_address W user) as [u|]; cbn; [|eauto].
  destruct (to_checksum_address W token) as [t|]; cbn; [|eauto].
  match goal with
  | |- context [checkEscrowBalance W ?hh ?r ?a u t] =>
      destruct (Hfail hh r a u t) as [e ->]
  end.
  cbn. eauto.
Qed.

Lemma balance_attempts_unreadable attempts c acct token d :
  (forall h' rpc addr u t, exists e, checkEscrowBalance W h' rpc addr u t = Exc e) ->
  forall current h,
  exists b es,
    balance_attempts W attempts c acct token d current h = (Val b, es)
    /\ es = repeat (EvCheckEscrowBalance c acct token d) attempts
    /\ (attempts <> O -> exists msg, b = balance_error msg).
Proof.
  intros Hfail.
  induction attempts as [|n IH]; intros current h; cbn [balance_attempts].
  - exists current, []. repeat split. intros []. reflexivity.
  - unfold bind at 1, try_except. rewrite check_escrow_balance_run.
    destruct (balance_at_unreadable c acct token d h Hfail) as [msg Emsg].
    rewrite Emsg. cbn [bi_error balance_error].
    destruct (IH (balance_error msg) (h ++ [EvCheckEscrowBalance c acct token d]))
      as (b & es & Hrun & Hes & Hb).
    rewrite Hrun. eexists _, _. split; [reflexivity|].
    split; [cbn; rewrite Hes; reflexivity|].
    intros _. destruct n as [|n'].
    + cbn in Hrun. unfold ret in Hrun. injection Hrun as <- _. eauto.
    + apply Hb. discriminate.
Qed.

(** X16 : when every escrow read fails, [validate_order_prerequisites]
    reads the balance four times (the first read and three retries), then
    takes the total, available and locked escrow to be 0: the order is
    refused for insufficient escrow with available 0 exactly when the
    required amount is positive, and passes otherwise. *)
Theorem unreadable_balance_counts_as_zero
    (order_data : payload) (h : history) (v : validation) (es : list event)
    (cks : checks) :
  (forall h' rpc addr u t, exists e, checkEscrowBalance W h' rpc addr u t = Exc e) ->
  validate_order_prerequisites W cfg order_data h = (Val v, es) ->
  v_checks v = Some cks ->
  length (filter (fun ev => is_balance_read ev = true) es) = 4%nat
  /\ ck_available_escrow cks = 0%Q
  /\ ck_total_escrow cks = 0%Q
  /\ ck_locked_escrow cks = 0%Q
  /\ v_valid v = negb (ltb 0 (ck_required_amount cks))
  /\ (v_valid v = false ->
      v_errors v = [InsufficientEscrow (ck_required_amount cks) 0]).
Proof.
  intros Hfail Hrun Hcks.
  unfold validate_order_prerequisites in Hrun.
  destruct (negb (token_configured _)).
  { unfold try_except, ret in Hrun. injection Hrun as <- _. discriminate. }
  unfold try_except in Hrun. unfold bind at 1 in Hrun.
  rewrite SettlementClientSame_init_run in Hrun.
  destruct (result (SettlementClientSame_init W _ _ _) h) as [c|e] eqn:Ec.
  2:{ unfold ret in Hrun. cbn in Hrun. injection Hrun as <- _. discriminate. }
  unfold bind at 1 in Hrun. rewrite decimals_attempts_run in Hrun.
  unfold bind at 1 in Hrun.
  match type of Hrun with
  | context [balance_attempts W 4 c ?a ?tok ?d ?cur ?hh] =>
      destruct (balance_attempts_unreadable 4 c a tok d Hfail cur hh)
        as (b & esb & Hb & Hesb & Hmsg)
  end.
  rewrite Hb in Hrun.
  destruct (Hmsg ltac:(discriminate)) as [msg ->].
  cbn [bi_available bi_total bi_locked balance_error get0 default] in Hrun.
  match type of Hrun with
  | context [ltb 0 ?req] => destruct (ltb 0 req) eqn:Elt
  end;
    unfold ret in Hrun; cbn in Hrun; injection Hrun as <- <-;
    cbn in Hcks; injection Hcks as <-; cbn;
    rewrite Hesb, ?Elt; repeat split; try reflexivity; try discriminate.
Qed.

End UnreadableBalance.

Section MarketMakerFacts.

Lemma network_map_some name n :
  network_map name = Some n ->
  (name = "hedera" /\ n = HEDERA) \/ (name = "ethereum" /\ n = ETHEREUM).
Proof.
  unfold network_map.
  destruct (streq name "hedera") eqn:E1.
  - apply String.eqb_eq in E1. intros [= <-]. auto.
  - destruct (streq name "ethereum") eqn:E2; [|discriminate].
    apply String.eqb_eq in E2. intros [= <-]. auto.
Qed.

(** X17 : the market maker parses an order only if it goes from Hedera to
    Ethereum or from Ethereum to Hedera (names compared in lower case);
    the parsed order carries the lower-cased names and the network it
    starts from. *)
Theorem parsed_order_spans_two_networks
    (now : Z) (order : raw_order) (o : CrossChainOrder) :
  parse_cross_chain_order now order = Some o ->
  cco_from_network o = lower (default "" (ro_from_network order))
  /\ cco_to_network o = lower (default "" (ro_to_network order))
  /\ ((cco_from_network o = "hedera" /\ cco_to_network o = "ethereum"
       /\ cco_network o = HEDERA)
      \/ (cco_from_network o = "ethereum" /\ cco_to_network o = "hedera"
          /\ cco_network o = ETHEREUM)).
Proof.
  unfold parse_cross_chain_order, is_cross_chain_order.
  set (f := lower (default "" (ro_from_network order))).
  set (t := lower (default "" (ro_to_network order))).
  destruct (negb (negb (streq f t) && truthy f && truthy t)) eqn:Hc;
    [discriminate|].
  apply negb_false_iff in Hc.
  apply andb_true_iff in Hc as [Hc _]. apply andb_true_iff in Hc as [Hne _].
  apply negb_true_iff in Hne.
  destruct (network_map f) as [nf|] eqn:Ef; [|discriminate].
  destruct (network_map t) as [nt|] eqn:Et; [|discriminate].
  intros [= <-]. cbn.
  split; [reflexivity|]. split; [reflexivity|].
  apply network_map_some in Ef as [[Ef ->]|[Ef ->]];
    apply network_map_some in Et as [[Et ->]|[Et ->]];
    rewrite Ef, Et in *; auto; discriminate.
Qed.

Lemma ltb_ge x y : ltb x y = false -> (y <= x)%Q.
Proof.
  intros H. apply Qnot_lt_le. intros Hlt. apply ltb_lt in Hlt. congruence.
Qed.

Lemma ltb_false_iff x y : ltb x y = false <-> (y <= x)%Q.
Proof.
  split; [apply ltb_ge|].
  intros H. destruct (ltb x y) eqn:E; [|reflexivity].
  apply ltb_lt in E. exfalso. exact (Qlt_not_le _ _ E H).
Qed.

(** The trade id of a pair checked at [now]. *)
Lemma compatibility_inv now order1 order2 m :
  _check_order_compatibility now order1 order2 = Some m ->
  exists ask bid,
    ((ask = order1 /\ bid = order2) \/ (ask = order2 /\ bid = order1))
    /\ cco_side ask = "ask" /\ cco_side bid = "bid"
    /\ cco_base_asset ask = cco_base_asset bid
    /\ cco_quote_asset ask = cco_quote_asset bid
    /\ cco_to_network ask = cco_from_network bid
    /\ cco_from_network ask = cco_to_network bid
    /\ (dec_mul (cco_price ask) (dec_sub 1 matching_tolerance)
     <= cco_price bid)%Q
    /\ (min_trade_amount <= qmin (cco_quantity order1) (cco_quantity order2))%Q
    /\ m = {| ccm_source_order := ask; ccm_dest_order := bid;
              ccm_trade_id :=
                "cross_" +:+ cco_order_id order1 +:+ "_"
                +:+ cco_order_id order2 +:+ "_" +:+ str_int now;
              ccm_matched_quantity :=
                qmin (cco_quantity order1) (cco_quantity order2);
              ccm_matched_price := cco_price ask |}.
Proof.
  unfold _check_order_compatibility.
  destruct (streq (cco_side order1) (cco_side order2)); [discriminate|].
  destruct (streq (cco_base_asset order1) (cco_base_asset order2)) eqn:Eb;
    [|discriminate].
  destruct (streq (cco_quote_asset order1) (cco_quote_asset order2)) eqn:Eq;
    [|discriminate].
  destruct (streq (cco_to_network order1) (cco_from_network order2)) eqn:Et;
    [|discriminate].
  destruct (streq (cco_from_network order1) (cco_to_network order2)) eqn:Ef;
    [|discriminate].
  apply String.eqb_eq in Eb, Eq, Et, Ef. cbn [andb negb].
  destruct (streq (cco_side order1) "bid") eqn:E1b.
  - apply String.eqb_eq in E1b.
    destruct (streq (cco_side order2) "ask") eqn:E2a; cbn [andb].
    + apply String.eqb_eq in E2a.
      destruct (ltb (cco_price order1) _) eqn:Ep; [discriminate|].
      destruct (ltb (qmin _ _) min_trade_amount) eqn:Em; [discriminate|].
      rewrite E1b. cbn [streq String.eqb Ascii.eqb Bool.eqb].
      intros [= <-]. apply ltb_ge in Ep, Em.
      exists order2, order1. repeat split; auto.
    + rewrite E1b. cbn. discriminate.
  - cbn [andb].
    destruct (streq (cco_side order1) "ask") eqn:E1a; [|discriminate].
    destruct (streq (cco_side order2) "bid") eqn:E2b; [|discriminate].
    apply String.eqb_eq in E1a, E2b. cbn [andb].
    destruct (ltb (cco_price order2) _) eqn:Ep; [discriminate|].
    destruct (ltb (qmin _ _) min_trade_amount) eqn:Em; [discriminate|].
    intros [= <-]. apply ltb_ge in Ep, Em.
    exists order1, order2. repeat split; auto.
Qed.

Lemma compatibility_intro now order1 order2 ask bid :
  ((ask = order1 /\ bid = order2) \/ (ask = order2 /\ bid = order1)) ->
  cco_side ask = "ask" -> cco_side bid = "bid" ->
  cco_base_asset ask = cco_base_asset bid ->
  cco_quote_asset ask = cco_quote_asset bid ->
  cco_to_network ask = cco_from_network bid ->
  cco_from_network ask = cco_to_network bid ->
  (dec_mul (cco_price ask) (dec_sub 1 matching_tolerance)
     <= cco_price bid)%Q ->
  (min_trade_amount <= qmin (cco_quantity order1) (cco_quantity order2))%Q ->
  _check_order_compatibility now order1 order2
  = Some {| ccm_source_order := ask; ccm_dest_order := bid;
            ccm_trade_id :=
              "cross_" +:+ cco_order_id order1 +:+ "_"
              +:+ cco_order_id order2 +:+ "_" +:+ str_int now;
            ccm_matched_quantity :=
              qmin (cco_quantity order1) (cco_quantity order2);
            ccm_matched_price := cco_price ask |}.
Proof.
  intros Hwho Ha Hb Hbase Hquote Hto Hfrom Hp Hq.
  apply ltb_false_iff in Hp, Hq.
  unfold _check_order_compatibility.
  destruct Hwho as [[-> ->]|[-> ->]].
  - rewrite Ha, Hb, Hbase, Hquote, Hto, Hfrom, !String.eqb_refl.
    cbn [streq String.eqb Ascii.eqb Bool.eqb andb negb].
    rewrite Hp, Hq. reflexivity.
  - rewrite Ha, Hb, <- Hbase, <- Hquote, <- Hto, <- Hfrom, !String.eqb_refl.
    cbn [streq String.eqb Ascii.eqb Bool.eqb andb negb].
    rewrite Hp, Hq. reflexivity.
Qed.

(** X18 : a match of the market maker pairs an ask with a bid for the same
    assets and mirrored networks; it is priced at the ask, which the bid
    may undercut by the tolerance of 0.5% (the bid is not below the
    [Decimal] product of the ask price and 0.995, a product rounded to 28
    significant digits), so the bid can be below the matched price; its
    quantity is the smaller of the two, and at least the minimum trade
    amount. *)
Theorem match_executes_at_ask_price
    (now : Z) (order1 order2 : CrossChainOrder) (m : CrossChainMatch) :
  _check_order_compatibility now order1 order2 = Some m ->
  let ask := ccm_source_order m in
  let bid := ccm_dest_order m in
  cco_side ask = "ask" /\ cco_side bid = "bid"
  /\ ((ask = order1 /\ bid = order2) \/ (ask = order2 /\ bid = order1))
  /\ ccm_matched_price m = cco_price ask
  /\ (dec_mul (cco_price ask) (dec_sub 1 matching_tolerance)
     <= cco_price bid)%Q
  /\ ccm_matched_quantity m = qmin (cco_quantity order1) (cco_quantity order2)
  /\ (min_trade_amount <= ccm_matched_quantity m)%Q
  /\ cco_base_asset ask = cco_base_asset bid
  /\ cco_quote_asset ask = cco_quote_asset bid
  /\ cco_to_network ask = cco_from_network bid
  /\ cco_from_network ask = cco_to_network bid.
Proof.
  intros H.
  apply compatibility_inv in H
    as (ask & bid & Hwho & Ha & Hb & Hbase & Hquote & Hto & Hfrom & Hp & Hq & ->).
  cbn. repeat split; auto.
Qed.

Lemma qmin_comm a b : (qmin a b == qmin b a)%Q.
Proof.
  unfold qmin.
  destruct (Qle_bool a b) eqn:Eab, (Qle_bool b a) eqn:Eba; try reflexivity.
  - apply Qle_bool_iff in Eab, Eba. apply Qle_antisym; assumption.
  - assert (~ (a <= b)%Q) as Hab by (rewrite <- Qle_bool_iff; congruence).
    assert (~ (b <= a)%Q) as Hba by (rewrite <- Qle_bool_iff; congruence).
    apply Qnot_le_lt in Hab, Hba. exfalso.
    exact (Qlt_irrefl _ (Qlt_trans _ _ _ Hab Hba)).
Qed.

(** X19 : compatibility does not depend on the order of the two orders:
    if a pair matches, the pair exchanged matches too (at any time), with
    the same source and destination order, the same price and an equal
    quantity. *)
Theorem compatibility_is_symmetric
    (now now' : Z) (order1 order2 : CrossChainOrder) (m : CrossChainMatch) :
  _check_order_compatibility now order1 order2 = Some m ->
  exists m',
    _check_order_compatibility now' order2 order1 = Some m'
    /\ ccm_source_order m' = ccm_source_order m
    /\ ccm_dest_order m' = ccm_dest_order m
    /\ ccm_matched_price m' = ccm_matched_price m
    /\ (ccm_matched_quantity m' == ccm_matched_quantity m)%Q.
Proof.
  intros H.
  apply compatibility_inv in H
    as (ask & bid & Hwho & Ha & Hb & Hbase & Hquote & Hto & Hfrom & Hp & Hq & ->).
  eexists. split.
  - apply (compatibility_intro now' order2 order1 ask bid); auto.
    + tauto.
    + rewrite qmin_comm. exact Hq.
  - cbn. repeat split; try reflexivity. apply qmin_comm.
Qed.

(** X20 : [find_matching_orders] returns exactly the matches of the pairs
    of orders at positions [i < j] that are compatible: every compatible
    pair is reported, nothing else is. *)
Theorem matches_are_the_compatible_pairs
    (clock : CrossChainOrder -> CrossChainOrder -> Z)
    (orders : list CrossChainOrder) (m : CrossChainMatch) :
  In m (find_matching_orders clock orders)
  <-> exists i j order1 order2,
        (i < j)%nat
        /\ orders !! i = Some order1
        /\ orders !! j = Some order2
        /\ _check_order_compatibility (clock order1 order2) order1 order2
           = Some m.
Proof.
  induction orders as [|o rest IH]; cbn [find_matching_orders].
  - split; [intros []|]. intros (i & j & o1 & o2 & _ & H & _). discriminate.
  - rewrite in_app_iff, IH, <- list_elem_of_In, list_elem_of_omap.
    split.
    + intros [(o2 & Hin & Hc)|(i & j & o1 & o2 & Hij & Hi & Hj & Hc)].
      * apply list_elem_of_lookup in Hin as [j Hj].
        exists 0%nat, (S j), o, o2. repeat split; auto. lia.
      * exists (S i), (S j), o1, o2. repeat split; auto. lia.
    + intros (i & j & o1 & o2 & Hij & Hi & Hj & Hc).
      destruct j as [|j]; [lia|]. cbn in Hj.
      destruct i as [|i].
      * cbn in Hi. injection Hi as <-. left. exists o2.
        split; [|exact Hc]. eapply list_elem_of_lookup_2. exact Hj.
      * cbn in Hi. right. exists i, j, o1, o2. repeat split; auto. lia.
Qed.

(** X21 : the market maker never executes a trade: its clients are
    [SettlementClientSame] instances, which have no
    [settle_cross_chain_trade], so [execute_cross_chain_trade] answers
    [False] for every match and no call reaches a chain. *)
Theorem maker_never_settles
    (settlement_clients : NetworkType -> option client)
    (supported_networks : NetworkType -> maker_network)
    (now : Z) (m : CrossChainMatch) (h : history) :
  execute_cross_chain_trade SettlementClientSame_of_maker settlement_clients
    supported_networks now m h
  = (Val false, []).
Proof.
  unfold execute_cross_chain_trade.
  destruct (settlement_clients (cco_network (ccm_source_order m)));
    [|reflexivity].
  destruct (settlement_clients (cco_network (ccm_dest_order m)));
    reflexivity.
Qed.

End MarketMakerFacts.

Section TapeFacts.

Lemma in_skipn {A} (x : A) n l : In x (skipn n l) -> In x l.
Proof.
  revert n. induction l as [|y l IH]; intros [|n]; cbn; auto.
  intros H. right. eapply IH. exact H.
Qed.

Lemma insert_by_time_perm x l : Permutation (x :: l) (insert_by_time x l).
Proof.
  induction l as [|y l IH]; cbn; [reflexivity|].
  destruct (tv_time x <=? tv_time y)%Z; [reflexivity|].
  rewrite perm_swap. constructor. exact IH.
Qed.

Lemma sort_by_time_perm l : Permutation l (sort_by_time l).
Proof.
  induction l as [|x l IH]; cbn; [reflexivity|].
  rewrite <- insert_by_time_perm. constructor. exact IH.
Qed.

Lemma insert_by_time_sorted x l :
  StronglySorted by_time l -> StronglySorted by_time (insert_by_time x l).
Proof.
  induction 1 as [|y l Hl IH Hy]; cbn.
  - repeat constructor.
  - destruct (tv_time x <=? tv_time y)%Z eqn:E.
    + apply Z.leb_le in E. constructor; [constructor; assumption|].
      constructor; [exact E|].
      eapply List.Forall_impl; [|exact Hy]. unfold by_time. intros. lia.
    + apply Z.leb_gt in E. constructor; [exact IH|].
      eapply Permutation_Forall; [apply insert_by_time_perm|].
      constructor; [unfold by_time; lia|exact Hy].
Qed.

Lemma sort_by_time_sorted l : StronglySorted by_time (sort_by_time l).
Proof.
  induction l as [|x l IH]; cbn; [constructor|].
  apply insert_by_time_sorted. exact IH.
Qed.

(** The sort is stable: the entries of one time keep the order of the
    tape. *)
Lemma insert_by_time_stable t x l :
  StronglySorted by_time l ->
  filter (fun v => tv_time v = t) (insert_by_time x l)
  = filter (fun v => tv_time v = t) (x :: l).
Proof.
  induction 1 as [|y l Hl IH Hy]; cbn [insert_by_time]; [reflexivity|].
  destruct (tv_time x <=? tv_time y)%Z eqn:E; [reflexivity|].
  apply Z.leb_gt in E.
  rewrite (filter_cons _ y), IH, !(filter_cons _ x), (filter_cons _ y).
  destruct (decide (tv_time y = t)) as [Ey|Ey];
    destruct (decide (tv_time x = t)) as [Ex|Ex]; try reflexivity.
  exfalso. lia.
Qed.

Lemma sort_by_time_stable t l :
  filter (fun v => tv_time v = t) (sort_by_time l)
  = filter (fun v => tv_time v = t) l.
Proof.
  induction l as [|x l IH]; cbn [sort_by_time foldr]; [reflexivity|].
  fold (sort_by_time l).
  rewrite insert_by_time_stable by apply sort_by_time_sorted.
  rewrite !(filter_cons _ x), IH. reflexivity.
Qed.

Lemma strongly_sorted_skipn n l :
  StronglySorted by_time l -> StronglySorted by_time (skipn n l).
Proof.
  intros H. revert n. induction H as [|x l Hl IH Hx]; intros [|n]; cbn;
    try constructor; auto.
Qed.

Lemma strongly_sorted_split n l :
  StronglySorted by_time l ->
  forall d k, In d (firstn n l) -> In k (skipn n l) -> by_time d k.
Proof.
  intros H. revert n.
  induction H as [|x l Hl IH Hx]; intros [|n] d k; cbn; try tauto.
  intros [<-|Hd] Hk.
  - rewrite List.Forall_forall in Hx. apply Hx.
    eapply in_skipn. exact Hk.
  - eapply IH; eassumption.
Qed.

(** X22 : the trades [get_trades] answers are in ascending order of
    ["time"]; there are as many as the tape has, or [limit] of them when
    [limit] is positive and the tape is longer. *)
Theorem trades_answer_is_sorted (tape : list tape_entry) (limit : Z) :
  StronglySorted by_time (trades_list tape limit)
  /\ length (trades_list tape limit)
     = (if (0 <? limit)%Z then Nat.min (Z.to_nat limit) (length tape)
        else length tape).
Proof.
  unfold trades_list, last_n.
  pose proof (sort_by_time_sorted (map view_of tape)) as Hs.
  pose proof (Permutation_length (sort_by_time_perm (map view_of tape))) as Hl.
  rewrite length_map in Hl.
  destruct (0 <? limit)%Z.
  - split; [apply strongly_sorted_skipn; exact Hs|].
    rewrite length_skipn. lia.
  - split; [exact Hs|lia].
Qed.

(** X23 : the trades [get_trades] leaves out are never later than those
    it answers: tape and answer differ by the entries dropped, each of
    which has a time at most that of every entry kept; with a limit of 0
    or less nothing is dropped. *)
Theorem trades_answer_keeps_the_latest (tape : list tape_entry) (limit : Z) :
  exists dropped,
    Permutation (map view_of tape) (dropped ++ trades_list tape limit)
    /\ (forall d k,
           In d dropped -> In k (trades_list tape limit) ->
           (tv_time d <= tv_time k)%Z)
    /\ ((limit <= 0)%Z -> dropped = []).
Proof.
  unfold trades_list, last_n.
  set (sorted := sort_by_time (map view_of tape)).
  pose proof (sort_by_time_sorted (map view_of tape)) as Hs. fold sorted in Hs.
  pose proof (sort_by_time_perm (map view_of tape)) as Hp. fold sorted in Hp.
  destruct (0 <? limit)%Z eqn:E.
  - exists (firstn (length sorted - Z.to_nat limit) sorted).
    split; [rewrite firstn_skipn; exact Hp|].
    split; [apply strongly_sorted_split; exact Hs|].
    apply Z.ltb_lt in E. lia.
  - exists []. split; [exact Hp|]. split; [intros d k []|reflexivity].
Qed.

End TapeFacts.

Section FundsFacts.

Lemma total_locked_run books account asset :
  forall total h,
    (Forall (fun sb => length (split_on "_"%char (fst sb)) = 2%nat) books ->
     exists t, total_locked books account asset total h = (Val t, []))
    /\ (Exists (fun sb => length (split_on "_"%char (fst sb)) <> 2%nat) books ->
        exists e, total_locked books account asset total h = (Exc e, [])).
Proof.
  induction books as [|[symbol book] rest IH]; intros total h; cbn [total_locked].
  - split; [intros _; exists total; reflexivity|]. intros H. inversion H.
  - unfold bind, split_symbol. cbn [fst].
    destruct (split_on "_"%char symbol) as [|b [|q [|x l]]] eqn:Es.
    + split.
      * intros H. inversion H as [|? ? Hs _]. cbn in Hs. rewrite Es in Hs. discriminate.
      * intros _. eexists. reflexivity.
    + split.
      * intros H. inversion H as [|? ? Hs _]. cbn in Hs. rewrite Es in Hs. discriminate.
      * intros _. eexists. reflexivity.
    + unfold ret. cbn. split.
      * intros H. inversion H as [|? ? _ Hrest]. subst.
        match goal with
        | |- context [total_locked rest account asset ?t ?hh] =>
            destruct (proj1 (IH t hh) Hrest) as [t' ->]
        end.
        eexists. reflexivity.
      * intros H. inversion H as [? ? Hs|? ? Hrest]; subst.
        { cbn in Hs. rewrite Es in Hs. contradiction. }
        match goal with
        | |- context [total_locked rest account asset ?t ?hh] =>
            destruct (proj2 (IH t hh) Hrest) as [e ->]
        end.
        eexists. reflexivity.
    + split.
      * intros H. inversion H as [|? ? Hs _]. cbn in Hs. rewrite Es in Hs. discriminate.
      * intros _. eexists. reflexivity.
Qed.

(** X24 : [check_available_funds] fails, for every account and asset,
    exactly when some order book has a symbol that does not split at
    ["_"] into two parts, whether or not that book concerns the asset. *)
Theorem one_odd_symbol_fails_every_funds_check
    (order_books : list (string * book_maps)) (account asset : string)
    (h : history) :
  (exists detail,
      result (check_available_funds order_books account asset) h
      = Val (FundsFailed detail))
  <-> exists symbol order_book,
        In (symbol, order_book) order_books
        /\ length (split_on "_"%char symbol) <> 2%nat.
Proof.
  unfold result, check_available_funds, try_except, bind.
  destruct (total_locked_run order_books account asset 0 h) as [Hok Hbad].
  destruct (Forall_Exists_dec
              (fun sb : string * book_maps =>
                 length (split_on "_"%char (fst sb)) = 2%nat)
              (fun sb : string * book_maps =>
                 length (split_on "_"%char (fst sb)) <> 2%nat)
              (fun sb => Nat.eq_dec _ _) order_books) as [Hall|Hex].
  - destruct (Hok Hall) as [t ->]. cbn. split.
    + intros [d Hd]. discriminate.
    + intros (symbol & book & Hin & Hne). exfalso.
      rewrite List.Forall_forall in Hall. apply Hne. exact (Hall _ Hin).
  - assert (Exists (fun sb : string * book_maps =>
                      length (split_on "_"%char (fst sb)) <> 2%nat) order_books)
      as Hex' by exact Hex.
    destruct (Hbad Hex') as [e ->]. cbn. split.
    + intros _. apply List.Exists_exists in Hex' as ([symbol book] & Hin & Hne).
      exists symbol, book. auto.
    + intros _. eexists. reflexivity.
Qed.

End FundsFacts.

Section FaucetFacts.

Variable W : World.
Variable cfg : Config.

(** X25 : [faucet] never reports success: its client is a
    [SettlementClientSame], which has no [mint_token], so every request
    is answered with status code 0, and the only calls issued are
    connections. *)
Theorem faucet_never_succeeds (payload : faucet_payload) (h : history) :
  exists message es,
    faucet W cfg SettlementClientSame_of_faucet payload h
    = (Val (FaucetRefused message), es)
    /\ Forall (fun ev => exists rpc, ev = EvConnect rpc) es.
Proof.
  unfold faucet, try_except.
  destruct (fp_to payload) as [to|];
    [|unfold ret; cbn; eexists _, _; split; [reflexivity|constructor]].
  destruct (negb (truthy to));
    [unfold ret; cbn; eexists _, _; split; [reflexivity|constructor]|].
  destruct (network_cfg cfg _) as [net|];
    [|unfold ret; cbn; eexists _, _; split; [reflexivity|constructor]].
  destruct (negb (otruthy _));
    [unfold ret; cbn; eexists _, _; split; [reflexivity|constructor]|].
  unfold bind at 1. rewrite SettlementClientSame_init_run.
  destruct (result (SettlementClientSame_init W _ _ _) h) as [c|e].
  - unfold bind, mint_token, raise, ret. cbn.
    eexists _, _. split; [reflexivity|]. repeat constructor. eauto.
  - unfold ret. cbn. eexists _, _. split; [reflexivity|].
    repeat constructor. eauto.
Qed.

End FaucetFacts.

(* ================================================================== *)
(** ** The properties above at the sample inputs                       *)
(* ================================================================== *)

Lemma token_address_sources_witness :
  get_token_address sample_cfg "usdt" (Some "hedera")
  = "0x62bcF51859E23cc47ddc6C3144B045619476Be92"
  /\ exists n toks,
       SUPPORTED_NETWORKS sample_cfg !! "hedera" = Some n
       /\ cfg_tokens n = Some toks
       /\ toks !! "USDT" = Some "0x62bcF51859E23cc47ddc6C3144B045619476Be92".
Proof.
  assert (get_token_address sample_cfg "usdt" (Some "hedera")
          = "0x62bcF51859E23cc47ddc6C3144B045619476Be92") as H1
    by (vm_compute; reflexivity).
  assert ("0x62bcF51859E23cc47ddc6C3144B045619476Be92" <> "") as H2
    by discriminate.
  split; [exact H1|].
  destruct (token_address_sources sample_cfg "usdt" "hedera" _ H1 H2)
    as [H|[(legacy & H & _)|(_ & legacy & H & _)]];
    [exact H|discriminate H|discriminate H].
Defined.

Lemma token_symbol_case_insensitive_witness :
  ascii_text "usdt" = true
  /\ get_token_address sample_cfg (lower "usdt") (Some "hedera")
     = get_token_address sample_cfg "usdt" (Some "hedera")
  /\ get_token_address sample_cfg (upper "usdt") (Some "hedera")
     = get_token_address sample_cfg "usdt" (Some "hedera")
  /\ get_token_address sample_cfg "usdt" (Some "hedera") = usdt_hedera.
Proof.
  assert (ascii_text "usdt" = true) as H by reflexivity.
  split; [exact H|].
  destruct (token_symbol_case_insensitive sample_cfg "usdt" (Some "hedera") H)
    as [Hl Hu].
  split; [exact Hl|]. split; [exact Hu|]. vm_compute. reflexivity.
Defined.

Lemma mixed_case_token_key_is_dead_witness :
  upper "xZAR" <> "xZAR"
  /\ ((SUPPORTED_NETWORKS xzar_cfg !! "ethereum") ≫= cfg_tokens)
       ≫= (fun toks => toks !! "xZAR")
     = Some xzar_address
  /\ ((SUPPORTED_NETWORKS (drop_token xzar_cfg "ethereum" "xZAR") !! "ethereum")
         ≫= cfg_tokens) ≫= (fun toks => toks !! "xZAR")
     = None
  /\ get_token_address (drop_token xzar_cfg "ethereum" "xZAR") "xZAR"
       (Some "ethereum")
     = get_token_address xzar_cfg "xZAR" (Some "ethereum").
Proof.
  assert (upper "xZAR" <> "xZAR") as H by (vm_compute; discriminate).
  split; [exact H|]. split; [vm_compute; reflexivity|].
  split; [vm_compute; reflexivity|].
  exact (mixed_case_token_key_is_dead xzar_cfg "ethereum" "xZAR" "xZAR"
           (Some "ethereum") H).
Defined.

Lemma no_settlement_without_private_key_witness :
  otruthy (PRIVATE_KEY keyless_cfg) = false
  /\ exists info es,
       settle_trades_if_any (sample_world (100 * 10 ^ 18) (Val 18%Z) None 1 "aa" [])
         keyless_cfg SettlementClientSame (sample_order_dict 7) []
       = (Val info, es)
       /\ settlement_ok info (od_trades (sample_order_dict 7)) = false.
Proof.
  split; [reflexivity|].
  destruct (no_settlement_without_private_key
              (sample_world (100 * 10 ^ 18) (Val 18%Z) None 1 "aa" [])
              keyless_cfg (sample_order_dict 7) [] eq_refl)
    as (info & es & Hrun & _ & Hok).
  exists info, es. split; [exact Hrun|].
  apply Hok. simpl. discriminate.
Defined.

Lemma wrapper_decides_on_first_trade_witness :
  settle_trades_if_any_cross (empty_escrow_world None) sample_cfg
    SettlementClientSame (sample_order_dict 7) []
  = (Val (unsettled None (Some "not_cross_chain")), []).
Proof.
  destruct (wrapper_decides_on_first_trade (empty_escrow_world None) sample_cfg
              SettlementClientSame (sample_order_dict 7) sample_trade []
              "hedera" "hedera" [] eq_refl
              ltac:(simpl; lia) ltac:(simpl; lia) eq_refl eq_refl
              eq_refl eq_refl) as [_ H].
  exact H.
Defined.

Lemma rolled_back_order_stays_in_log_witness :
  exists info od,
    result (register_order (matching_world 50000000 (Val 6%Z)
                              (Some (sample_order 7)))
              sample_cfg SettlementClientSame true true sample_payload) []
    = Val (SettlementFailed info)
    /\ omap logged
         (calls (register_order (matching_world 50000000 (Val 6%Z)
                                   (Some (sample_order 7)))
                   sample_cfg SettlementClientSame true true sample_payload) [])
       = [placement_of (symbol_of sample_payload) od].
Proof.
  assert (exists info,
             result (register_order (matching_world 50000000 (Val 6%Z)
                                       (Some (sample_order 7)))
                       sample_cfg SettlementClientSame true true
                       sample_payload) []
             = Val (SettlementFailed info)) as [info Hinfo].
  { vm_compute. eexists. reflexivity. }
  destruct (rolled_back_order_stays_in_log _ _ _ _ _ _ _ Hinfo)
    as (od & _ & Hlog & _).
  exists info, od. split; [exact Hinfo|exact Hlog].
Defined.

Lemma rollback_cancels_order_one_witness :
  exists side,
    filter (fun ev => is_cancel_event ev = true)
      (calls (register_order (matching_world 50000000 (Val 6%Z) None)
                sample_cfg SettlementClientSame true true sample_payload) [])
    = [EvCancelOrder "HBAR_USDT" side 1].
Proof.
  assert (exists info,
             result (register_order (matching_world 50000000 (Val 6%Z) None)
                       sample_cfg SettlementClientSame true true
                       sample_payload) []
             = Val (SettlementFailed info)) as [info Hinfo].
  { vm_compute. eexists. reflexivity. }
  assert (forall h' symbol q pr,
             process_order (matching_world 50000000 (Val 6%Z) None) h' symbol q
             = Val pr -> pr_order pr = None) as Hbook.
  { intros h' symbol q pr H. simpl in H. injection H as <-. reflexivity. }
  exact (rollback_cancels_order_one _ _ _ _ _ _ _ Hbook Hinfo).
Defined.

Lemma accepted_order_logs_each_trade_witness :
  omap executed_trade
    (calls (register_order (matching_world (100 * 10 ^ 18) (Val 18%Z)
                              (Some (sample_order 7)))
              sample_cfg SettlementClientSame true true sample_payload) [])
  = [(10%Q, 3%Q, 1700000000%Z)].
Proof.
  assert (exists od nb tid vd info,
             result (register_order (matching_world (100 * 10 ^ 18) (Val 18%Z)
                                       (Some (sample_order 7)))
                       sample_cfg SettlementClientSame true true
                       sample_payload) []
             = Val (Registered od nb tid vd info)
             /\ od_trades od = [sample_trade])
    as (od & nb & tid & vd & info & Hinfo & Htrades).
  { vm_compute. eexists _, _, _, _, _. split; reflexivity. }
  assert (forall h' a,
             append_file (matching_world (100 * 10 ^ 18) (Val 18%Z)
                            (Some (sample_order 7))) h' a = Val tt) as Hfile.
  { intros. reflexivity. }
  destruct (accepted_order_logs_each_trade _ _ _ _ _ _ _ _ _ _ _ Hfile Hinfo)
    as (Hlog & _).
  rewrite Hlog, Htrades. reflexivity.
Defined.

Lemma cross_registration_settles_bid_first_trades_only_witness :
  exists (receipts : list (cross_receipt * cross_receipt)) h' symbol q trades
         ord task_id next_best_order,
    process_order_cross
      (sample_world (100 * 10 ^ 18) (Val 18%Z) None 1 "aa" sample_cross_trades)
      h' symbol q
    = Val (trades, ord, task_id, next_best_order)
    /\ length receipts = length trades
    /\ Forall (fun t => xp_side (xt_party1 t) = "bid"
                        /\ xp_side (xt_party2 t) = "ask") trades.
Proof.
  assert (exists total available locked ord task_id next_best_order receipts,
             result (register_order_cross
                       (sample_world (100 * 10 ^ 18) (Val 18%Z) None 1 "aa"
                          sample_cross_trades)
                       sample_cfg sample_cross_body) []
             = Val (CrossRegistered total available locked ord task_id
                      next_best_order receipts))
    as (total & available & locked & ord & task_id & nb & receipts & H).
  { vm_compute. eexists _, _, _, _, _, _, _. reflexivity. }
  destruct (cross_registration_settles_bid_first_trades_only _ _ _ _ _ _ _ _
              _ _ _ H) as (h' & symbol & q & trades & Hbook & Hlen & Hall).
  exists receipts, h', symbol, q, trades, ord, task_id, nb.
  split; [exact Hbook|]. split; [exact Hlen|exact Hall].
Defined.

Lemma cross_order_accepted_on_raw_balance_witness :
  exists total available locked h' rpc s u t,
    cross_checkEscrowBalance
      (sample_world 5 (Val 18%Z) None 1 "aa" sample_cross_trades) h' rpc s u t
    = Val (total, available, locked)
    /\ to_checksum_address
         (sample_world 5 (Val 18%Z) None 1 "aa" sample_cross_trades)
         (cb_account sample_cross_body) = Some u
    /\ ~ (to_float (inject_Z available) < cross_amount sample_cross_body)%Q.
Proof.
  assert (exists ev,
             In ev (calls (register_order_cross
                             (sample_world 5 (Val 18%Z) None 1 "aa"
                                sample_cross_trades)
                             sample_cfg sample_cross_body) [])
             /\ is_process_order ev = true) as (ev & Hin & Hev).
  { vm_compute. eexists. split; [right; right; left; reflexivity|reflexivity]. }
  exact (cross_order_accepted_on_raw_balance _ _ _ _ _ Hin Hev).
Defined.

Lemma unreadable_balance_counts_as_zero_witness :
  exists v es cks,
    validate_order_prerequisites unreadable_world sample_cfg sample_payload []
    = (Val v, es)
    /\ v_checks v = Some cks
    /\ length (filter (fun ev => is_balance_read ev = true) es) = 4%nat
    /\ v_valid v = false
    /\ v_errors v = [InsufficientEscrow 30 0].
Proof.
  assert (exists v es cks,
             validate_order_prerequisites unreadable_world sample_cfg
               sample_payload []
             = (Val v, es)
             /\ v_checks v = Some cks
             /\ ck_required_amount cks = 30%Q
             /\ v_valid v = false)
    as (v & es & cks & Hrun & Hcks & Hreq & Hvalid).
  { vm_compute. eexists _, _, _. repeat split; reflexivity. }
  assert (forall h' rpc addr u t,
             exists e, checkEscrowBalance unreadable_world h' rpc addr u t
                       = Exc e) as Hfail.
  { intros. eexists. reflexivity. }
  destruct (unreadable_balance_counts_as_zero _ _ _ _ _ _ _ Hfail Hrun Hcks)
    as (Hreads & _ & _ & _ & _ & Herr).
  exists v, es, cks.
  split; [exact Hrun|]. split; [exact Hcks|]. split; [exact Hreads|].
  split; [exact Hvalid|]. rewrite <- Hreq. exact (Herr Hvalid).
Defined.

Lemma parsed_order_spans_two_networks_witness :
  parse_cross_chain_order 1700000000 sample_raw_order = Some maker_ask
  /\ cco_from_network maker_ask = "hedera"
  /\ cco_to_network maker_ask = "ethereum".
Proof.
  assert (parse_cross_chain_order 1700000000 sample_raw_order = Some maker_ask)
    as H by (vm_compute; reflexivity).
  split; [exact H|].
  destruct (parsed_order_spans_two_networks _ _ _ H)
    as (_ & _ & [(Hf & Ht & _)|(Hf & _)]).
  - split; [exact Hf|exact Ht].
  - discriminate Hf.
Defined.

Lemma match_executes_at_ask_price_witness :
  exists m,
    _check_order_compatibility 1700000000 maker_bid maker_ask = Some m
    /\ ccm_matched_price m = 100%Q
    /\ cco_price maker_bid = (996 # 10)%Q.
Proof.
  assert (exists m,
             _check_order_compatibility 1700000000 maker_bid maker_ask = Some m
             /\ ccm_source_order m = maker_ask) as (m & Hm & Hsrc).
  { vm_compute. eexists. split; reflexivity. }
  exists m. split; [exact Hm|].
  destruct (match_executes_at_ask_price _ _ _ _ Hm) as (_ & _ & _ & Hp & _).
  split; [|reflexivity].
  rewrite Hp, Hsrc. reflexivity.
Defined.

Lemma compatibility_is_symmetric_witness :
  exists m m',
    _check_order_compatibility 1700000000 maker_ask maker_bid = Some m
    /\ _check_order_compatibility 1700000060 maker_bid maker_ask = Some m'
    /\ ccm_matched_price m' = ccm_matched_price m.
Proof.
  assert (exists m,
             _check_order_compatibility 1700000000 maker_ask maker_bid = Some m)
    as (m & Hm).
  { vm_compute. eexists. reflexivity. }
  destruct (compatibility_is_symmetric 1700000000 1700000060 _ _ _ Hm)
    as (m' & Hm' & _ & _ & Hp & _).
  exists m, m'. split; [exact Hm|]. split; [exact Hm'|exact Hp].
Defined.
